(** * Validation and verdict engine of the multi-agent game tester

    A shallow embedding of
    - [backend/agents/executor_agent.py]  ([execute_test], [_execute_step]) and
    - [backend/agents/orchestrator_agent.py]  ([_cross_agent_validate],
      [_determine_verdict], [_calculate_reproducibility],
      [_record_for_learning]),
    followed by the properties of the verdict engine.

    Python values are modelled as follows.
    - [int] is [Z] (counts and lengths are [nat]).
    - [float] is IEEE-754 binary64.  A finite float is modelled by its exact
      value, a rational of [Q] in lowest terms; every float operation computes
      the exact result and rounds it to the nearest binary64 value, ties to
      even ([round_b64]).
    - [str] is [string]; [None] and a missing dictionary key read through
      [dict.get] are both [None] of an [option].
    - A dictionary with a fixed set of keys is a record; a key that only some
      code paths set is an [option] field.
    - A call that may raise is an [outcome]: the value returned or the message
      of the exception raised.  The exceptions are those of class
      [Exception], which the handlers [except Exception] catch. *)

From Stdlib Require Import List String Ascii Bool Arith ZArith.
From Stdlib Require Import QArith Qround Qpower.
From Stdlib Require Import Lia Lqa DecimalString.
From Stdlib Require Import Floats.SpecFloat.
From Stdlib Require Import Permutation.
Import ListNotations.

Local Open Scope string_scope.
Local Open Scope Z_scope.

(* ================================================================== *)
(** ** Python floats *)

Module PyFloat.

(** Nearest integer to a rational, ties to the even integer. *)
Definition rne (q : Q) : Z :=
  let n := Qnum q in
  let d := Zpos (Qden q) in
  let f := n / d in
  let r := n mod d in
  match 2 * r ?= d with
  | Lt => f
  | Gt => f + 1
  | Eq => if Z.even f then f else f + 1
  end.

(** [floor (log2 |q|)] for [q <> 0]. *)
Definition ilog2Q (q : Q) : Z :=
  let n := Z.abs (Qnum q) in
  let d := Zpos (Qden q) in
  let l := Z.log2 n - Z.log2 d in
  if (if 0 <=? l then 2 ^ l * d <=? n else d <=? n * 2 ^ (- l))
  then l else l - 1.

(** Exponent of the unit in the last place of the binary64 format at [q]:
    53 significant bits, least exponent -1074 (subnormal range). *)
Definition ulp_exp (q : Q) : Z := Z.max (ilog2Q q - 52) (-1074).

(** Round-to-nearest-even into binary64.  The range of binary64 is not
    exceeded by any value computed in this development (all are at most
    100 in magnitude), so overflow to infinity is not represented. *)
Definition round_b64 (q : Q) : Q :=
  if Qeq_bool q 0 then 0%Q
  else
    let e := ulp_exp q in
    Qred (inject_Z (rne (q * Qpower 2 (- e))) * Qpower 2 e).

(** The float denoted by the decimal literal [n / d]. *)
Definition literal (n : Z) (d : positive) : Q := round_b64 (n # d).

(** [a / b] on Python integers: the correctly rounded quotient.  Python
    raises [ZeroDivisionError] for [b = 0]; every use below is guarded by a
    test that the divisor, a list length, is positive. *)
Definition py_truediv (a b : Z) : Q := round_b64 (inject_Z a / inject_Z b).

(** [x * y] on floats (an integer operand is converted exactly). *)
Definition py_mul (x y : Q) : Q := round_b64 (x * y).

(** [int(x)]: truncation towards zero. *)
Definition py_int (x : Q) : Z :=
  if Qle_bool 0 x then Qfloor x else Qceiling x.

(** Rounding of an exact rational to [ndigits = 2] decimals, half to even,
    as an integer number of hundredths. *)
Definition hundredths (x : Q) : Z := rne (x * 100).

(** [round(x, 2)]: the exact value of [x] is rounded to two decimals, half
    to even, and the float nearest to that decimal is returned. *)
Definition py_round2 (x : Q) : Q := round_b64 (inject_Z (hundredths x) / 100).

(** Value of a finite [spec_float], for comparison with the Standard
    Library's specification of IEEE-754 arithmetic. *)
Definition SF2Q (x : spec_float) : option Q :=
  match x with
  | S754_zero _ => Some 0%Q
  | S754_finite s m e =>
      Some (Qred (inject_Z (if s then Zneg m else Zpos m) * Qpower 2 e))
  | _ => None
  end.

Definition b64_of_Z (n : Z) : spec_float := binary_normalize 53 1024 n 0 false.
Definition b64_div : spec_float -> spec_float -> spec_float := SFdiv 53 1024.
Definition b64_mul : spec_float -> spec_float -> spec_float := SFmul 53 1024.

End PyFloat.
Import PyFloat.

(* ================================================================== *)
(** ** Python helpers *)

(** [str(n)] for a non-negative integer. *)
Definition py_str (n : nat) : string := NilEmpty.string_of_uint (Nat.to_uint n).

(** A call that returns a value or raises an exception with a message. *)
Inductive outcome (A : Type) : Type :=
| Returns (a : A)
| Raises (msg : string).
Arguments Returns {A} a.
Arguments Raises {A} msg.

(** The value of [r.get("status")]: a string, or [None]. *)
Definition status_t : Type := option string.

(** Truth value of a status in a condition: [None] and [""] are false. *)
Definition truthy (s : status_t) : bool :=
  match s with
  | Some EmptyString => false
  | Some _ => true
  | None => false
  end.

(** [a == b] on statuses. *)
Definition status_eqb (a b : status_t) : bool :=
  match a, b with
  | Some x, Some y => String.eqb x y
  | None, None => true
  | _, _ => false
  end.

Definition status_eq_dec (a b : status_t) : {a = b} + {a <> b}.
Proof. decide equality. apply string_dec. Defined.

(** [l.count(x)]. *)
Definition py_count (x : status_t) (l : list status_t) : nat :=
  count_occ status_eq_dec l x.

(* ================================================================== *)
(** ** Data model *)

(** The artifact paths returned by [ArtifactCapture.capture_all]. *)
Record Artifacts : Type := {
  screenshot : string;
  dom : string;
  console_logs : string;
  network_logs : string
}.

Record TestCase : Type := {
  tc_id : Z;
  tc_name : string;
  tc_steps : list string
}.

(** The dictionary built by [_execute_step] (without [action_taken]). *)
Record StepResult : Type := {
  sr_index : nat;
  sr_description : string;
  sr_status : string;
  sr_screenshot : option string;
  sr_error : option string
}.

(** One attempt, as built by [execute_test] or by the error branch of the
    repeat loop.  Time stamps and the duration are left out. *)
Record RunResult : Type := {
  test_id : option Z;
  test_name : option string;
  agent_id : option string;
  steps : list StepResult;
  status : status_t;
  artifacts : list Artifacts;
  error : option string;
  run_index : option nat
}.

(** The dictionary returned by [_cross_agent_validate]. *)
Record CrossValidation : Type := {
  cv_status : status_t;
  agrees_with_primary : option bool;
  primary_statuses : option (list status_t);
  cv_agent_id : option string;
  cv_error : option string
}.

(** The dictionary returned by [_determine_verdict]; the three counters are
    absent from the INCONCLUSIVE verdict. *)
Record Verdict : Type := {
  result : string;
  confidence : Z;
  reason : string;
  pass_count : option nat;
  fail_count : option nat;
  total_runs : option nat
}.

(** The dictionary returned by [_execute_with_validation], read with
    [dict.get] by [_record_for_learning]. *)
Record ValidatedResult : Type := {
  vr_test_id : Z;
  vr_test_name : string;
  runs : list RunResult;
  cross_validation : option CrossValidation;
  verdict : option Verdict;
  reproducibility : option Q
}.

(** One invocation of [KnowledgeBase.add_test_result]. *)
Record AddTestResult : Type := {
  game_url : string;
  kb_test_case : TestCase;
  kb_result : string;
  execution_time : Z;
  kb_artifacts : option Artifacts
}.

(** The knowledge base, seen from the orchestrator: the invocations of
    [add_test_result] it has received, oldest first. *)
Definition KnowledgeBase : Type := list AddTestResult.

(** What the browser and the artifact store do during one attempt:
    [env_step i step] is the outcome of the [try] body of [_execute_step]
    (interpret, act, wait, capture) and [env_final] the outcome of the final
    [capture_all]. *)
Record Env : Type := {
  env_step : nat -> string -> outcome Artifacts;
  env_final : outcome Artifacts
}.

(* ================================================================== *)
(** ** Executor agent *)

(** [ExecutorAgent._execute_step]. *)
Definition execute_step (env : Env) (step : string) (step_index : nat)
  : StepResult :=
  match env_step env step_index step with
  | Returns a =>
      {| sr_index := step_index; sr_description := step;
         sr_status := "passed";
         sr_screenshot := Some (screenshot a); sr_error := None |}
  | Raises e =>
      {| sr_index := step_index; sr_description := step;
         sr_status := "failed";
         sr_screenshot := None; sr_error := Some e |}
  end.

Definition append_step (r : RunResult) (s : StepResult) : RunResult :=
  {| test_id := test_id r; test_name := test_name r; agent_id := agent_id r;
     steps := (steps r ++ [s])%list; status := status r; artifacts := artifacts r;
     error := error r; run_index := run_index r |}.

Definition set_status (r : RunResult) (st : string) (err : option string)
  : RunResult :=
  {| test_id := test_id r; test_name := test_name r; agent_id := agent_id r;
     steps := steps r; status := Some st; artifacts := artifacts r;
     error := err; run_index := run_index r |}.

Definition append_artifacts (r : RunResult) (a : Artifacts) : RunResult :=
  {| test_id := test_id r; test_name := test_name r; agent_id := agent_id r;
     steps := steps r; status := status r; artifacts := (artifacts r ++ [a])%list;
     error := error r; run_index := run_index r |}.

Definition set_run_index (r : RunResult) (i : nat) : RunResult :=
  {| test_id := test_id r; test_name := test_name r; agent_id := agent_id r;
     steps := steps r; status := status r; artifacts := artifacts r;
     error := error r; run_index := Some i |}.

(** The [for step_idx, step in enumerate(steps)] loop of [execute_test],
    which stops at the first failed step. *)
Fixpoint execute_steps (env : Env) (step_idx : nat) (todo : list string)
    (r : RunResult) : RunResult :=
  match todo with
  | [] => r
  | step :: rest =>
      let step_result := execute_step env step step_idx in
      let r := append_step r step_result in
      if String.eqb (sr_status step_result) "failed"
      then set_status r "failed" (sr_error step_result)
      else execute_steps env (S step_idx) rest r
  end.

(** [ExecutorAgent.execute_test]. *)
Definition execute_test (env : Env) (agent : string) (test_case : TestCase)
  : RunResult :=
  let r := {| test_id := Some (tc_id test_case);
              test_name := Some (tc_name test_case);
              agent_id := Some agent;
              steps := []; status := Some "running"; artifacts := [];
              error := None; run_index := None |} in
  let r := execute_steps env 0 (tc_steps test_case) r in
  let r := if status_eqb (status r) (Some "running")
           then set_status r "passed" (error r) else r in
  match env_final env with
  | Returns final_artifacts => append_artifacts r final_artifacts
  | Raises e => set_status r "error" (Some e)
  end.

(* ================================================================== *)
(** ** Orchestrator agent *)

(** The run recorded by the [except] branch of the repeat loop. *)
Definition error_run (run_idx : nat) (e : string) : RunResult :=
  {| test_id := None; test_name := None; agent_id := None; steps := [];
     status := Some "error"; artifacts := []; error := Some e;
     run_index := Some run_idx |}.

(** The run that the [try] and [except] blocks of one iteration of the
    repeat loop append to [runs]: [body] is the outcome of the [try] block up
    to the result of [execute_test] (starting the browser, loading the game,
    running the test). *)
Definition recorded_run (run_idx : nat) (body : outcome RunResult)
  : RunResult :=
  match body with
  | Returns r => set_run_index r run_idx
  | Raises e => error_run run_idx e
  end.

(** The repeat loop of [_execute_with_validation].  An attempt is the outcome
    of the [try] block together with the outcome of [browser.stop()] in the
    [finally] block; an exception raised by [browser.stop()] is not handled
    and leaves the loop and the function. *)
Fixpoint repeat_runs (run_idx : nat)
    (attempts : list (outcome RunResult * outcome unit))
  : outcome (list RunResult) :=
  match attempts with
  | [] => Returns []
  | (body, stop) :: rest =>
      let run := recorded_run run_idx body in
      match stop with
      | Raises e => Raises e
      | Returns _ =>
          match repeat_runs (S run_idx) rest with
          | Returns runs => Returns (run :: runs)
          | Raises e => Raises e
          end
      end
  end.

(** The dictionary that the [try] and [except] blocks of
    [_cross_agent_validate] return; [attempt] is the outcome of starting the
    browser, loading the game and running [execute_test] under the label
    [cross_validator]. *)
Definition cross_validation_record (attempt : outcome RunResult)
    (primary_results : list RunResult) : CrossValidation :=
  match attempt with
  | Returns r =>
      let primary_status := map status primary_results in
      let cross_status := status r in
      let agreement :=
        forallb (fun s => status_eqb s cross_status) primary_status in
      {| cv_status := cross_status;
         agrees_with_primary := Some agreement;
         primary_statuses := Some primary_status;
         cv_agent_id := Some "cross_validator";
         cv_error := None |}
  | Raises e =>
      {| cv_status := Some "error";
         agrees_with_primary := Some false;
         primary_statuses := None;
         cv_agent_id := None;
         cv_error := Some e |}
  end.

(** [OrchestratorAgent._cross_agent_validate]: the [finally] block runs
    [browser.stop()] after the dictionary to return has been built; when
    [browser.stop()] raises, that exception replaces the return value. *)
Definition cross_agent_validate (attempt : outcome RunResult)
    (stop : outcome unit) (primary_results : list RunResult)
  : outcome CrossValidation :=
  let record := cross_validation_record attempt primary_results in
  match stop with
  | Returns _ => Returns record
  | Raises e => Raises e
  end.

(** Truth value of [cross_validation.get("agrees_with_primary")]. *)
Definition cross_agrees (cross : CrossValidation) : bool :=
  match agrees_with_primary cross with
  | Some b => b
  | None => false
  end.

(** The statuses kept by [_determine_verdict]:
    [[r.get("status") for r in runs if r.get("status")]]. *)
Definition valid_statuses (rs : list RunResult) : list status_t :=
  filter truthy (map status rs).

(** The block "Determine result" of [_determine_verdict]. *)
Definition determine_result (passed failed total : nat)
  : string * Z * string :=
  if Nat.eqb passed total then
    ("PASS", 100, "All " ++ py_str total ++ " runs passed")
  else if Nat.eqb failed total then
    ("FAIL", 100, "All " ++ py_str total ++ " runs failed")
  else if Nat.ltb failed passed then
    ("FLAKY",
     py_int (py_mul (py_truediv (Z.of_nat passed) (Z.of_nat total)) 100),
     "Inconsistent: " ++ py_str passed ++ "/" ++ py_str total ++ " passed")
  else
    ("FAIL",
     py_int (py_mul (py_truediv (Z.of_nat failed) (Z.of_nat total)) 100),
     "Majority failed: " ++ py_str failed ++ "/" ++ py_str total).

(** The block "Adjust based on cross-validation" of [_determine_verdict]. *)
Definition adjust_for_cross (agrees : bool) (base : string * Z * string)
  : string * Z * string :=
  let '(res, conf, rsn) := base in
  if agrees then (res, Z.min 100 (conf + 10), rsn)
  else
    let conf := Z.max 0 (conf - 20) in
    if String.eqb res "PASS"
    then ("FLAKY", conf, rsn ++ " (cross-validation disagreement)")
    else (res, conf, rsn).

(** [OrchestratorAgent._determine_verdict]. *)
Definition determine_verdict (rs : list RunResult) (cross : CrossValidation)
  : Verdict :=
  let statuses := valid_statuses rs in
  match statuses with
  | [] =>
      {| result := "INCONCLUSIVE"; confidence := 0;
         reason := "No valid runs completed";
         pass_count := None; fail_count := None; total_runs := None |}
  | _ :: _ =>
      let passed := py_count (Some "passed") statuses in
      let failed := py_count (Some "failed") statuses in
      let total := List.length statuses in
      let '(res, conf, rsn) :=
        adjust_for_cross (cross_agrees cross)
          (determine_result passed failed total) in
      {| result := res; confidence := conf; reason := rsn;
         pass_count := Some passed; fail_count := Some failed;
         total_runs := Some total |}
  end.

(** [collections.Counter]: keys in order of first occurrence. *)
Fixpoint counter_add (s : status_t) (c : list (status_t * nat))
  : list (status_t * nat) :=
  match c with
  | [] => [(s, 1%nat)]
  | (k, n) :: c' =>
      if status_eqb k s then (k, S n) :: c' else (k, n) :: counter_add s c'
  end.

Definition Counter (l : list status_t) : list (status_t * nat) :=
  fold_left (fun c s => counter_add s c) l [].

(** The first entry of greatest count ([max] keeps the earliest maximum). *)
Fixpoint first_max (best : status_t * nat) (c : list (status_t * nat))
  : status_t * nat :=
  match c with
  | [] => best
  | x :: c' => if Nat.ltb (snd best) (snd x) then first_max x c'
               else first_max best c'
  end.

(** [Counter.most_common(1)]. *)
Definition most_common_1 (c : list (status_t * nat))
  : list (status_t * nat) :=
  match c with
  | [] => []
  | x :: c' => [first_max x c']
  end.

(** [most_common(1)[0][1]].  The count 0 stands for the [IndexError] that
    Python raises on an empty counter; [_calculate_reproducibility] reaches
    this expression with a non-empty list of statuses only. *)
Definition most_common_count (c : list (status_t * nat)) : nat :=
  match most_common_1 c with
  | (_, n) :: _ => n
  | [] => 0%nat
  end.

(** [OrchestratorAgent._calculate_reproducibility]. *)
Definition calculate_reproducibility (rs : list RunResult) : Q :=
  match rs with
  | [] => 0%Q
  | _ :: _ =>
      let statuses := map status rs in
      match statuses with
      | [] => 0%Q
      | _ :: _ =>
          let counts := Counter statuses in
          py_round2
            (py_mul (py_truediv (Z.of_nat (most_common_count counts))
                                (Z.of_nat (List.length statuses))) 100)
      end
  end.

(** The dictionary assembled at the end of [_execute_with_validation]
    (without the time stamp). *)
Definition validated_result (test : TestCase) (rs : list RunResult)
    (cross : CrossValidation) : ValidatedResult :=
  {| vr_test_id := tc_id test; vr_test_name := tc_name test;
     runs := rs; cross_validation := Some cross;
     verdict := Some (determine_verdict rs cross);
     reproducibility := Some (calculate_reproducibility rs) |}.

(** [OrchestratorAgent._execute_with_validation]: the repeat loop, the
    cross-validation and the assembly of the result.  An exception that
    leaves the repeat loop or the cross-validation leaves the function. *)
Definition execute_with_validation (test : TestCase)
    (attempts : list (outcome RunResult * outcome unit))
    (cross_attempt : outcome RunResult) (cross_stop : outcome unit)
  : outcome ValidatedResult :=
  match repeat_runs 0 attempts with
  | Raises e => Raises e
  | Returns rs =>
      match cross_agent_validate cross_attempt cross_stop rs with
      | Raises e => Raises e
      | Returns cross => Returns (validated_result test rs cross)
      end
  end.

(** [OrchestratorAgent._record_for_learning]: the knowledge base after the
    call.  [add_test_result] is invoked only under the test
    [verdict == "PASS" and reproducibility >= 80]; an exception raised inside
    it is caught and logged, and the invocation is recorded either way. *)
Definition record_for_learning (kb : KnowledgeBase) (url : string)
    (test : TestCase) (results : ValidatedResult) : KnowledgeBase :=
  let v := match verdict results with
           | Some v => result v
           | None => "UNKNOWN"
           end in
  let repro := match reproducibility results with
               | Some x => x
               | None => 0%Q
               end in
  if String.eqb v "PASS" && Qle_bool 80 repro then
    (kb ++ [ {| game_url := url; kb_test_case := test; kb_result := v;
                execution_time := 0; kb_artifacts := None |} ])%list
  else kb.

(** *** The scorer as the specification words it *)

(** The formula [round(100 * m / len(runs), 2)] of the specification, read
    as a Python expression: the product [100 * m] is exact and a single
    division is rounded. *)
Definition spec_score (m n : nat) : Q :=
  py_round2 (py_truediv (100 * Z.of_nat m) (Z.of_nat n)).

(** The formula [round(100 * passed / total)] of the specification for the
    confidence of a mixed run set: rounding to the nearest integer. *)
Definition spec_confidence (passed total : nat) : Z :=
  rne (inject_Z (100 * Z.of_nat passed) / inject_Z (Z.of_nat total)).

(** [m] is the count of a most frequent status of [l]. *)
Definition is_modal_count (l : list status_t) (m : nat) : Prop :=
  (exists s, In s l /\ py_count s l = m) /\
  (forall s, (py_count s l <= m)%nat).

(** Every step of [todo], numbered from [step_idx], executes without
    raising. *)
Fixpoint all_steps_pass (env : Env) (step_idx : nat) (todo : list string)
  : bool :=
  match todo with
  | [] => true
  | step :: rest =>
      match env_step env step_idx step with
      | Returns _ => all_steps_pass env (S step_idx) rest
      | Raises _ => false
      end
  end.

(** *** Values used in the scenarios *)

Definition run_with (s : status_t) : RunResult :=
  {| test_id := None; test_name := None; agent_id := None; steps := [];
     status := s; artifacts := []; error := None; run_index := None |}.

Definition passed_run : RunResult := run_with (Some "passed").
Definition failed_run : RunResult := run_with (Some "failed").
Definition errored_run : RunResult := run_with (Some "error").
Definition blank_run : RunResult := run_with None.

(** A cross-validation record with a given agreement flag. *)
Definition cross_with (agrees : bool) : CrossValidation :=
  {| cv_status := Some "passed"; agrees_with_primary := Some agrees;
     primary_statuses := None; cv_agent_id := Some "cross_validator";
     cv_error := None |}.

Definition some_artifacts : Artifacts :=
  {| screenshot := "final_screenshot.png"; dom := "final_dom.html";
     console_logs := "final_console.json";
     network_logs := "final_network.json" |}.

(** Every step succeeds and the final capture raises. *)
Definition env_capture_fails : Env :=
  {| env_step := fun _ _ => Returns some_artifacts;
     env_final := Raises "disk full" |}.

(** Every step and the final capture succeed. *)
Definition env_all_good : Env :=
  {| env_step := fun _ _ => Returns some_artifacts;
     env_final := Returns some_artifacts |}.

Definition sample_test : TestCase :=
  {| tc_id := 1; tc_name := "Start game";
     tc_steps := ["Click the start button"; "Verify the board is shown"] |}.

(** 87 passed runs followed by 73 failed runs. *)
Definition runs_87_73 : list RunResult :=
  (repeat passed_run 87 ++ repeat failed_run 73)%list.

(** [c[k]] on a [Counter]: the count of [k], zero for a missing key. *)
Fixpoint counter_get (c : list (status_t * nat)) (k : status_t) : nat :=
  match c with
  | [] => 0%nat
  | (k', n) :: c' => if status_eqb k' k then n else counter_get c' k
  end.

(** The classification of a run set before the cross-validation
    adjustment: [determine_result] at the counts of [_determine_verdict]. *)
Definition base_verdict (rs : list RunResult) : string * Z * string :=
  let statuses := valid_statuses rs in
  determine_result (py_count (Some "passed") statuses)
                   (py_count (Some "failed") statuses)
                   (List.length statuses).

Definition base_result (rs : list RunResult) : string :=
  fst (fst (base_verdict rs)).
Definition base_confidence (rs : list RunResult) : Z :=
  snd (fst (base_verdict rs)).
Definition base_reason (rs : list RunResult) : string :=
  snd (base_verdict rs).

(** *** Executable checks *)

(** Equality of two rationals as fractions (numerator and denominator). *)
Definition Q_eqb (a b : Q) : bool :=
  Z.eqb (Qnum a) (Qnum b) && Pos.eqb (Qden a) (Qden b).

(** The score the program computes from a modal count [m] among [n] runs. *)
Definition code_score (m n : nat) : Q :=
  py_round2 (py_mul (py_truediv (Z.of_nat m) (Z.of_nat n)) 100).

(** [code_score] and [spec_score] coincide for all [1 <= m <= n <= N]. *)
Definition scores_agree_upto (N : nat) : bool :=
  forallb (fun n =>
    forallb (fun m => Q_eqb (code_score m n) (spec_score m n)) (seq 1 n))
    (seq 1 N).

(** The program's quotient-then-scale computation, carried out with the
    Standard Library's specification of binary64 arithmetic. *)
Definition b64_percent (m n : Z) : option Q :=
  SF2Q (b64_mul (b64_div (b64_of_Z m) (b64_of_Z n)) (b64_of_Z 100)).

Definition percents_agree_upto (N : nat) : bool :=
  forallb (fun n =>
    forallb (fun m =>
      match b64_percent (Z.of_nat m) (Z.of_nat n) with
      | Some x => Q_eqb x (py_mul (py_truediv (Z.of_nat m) (Z.of_nat n)) 100)
      | None => false
      end) (seq 0 (S n)))
    (seq 1 N).

(** The condition under which [_record_for_learning] writes. *)
Definition confident_pass (results : ValidatedResult) : Prop :=
  exists v x, verdict results = Some v /\ result v = "PASS" /\
              reproducibility results = Some x /\ (80 <= x)%Q.

(** *** Auxiliary notions for the executor *)

(** The step results that the loop of [execute_test] records for the steps
    [todo], numbered from [step_idx]: one per step, up to and including the
    first step that fails. *)
Fixpoint executed_steps (env : Env) (step_idx : nat) (todo : list string)
  : list StepResult :=
  match todo with
  | [] => []
  | step :: rest =>
      let sr := execute_step env step step_idx in
      if String.eqb (sr_status sr) "failed" then [sr]
      else sr :: executed_steps env (S step_idx) rest
  end.

(** The message of the first step of [todo] that raises, if any. *)
Fixpoint first_failure (env : Env) (step_idx : nat) (todo : list string)
  : option string :=
  match todo with
  | [] => None
  | step :: rest =>
      match env_step env step_idx step with
      | Returns _ => first_failure env (S step_idx) rest
      | Raises e => Some e
      end
  end.

(** The second step raises; everything else succeeds. *)
Definition env_second_step_fails : Env :=
  {| env_step := fun i _ => if Nat.eqb i 1 then Raises "element not found"
                            else Returns some_artifacts;
     env_final := Returns some_artifacts |}.

(** *** The validation of one test case, from the browser's behaviour *)

(** The [try] body of one run of [_execute_with_validation] or of
    [_cross_agent_validate]: starting the browser and loading the game
    either raises ([Raises e]) or gives the environment against which
    [execute_test] then runs. *)
Definition run_attempt (agent : string) (test : TestCase)
    (setup : outcome Env) : outcome RunResult :=
  match setup with
  | Returns env => Returns (execute_test env agent test)
  | Raises e => Raises e
  end.

(** The attempts of the repeat loop; run [run_idx] uses the executor
    [exec_<run_idx>].  A session of the browser is given by the outcome of
    its set-up and the outcome of its [browser.stop()]. *)
Fixpoint run_attempts (run_idx : nat) (test : TestCase)
    (sessions : list (outcome Env * outcome unit))
  : list (outcome RunResult * outcome unit) :=
  match sessions with
  | [] => []
  | (setup, stop) :: rest =>
      (run_attempt ("exec_" ++ py_str run_idx) test setup, stop)
      :: run_attempts (S run_idx) test rest
  end.

(** [_execute_with_validation] for a test case, given what the browser does
    in each of the repeat runs and in the cross-validation run. *)
Definition validate_test (test : TestCase)
    (sessions : list (outcome Env * outcome unit))
    (cross_setup : outcome Env) (cross_stop : outcome unit)
  : outcome ValidatedResult :=
  execute_with_validation test (run_attempts 0 test sessions)
    (run_attempt "cross_validator" test cross_setup) cross_stop.

(** The status that an attempt ends with. *)
Definition attempt_status (test : TestCase) (setup : outcome Env) : string :=
  match setup with
  | Raises _ => "error"
  | Returns env =>
      match env_final env with
      | Raises _ => "error"
      | Returns _ =>
          if all_steps_pass env 0 (tc_steps test) then "passed" else "failed"
      end
  end.

(** The status recorded for an attempt of the repeat loop. *)
Definition recorded_status (attempt : outcome RunResult) : status_t :=
  match attempt with
  | Returns r => status r
  | Raises _ => Some "error"
  end.

(** The list [runs] after the repeat loop has gone through the attempts
    [bodies], numbered from [run_idx]. *)
Fixpoint recorded_runs (run_idx : nat) (bodies : list (outcome RunResult))
  : list RunResult :=
  match bodies with
  | [] => []
  | body :: rest =>
      recorded_run run_idx body :: recorded_runs (S run_idx) rest
  end.

(** The list [runs] after the repeat loop of the validation of [test] has
    gone through the sessions. *)
Definition session_runs (test : TestCase)
    (sessions : list (outcome Env * outcome unit)) : list RunResult :=
  recorded_runs 0 (map fst (run_attempts 0 test sessions)).

(** The exception of the first [browser.stop()] that raises, if any. *)
Fixpoint first_stop_failure {A : Type} (attempts : list (A * outcome unit))
  : option string :=
  match attempts with
  | [] => None
  | (_, Returns _) :: rest => first_stop_failure rest
  | (_, Raises e) :: _ => Some e
  end.

(** *** The session loop *)

(** A test case together with what its repeat runs and its cross-validation
    run do. *)
Record TestOracle : Type := {
  to_test : TestCase;
  to_attempts : list (outcome RunResult * outcome unit);
  to_cross : outcome RunResult;
  to_cross_stop : outcome unit
}.

(** The validation of the test of an oracle. *)
Definition validation_of (t : TestOracle) : outcome ValidatedResult :=
  execute_with_validation (to_test t) (to_attempts t) (to_cross t)
                          (to_cross_stop t).

(** The loop [for test in tests] of [execute_tests]: the knowledge base
    after the loop, and the results or the exception that left the loop.
    The writes made for the tests before the one that raises stay. *)
Fixpoint execute_tests_loop (kb : KnowledgeBase) (url : string)
    (tests : list TestOracle)
  : KnowledgeBase * outcome (list ValidatedResult) :=
  match tests with
  | [] => (kb, Returns [])
  | t :: rest =>
      match validation_of t with
      | Raises e => (kb, Raises e)
      | Returns test_results =>
          let kb := record_for_learning kb url (to_test t) test_results in
          match execute_tests_loop kb url rest with
          | (kb, Returns all_results) =>
              (kb, Returns (test_results :: all_results))
          | (kb, Raises e) => (kb, Raises e)
          end
      end
  end.

(** [OrchestratorAgent.execute_tests]; [capture] is the outcome of the
    construction [ArtifactCapture(session_id)], which creates the artifact
    directory of the session. *)
Definition execute_tests (capture : outcome unit) (kb : KnowledgeBase)
    (url : string) (tests : list TestOracle)
  : KnowledgeBase * outcome (list ValidatedResult) :=
  match capture with
  | Raises e => (kb, Raises e)
  | Returns _ => execute_tests_loop kb url tests
  end.

(** The validation of a test returns a result whose verdict is PASS. *)
Definition validation_passes (t : TestOracle) : bool :=
  match validation_of t with
  | Returns vr =>
      match verdict vr with
      | Some v => String.eqb (result v) "PASS"
      | None => false
      end
  | Raises _ => false
  end.

(** Scenarios: a test whose two repeat runs and cross-validation run pass,
    and the same test when the second [browser.stop()] raises. *)
Definition passing_oracle : TestOracle :=
  {| to_test := sample_test;
     to_attempts := [(Returns passed_run, Returns tt);
                     (Returns passed_run, Returns tt)];
     to_cross := Returns passed_run;
     to_cross_stop := Returns tt |}.
Definition stop_raises_oracle : TestOracle :=
  {| to_test := sample_test;
     to_attempts := [(Returns passed_run, Returns tt);
                     (Returns passed_run, Raises "browser has been closed")];
     to_cross := Returns passed_run;
     to_cross_stop := Returns tt |}.

(** Every [browser.stop()] of the validation of a test returns. *)
Definition stops_return (t : TestOracle) : Prop :=
  (forall a, In a (to_attempts t) -> snd a = Returns tt) /\
  to_cross_stop t = Returns tt.

(* ================================================================== *)
(** ** Analyzer agent *)

(** [r.get("verdict", {}).get("result")]. *)
Definition verdict_result_of (r : ValidatedResult) : option string :=
  match verdict r with
  | Some v => Some (result v)
  | None => None
  end.

(** [r.get("verdict", {}).get("result") == kind]. *)
Definition has_result (kind : string) (r : ValidatedResult) : bool :=
  match verdict_result_of r with
  | Some s => String.eqb s kind
  | None => false
  end.

(** [sum(1 for r in results if r.get("verdict", {}).get("result") == kind)]. *)
Definition count_results (kind : string) (results : list ValidatedResult)
  : nat :=
  List.length (filter (has_result kind) results).

(** The dictionary returned by [_generate_summary]. *)
Record Summary : Type := {
  sm_total_tests : nat;
  sm_passed : nat;
  sm_failed : nat;
  sm_flaky : nat;
  sm_inconclusive : Z;
  sm_pass_rate : Q;
  sm_overall_status : string
}.

(** [AnalyzerAgent._generate_summary]. *)
Definition generate_summary (results : list ValidatedResult) : Summary :=
  let total := List.length results in
  if Nat.eqb total 0 then
    {| sm_total_tests := 0; sm_passed := 0; sm_failed := 0; sm_flaky := 0;
       sm_inconclusive := 0; sm_pass_rate := 0%Q;
       sm_overall_status := "NO_TESTS" |}
  else
    let passed := count_results "PASS" results in
    let failed := count_results "FAIL" results in
    let flaky := count_results "FLAKY" results in
    let inconclusive :=
      Z.of_nat total - Z.of_nat passed - Z.of_nat failed - Z.of_nat flaky in
    let pass_rate :=
      if Nat.ltb 0 total
      then py_round2 (py_mul (py_truediv (Z.of_nat passed) (Z.of_nat total))
                             100)
      else 0%Q in
    let overall_status :=
      if Qle_bool 90 pass_rate then "HEALTHY"
      else if Qle_bool 70 pass_rate then "MODERATE"
      else if Qle_bool 50 pass_rate then "CONCERNING"
      else "CRITICAL" in
    {| sm_total_tests := total; sm_passed := passed; sm_failed := failed;
       sm_flaky := flaky; sm_inconclusive := inconclusive;
       sm_pass_rate := pass_rate; sm_overall_status := overall_status |}.

(** [result.get("reproducibility", 0)]. *)
Definition reproducibility_of (r : ValidatedResult) : Q :=
  match reproducibility r with
  | Some x => x
  | None => 0%Q
  end.

(** [AnalyzerAgent._get_recommended_action]. *)
Definition get_recommended_action (r : ValidatedResult) : string :=
  let verdict_result := match verdict_result_of r with
                        | Some s => s
                        | None => ""
                        end in
  let repro := reproducibility_of r in
  if String.eqb verdict_result "FAIL" then
    if Qeq_bool repro 100
    then "Consistent failure - investigate root cause immediately"
    else "Intermittent failure - check for race conditions or async issues"
  else if String.eqb verdict_result "FLAKY" then
    if Qle_bool 50 repro
    then "Mostly passing - tighten test conditions or add waits"
    else "Highly unstable - review test design and environment"
  else "Review test execution logs".

(** A triage note of [_generate_triage_notes].  The keys
    [cross_validation_result] and [errors] are left out: the latter lists
    the elements of a Python [set], whose order is not determined. *)
Record TriageNote : Type := {
  tn_test_id : Z;
  tn_test_name : string;
  tn_severity : string;
  tn_issue : string;
  tn_recommended_action : string
}.

(** The note built for a result whose verdict is FAIL or FLAKY. *)
Definition triage_note (r : ValidatedResult) : TriageNote :=
  {| tn_test_id := vr_test_id r;
     tn_test_name := vr_test_name r;
     tn_severity := if has_result "FAIL" r then "HIGH" else "MEDIUM";
     tn_issue := match verdict r with
                 | Some v => reason v
                 | None => "Unknown issue"
                 end;
     tn_recommended_action := get_recommended_action r |}.

(** The sort key [0 if x["severity"] == "HIGH" else 1]. *)
Definition severity_key (n : TriageNote) : nat :=
  if String.eqb (tn_severity n) "HIGH" then 0%nat else 1%nat.

(** [list.sort(key=...)] is stable: an element is placed after the elements
    whose key is not greater. *)
Fixpoint insert_by_key {A : Type} (key : A -> nat) (x : A) (l : list A)
  : list A :=
  match l with
  | [] => [x]
  | y :: l' => if Nat.ltb (key x) (key y) then x :: y :: l'
               else y :: insert_by_key key x l'
  end.

Definition sort_by_key {A : Type} (key : A -> nat) (l : list A) : list A :=
  fold_left (fun sorted x => insert_by_key key x sorted) l [].

(** [AnalyzerAgent._generate_triage_notes]. *)
Definition generate_triage_notes (results : list ValidatedResult)
  : list TriageNote :=
  let notes :=
    map triage_note
        (filter (fun r => has_result "FAIL" r || has_result "FLAKY" r)
                results) in
  sort_by_key severity_key notes.

(** The sort key of an element is 0. *)
Definition key_is_zero {A : Type} (key : A -> nat) (x : A) : bool :=
  Nat.eqb (key x) 0.

(** [x < y] on floats. *)
Definition Qlt_bool (x y : Q) : bool := negb (Qle_bool y x).

(** [x / n] for a float [x] and an integer [n]. *)
Definition py_fdiv (x : Q) (n : Z) : Q := round_b64 (x / inject_Z n).

(** [min] and [max] of a non-empty sequence, given as its first element and
    the rest: the first least (greatest) element is kept. *)
Definition py_min (x : Q) (l : list Q) : Q :=
  fold_left (fun best y => if Qlt_bool y best then y else best) l x.
Definition py_max (x : Q) (l : list Q) : Q :=
  fold_left (fun best y => if Qlt_bool best y then y else best) l x.

(** The dictionary returned by [_calculate_reproducibility_stats]. *)
Record ReproStats : Type := {
  average_reproducibility : Q;
  min_reproducibility : Q;
  max_reproducibility : Q;
  highly_reproducible : nat;
  flaky_tests : nat
}.

Section Analyzer.

(** Python's built-in [sum] on a list of floats.  Its rounding is not the
    same in all Python versions (compensated summation since 3.12), so it is
    a parameter here. *)
Variable py_sum : list Q -> Q.

(** [AnalyzerAgent._calculate_reproducibility_stats]. *)
Definition calculate_reproducibility_stats (results : list ValidatedResult)
  : ReproStats :=
  match map reproducibility_of results with
  | [] =>
      {| average_reproducibility := 0%Q; min_reproducibility := 0%Q;
         max_reproducibility := 0%Q; highly_reproducible := 0;
         flaky_tests := 0 |}
  | x :: rest =>
      let reproducibilities := x :: rest in
      let avg := py_fdiv (py_sum reproducibilities)
                         (Z.of_nat (List.length reproducibilities)) in
      {| average_reproducibility := py_round2 avg;
         min_reproducibility := py_min x rest;
         max_reproducibility := py_max x rest;
         highly_reproducible :=
           List.length (filter (fun r => Qle_bool 90 r) reproducibilities);
         flaky_tests :=
           List.length (filter (fun r => Qlt_bool r 70) reproducibilities) |}
  end.

(** [AnalyzerAgent._generate_recommendations]. *)
Definition generate_recommendations (results : list ValidatedResult)
  : list string :=
  let summary := generate_summary results in
  let repro_stats := calculate_reproducibility_stats results in
  let on_pass_rate :=
    if Qlt_bool (sm_pass_rate summary) 50 then
      ["Critical: Pass rate is below 50%. Prioritize fixing core functionality tests."]
    else if Qlt_bool (sm_pass_rate summary) 80 then
      ["Warning: Pass rate is below 80%. Review and fix failing tests."]
    else [] in
  let on_flaky :=
    if Nat.ltb 0 (flaky_tests repro_stats) then
      ["Found " ++ py_str (flaky_tests repro_stats)
       ++ " flaky tests. Consider adding explicit waits or stabilizing test environment."]
    else [] in
  let on_average :=
    if Qlt_bool (average_reproducibility repro_stats) 80 then
      ["Average reproducibility is low. Tests may be affected by timing issues or external factors."]
    else [] in
  let on_inconclusive :=
    if Z.ltb 0 (sm_inconclusive summary) then
      [py_str (Z.to_nat (sm_inconclusive summary))
       ++ " tests were inconclusive. Review test execution logs for errors."]
    else [] in
  let recommendations :=
    (on_pass_rate ++ on_flaky ++ on_average ++ on_inconclusive)%list in
  match recommendations with
  | [] => ["Test suite is healthy! Consider expanding test coverage."]
  | _ :: _ => recommendations
  end.

End Analyzer.

(* ================================================================== *)
(** ** Step interpretation and browser actions of the executor *)

(** [sub in s] on strings. *)
Fixpoint contains (sub s : string) : bool :=
  String.prefix sub s ||
  match s with
  | EmptyString => false
  | String _ s' => contains sub s'
  end.

(** An interactive element, as [find_interactive_elements] returns it: the
    text is a string or [None] (an element without text), the coordinates
    are floats. *)
Record Element : Type := {
  el_text : option string;
  el_x : option Q;
  el_y : option Q
}.

(** The part of the game analysis that the executor reads: the ["url"] key
    ([None] when the key is absent, read as [""]) and the ["elements"] key
    (the empty list when absent). *)
Record GameAnalysis : Type := {
  ga_url : option string;
  ga_elements : list Element
}.

(** The action dictionaries, by their ["type"]: the five that
    [_interpret_step] builds and ["press_key"], which [_perform_action]
    also accepts.  A click carries either a target or a selector. *)
Inductive Action : Type :=
| ActNavigate (url : string)
| ActWait (ms : Z)
| ActClickTarget (x y : option Q)
| ActClickSelector (selector : string)
| ActVerify (description : string)
| ActType (selector text : string)
| ActPressKey (key : string).

(** The calls made on the browser controller. *)
Inductive BrowserCall : Type :=
| BNavigate (url : string)
| BWaitForTimeout (ms : Z)
| BClickAtPosition (x y : Z)
| BClick (selector : string) (timeout : Z)
| BTypeText (selector text : string)
| BPressKey (key : string).

(** [any(kw in text for kw in kws)]. *)
Definition mentions_any (kws : list string) (text : string) : bool :=
  existsb (fun kw => contains kw text) kws.

(** The click on an element of the analysis. *)
Definition click_on (el : Element) : Action :=
  ActClickTarget (el_x el) (el_y el).

(** Truth value of a coordinate in [if x and y]: [None] and zero are
    false. *)
Definition truthy_coordinate (x : option Q) : bool :=
  match x with
  | Some q => negb (Qeq_bool q 0)
  | None => false
  end.

(** The [AttributeError] of [None.lower()]. *)
Definition none_has_no_lower : string :=
  "'NoneType' object has no attribute 'lower'".

(** *** The duration of a wait step

    A character of a [string] stands for the code point of the same number
    (below 256) of the Python string. *)

(** The class [\d] of a [str] pattern, on code points below 256: the ten
    ASCII digits. *)
Definition is_digit (c : ascii) : bool :=
  let n := nat_of_ascii c in
  (Nat.leb 48 n && Nat.leb n 57)%bool.

(** The class [\s] of a [str] pattern, on code points below 256: tab to
    carriage return, the four separators 28 to 31, the space, NEL (133) and
    the no-break space (160). *)
Definition is_space (c : ascii) : bool :=
  let n := nat_of_ascii c in
  ((Nat.leb 9 n && Nat.leb n 13) || (Nat.leb 28 n && Nat.leb n 32)
   || Nat.eqb n 133 || Nat.eqb n 160)%bool.

(** The longest prefix of [s] whose characters satisfy [p], and the rest. *)
Fixpoint span (p : ascii -> bool) (s : string) : string * string :=
  match s with
  | EmptyString => (EmptyString, EmptyString)
  | String c s' =>
      if p c then let (taken, rest) := span p s' in (String c taken, rest)
      else (EmptyString, s)
  end.

(** The alternation [(second|ms|millisecond)] at the start of [s]: the
    alternatives are tried in order. *)
Definition match_unit (s : string) : option string :=
  if String.prefix "second" s then Some "second"
  else if String.prefix "ms" s then Some "ms"
  else if String.prefix "millisecond" s then Some "millisecond"
  else None.

(** A match of [(\d+)\s*(second|ms|millisecond)] that starts at the start
    of [s]: the two groups.  [\d+] and [\s*] are greedy; giving back a digit
    or a space cannot lead to a match, since the next pattern element would
    then face a digit or a space, and no unit starts with either. *)
Definition match_duration_at (s : string) : option (string * string) :=
  let (digits, rest) := span is_digit s in
  match digits with
  | EmptyString => None
  | String _ _ =>
      let (_, rest) := span is_space rest in
      match match_unit rest with
      | Some unit_name => Some (digits, unit_name)
      | None => None
      end
  end.

(** [re.search(r'(\d+)\s*(second|ms|millisecond)', s)]: the groups of the
    leftmost match. *)
Fixpoint find_duration (s : string) : option (string * string) :=
  match match_duration_at s with
  | Some groups => Some groups
  | None =>
      match s with
      | EmptyString => None
      | String _ s' => find_duration s'
      end
  end.

(** The value of a string of ASCII digits. *)
Fixpoint digits_value (acc : Z) (digits : string) : Z :=
  match digits with
  | EmptyString => acc
  | String c rest =>
      digits_value (10 * acc + (Z.of_nat (nat_of_ascii c) - 48)) rest
  end.

(** The default of [sys.get_int_max_str_digits()]. *)
Definition int_max_str_digits : nat := 4300.

(** The [ValueError] of [int] on a string of more than 4300 digits. *)
Definition exceeds_limit (n : nat) : string :=
  "Exceeds the limit (4300 digits) for integer string conversion: value has "
  ++ py_str n
  ++ " digits; use sys.set_int_max_str_digits() to increase the limit".

(** [int(digits)] for a non-empty string of ASCII digits (CPython 3.11
    with the default limit): leading zeros count towards the limit. *)
Definition py_int_of_digits (digits : string) : outcome Z :=
  if Nat.ltb int_max_str_digits (String.length digits)
  then Raises (exceeds_limit (String.length digits))
  else Returns (digits_value 0 digits).

Section Interpreter.

(** Python's [str.lower]. *)
Variable lower : string -> string.

(** The loop [for el in elements: if any(kw in el.get("text", "").lower()
    ...): return ...]: the first element whose lower-cased text mentions one
    of [kws]; an element without text met before that raises. *)
Fixpoint element_mentioning (kws : list string) (elements : list Element)
  : outcome (option Element) :=
  match elements with
  | [] => Returns None
  | el :: rest =>
      match el_text el with
      | None => Raises none_has_no_lower
      | Some text =>
          if mentions_any kws (lower text) then Returns (Some el)
          else element_mentioning kws rest
      end
  end.

(** The tail of the click branch of [_interpret_step], after the searches
    for a named element. *)
Definition generic_click (step_lower : string) (elements : list Element)
  : Action :=
  if contains "button" step_lower then ActClickSelector "button"
  else
    match elements with
    | el :: _ => click_on el
    | [] => ActClickSelector "button, [role='button'], .clickable"
    end.

(** The second search of the click branch, for a restart element. *)
Definition restart_click (step_lower : string) (elements : list Element)
  : outcome Action :=
  if contains "restart" step_lower || contains "new game" step_lower then
    match element_mentioning ["restart"; "new"; "reset"] elements with
    | Raises e => Raises e
    | Returns (Some el) => Returns (click_on el)
    | Returns None => Returns (generic_click step_lower elements)
    end
  else Returns (generic_click step_lower elements).

(** [ExecutorAgent._interpret_step]. *)
Definition interpret_step (step : string) (game_analysis : GameAnalysis)
  : outcome Action :=
  let step_lower := lower step in
  if contains "navigate" step_lower || contains "go to" step_lower
     || contains "open" step_lower
  then Returns (ActNavigate match ga_url game_analysis with
                            | Some u => u
                            | None => ""
                            end)
  else if contains "wait" step_lower then
    match find_duration step_lower with
    | Some (digits, unit_name) =>
        match py_int_of_digits digits with
        | Raises e => Raises e
        | Returns time =>
            Returns (ActWait (if contains "second" unit_name
                              then time * 1000 else time))
        end
    | None => Returns (ActWait 1000)
    end
  else if contains "click" step_lower then
    let elements := ga_elements game_analysis in
    if contains "start" step_lower || contains "play" step_lower then
      match element_mentioning ["start"; "play"; "begin"] elements with
      | Raises e => Raises e
      | Returns (Some el) => Returns (click_on el)
      | Returns None => restart_click step_lower elements
      end
    else restart_click step_lower elements
  else if contains "verify" step_lower || contains "check" step_lower
  then Returns (ActVerify step)
  else if contains "type" step_lower || contains "input" step_lower
          || contains "enter" step_lower
  then Returns (ActType "input" "test")
  else Returns (ActVerify step).

End Interpreter.

Section Performer.

(** What the browser does on a call: it returns, or raises. *)
Variable browser : BrowserCall -> outcome unit.

(** [ExecutorAgent._perform_action]: the browser calls made, in order, and
    whether the action returns or raises.  The selector click and the typing
    are wrapped in [try / except: pass]. *)
Definition perform_action (action : Action)
  : list BrowserCall * outcome unit :=
  match action with
  | ActNavigate url =>
      match browser (BNavigate url) with
      | Raises e => ([BNavigate url], Raises e)
      | Returns _ =>
          ([BNavigate url; BWaitForTimeout 2000],
           browser (BWaitForTimeout 2000))
      end
  | ActClickTarget x y =>
      match x, y with
      | Some a, Some b =>
          if truthy_coordinate x && truthy_coordinate y
          then ([BClickAtPosition (py_int a) (py_int b)],
                browser (BClickAtPosition (py_int a) (py_int b)))
          else ([], Returns tt)
      | _, _ => ([], Returns tt)
      end
  | ActClickSelector selector =>
      match selector with
      | EmptyString => ([], Returns tt)
      | String _ _ => ([BClick selector 5000], Returns tt)
      end
  | ActWait ms => ([BWaitForTimeout ms], browser (BWaitForTimeout ms))
  | ActType selector text => ([BTypeText selector text], Returns tt)
  | ActVerify _ => ([], Returns tt)
  | ActPressKey key => ([BPressKey key], browser (BPressKey key))
  end.

End Performer.

(** Elements used in the scenarios: a canvas without text, then a start
    button. *)
Definition canvas_element : Element :=
  {| el_text := None; el_x := Some (400 # 1); el_y := Some (300 # 1) |}.
Definition start_button : Element :=
  {| el_text := Some "start game"; el_x := Some (401 # 2);
     el_y := Some (50 # 1) |}.

(* ================================================================== *)
(** ** Facts about the float model *)

Section FloatFacts.
Local Open Scope Z_scope.

Lemma rne_le (q : Q) (K : Z) : (q <= inject_Z K)%Q -> rne q <= K.
Proof.
  destruct q as [n d]. unfold Qle, rne; cbn [Qnum Qden inject_Z].
  intros H. rewrite Z.mul_1_r in H.
  pose proof (Z.div_mod n (Zpos d) ltac:(lia)) as E.
  pose proof (Z.mod_pos_bound n (Zpos d) ltac:(lia)) as B.
  set (f := n / Zpos d) in *. set (r := n mod Zpos d) in *.
  assert (f <= K) by nia.
  assert (0 < r -> f + 1 <= K) by nia.
  destruct (Z.compare_spec (2 * r) (Zpos d)); [destruct (Z.even f)|..]; lia.
Qed.

Lemma rne_ge (q : Q) (K : Z) : (inject_Z K <= q)%Q -> K <= rne q.
Proof.
  destruct q as [n d]. unfold Qle, rne; cbn [Qnum Qden inject_Z].
  intros H. rewrite Z.mul_1_r in H.
  pose proof (Z.div_mod n (Zpos d) ltac:(lia)) as E.
  pose proof (Z.mod_pos_bound n (Zpos d) ltac:(lia)) as B.
  set (f := n / Zpos d) in *. set (r := n mod Zpos d) in *.
  assert (K <= f) by nia.
  destruct (Z.compare_spec (2 * r) (Zpos d)); [destruct (Z.even f)|..]; lia.
Qed.

Lemma two_pow_pos (e : Z) : (0 < Qpower 2 e)%Q.
Proof. apply Qpower_0_lt. reflexivity. Qed.

Lemma two_pow_cancel (e : Z) : (Qpower 2 (- e) * Qpower 2 e == 1)%Q.
Proof.
  rewrite <- Qpower_plus by discriminate.
  replace (- e + e) with 0 by lia. reflexivity.
Qed.

Lemma ilog2Q_le (q : Q) :
  ilog2Q q <= Z.log2 (Z.abs (Qnum q)) - Z.log2 (Zpos (Qden q)).
Proof.
  unfold ilog2Q.
  repeat match goal with |- context [if ?c then _ else _] => destruct c end;
    lia.
Qed.

Lemma ulp_exp_nonpos (q : Q) (K : Z) :
  (0 < q)%Q -> (q <= inject_Z K)%Q -> K < 2 ^ 52 -> ulp_exp q <= 0.
Proof.
  intros Hpos Hle HK. pose proof (ilog2Q_le q) as Hl.
  destruct q as [n d]. unfold Qlt, Qle in *. cbn [Qnum Qden inject_Z] in *.
  assert (0 < n) by lia. assert (0 < K) by nia.
  assert (Z.log2 n <= Z.log2 (K * Zpos d)) by (apply Z.log2_le_mono; lia).
  pose proof (Z.log2_mul_above K (Zpos d) ltac:(lia) ltac:(lia)).
  assert (Z.log2 K < 52) by (apply Z.log2_lt_pow2; lia).
  unfold ulp_exp. rewrite Z.abs_eq in Hl by lia. lia.
Qed.

Lemma round_b64_nonneg (q : Q) : (0 <= q)%Q -> (0 <= round_b64 q)%Q.
Proof.
  intros H. unfold round_b64. destruct (Qeq_bool q 0); [apply Qle_refl|].
  rewrite Qred_correct. apply Qmult_le_0_compat.
  - change 0%Q with (inject_Z 0). rewrite <- Zle_Qle. apply rne_ge.
    apply Qmult_le_0_compat; [exact H|]. apply Qlt_le_weak, two_pow_pos.
  - apply Qlt_le_weak, two_pow_pos.
Qed.

Lemma round_b64_le_int (q : Q) (K : Z) :
  (0 <= q)%Q -> (q <= inject_Z K)%Q -> K < 2 ^ 52 ->
  (round_b64 q <= inject_Z K)%Q.
Proof.
  intros H0 HK Hb. unfold round_b64.
  destruct (Qeq_bool q 0) eqn:Ez.
  - apply Qle_trans with q; assumption.
  - apply Qeq_bool_neq in Ez.
    assert (Hpos : (0 < q)%Q).
    { apply Qle_lteq in H0. destruct H0 as [H0|H0]; [exact H0|]. 
      exfalso. apply Ez. symmetry. exact H0. }
    pose proof (ulp_exp_nonpos q K Hpos HK Hb) as He.
    set (e := ulp_exp q) in *.
    rewrite Qred_correct.
    assert (Hp : (Qpower 2 (- e) == inject_Z (2 ^ (- e)))%Q).
    { rewrite Zpower_Qpower by lia. reflexivity. }
    assert (Hr : rne (q * Qpower 2 (- e)) <= K * 2 ^ (- e)).
    { apply rne_le. rewrite inject_Z_mult, <- Hp.
      apply Qmult_le_compat_r; [exact HK|]. apply Qlt_le_weak, two_pow_pos. }
    apply Qle_trans with (inject_Z (K * 2 ^ (- e)) * Qpower 2 e)%Q.
    + apply Qmult_le_compat_r; [|apply Qlt_le_weak, two_pow_pos].
      rewrite <- Zle_Qle. exact Hr.
    + rewrite inject_Z_mult, <- Hp, <- Qmult_assoc, two_pow_cancel, Qmult_1_r.
      apply Qle_refl.
Qed.

Lemma py_truediv_unit (p t : Z) :
  0 <= p <= t -> 0 < t ->
  (0 <= py_truediv p t)%Q /\ (py_truediv p t <= inject_Z 1)%Q.
Proof.
  intros Hp Ht. unfold py_truediv.
  assert (Ht' : (0 < inject_Z t)%Q) by (change 0%Q with (inject_Z 0); rewrite <- Zlt_Qlt; lia).
  assert (H0 : (0 <= inject_Z p / inject_Z t)%Q).
  { apply Qle_shift_div_l; [exact Ht'|]. rewrite Qmult_0_l.
    change 0%Q with (inject_Z 0). rewrite <- Zle_Qle. lia. }
  assert (H1 : (inject_Z p / inject_Z t <= inject_Z 1)%Q).
  { apply Qle_shift_div_r; [exact Ht'|]. rewrite <- inject_Z_mult, <- Zle_Qle. lia. }
  split; [apply round_b64_nonneg; exact H0|].
  apply round_b64_le_int; [exact H0|exact H1|reflexivity].
Qed.

Lemma py_percent_bounds (p t : Z) :
  0 <= p <= t -> 0 < t ->
  0 <= py_int (py_mul (py_truediv p t) 100) <= 100.
Proof.
  intros Hp Ht. destruct (py_truediv_unit p t Hp Ht) as [Hx0 Hx1].
  set (x := py_truediv p t) in *.
  assert (H0 : (0 <= x * 100)%Q) by (apply Qmult_le_0_compat; [exact Hx0|discriminate]).
  assert (H1 : (x * 100 <= inject_Z 100)%Q).
  { change (inject_Z 100) with (inject_Z 1 * 100)%Q.
    apply Qmult_le_compat_r; [exact Hx1|discriminate]. }
  assert (Hy0 : (0 <= py_mul x 100)%Q) by (apply round_b64_nonneg; exact H0).
  assert (Hy1 : (py_mul x 100 <= inject_Z 100)%Q)
    by (apply round_b64_le_int; [exact H0|exact H1|reflexivity]).
  unfold py_int. rewrite (proj2 (Qle_bool_iff 0 _) Hy0).
  split.
  - rewrite <- (Qfloor_Z 0). apply Qfloor_resp_le. exact Hy0.
  - rewrite <- (Qfloor_Z 100). apply Qfloor_resp_le. exact Hy1.
Qed.

End FloatFacts.

(* ================================================================== *)
(** ** Facts about statuses and [Counter] *)

Section CounterFacts.

Lemma status_eqb_eq (a b : status_t) : status_eqb a b = true <-> a = b.
Proof.
  destruct a as [x|], b as [y|]; simpl; try (split; congruence).
  rewrite String.eqb_eq. split; congruence.
Qed.

Lemma status_eqb_refl (a : status_t) : status_eqb a a = true.
Proof. apply status_eqb_eq. reflexivity. Qed.

Lemma status_eqb_neq (a b : status_t) : status_eqb a b = false <-> a <> b.
Proof.
  rewrite <- status_eqb_eq. destruct (status_eqb a b); split; congruence.
Qed.

Lemma counter_get_add (s k : status_t) (c : list (status_t * nat)) :
  counter_get (counter_add s c) k =
  if status_eqb s k then S (counter_get c k) else counter_get c k.
Proof.
  induction c as [|[k' n] c IH]; simpl.
  - destruct (status_eqb s k); reflexivity.
  - destruct (status_eqb k' s) eqn:Eks; simpl.
    + apply status_eqb_eq in Eks. subst k'.
      destruct (status_eqb s k); reflexivity.
    + destruct (status_eqb k' k) eqn:Ekk; [|exact IH].
      apply status_eqb_eq in Ekk. subst k'.
      apply status_eqb_neq in Eks.
      assert (E : status_eqb s k = false) by (apply status_eqb_neq; congruence).
      rewrite E. reflexivity.
Qed.

Lemma counter_keys_add (s k : status_t) (c : list (status_t * nat)) :
  In k (map fst (counter_add s c)) <-> k = s \/ In k (map fst c).
Proof.
  induction c as [|[k' n] c IH]; simpl.
  - intuition congruence.
  - destruct (status_eqb k' s) eqn:Eks; simpl.
    + apply status_eqb_eq in Eks. subst k'. intuition congruence.
    + rewrite IH. intuition congruence.
Qed.

Lemma counter_keys_nodup_add (s : status_t) (c : list (status_t * nat)) :
  NoDup (map fst c) -> NoDup (map fst (counter_add s c)).
Proof.
  induction c as [|[k' n] c IH]; simpl; intros H.
  - constructor; [intros []|constructor].
  - inversion H as [|? ? Hn Hc]; subst.
    destruct (status_eqb k' s) eqn:Eks; simpl.
    + constructor; assumption.
    + constructor; [|apply IH; exact Hc].
      rewrite counter_keys_add. intros [E|E]; [|exact (Hn E)].
      apply status_eqb_neq in Eks. congruence.
Qed.

Lemma py_count_snoc (k s : status_t) (l : list status_t) :
  py_count k (l ++ [s]) =
  if status_eqb s k then S (py_count k l) else py_count k l.
Proof.
  unfold py_count. rewrite count_occ_app. simpl.
  destruct (status_eq_dec s k) as [E|E].
  - subst. rewrite status_eqb_refl. lia.
  - apply status_eqb_neq in E. rewrite E. lia.
Qed.

Lemma Counter_snoc (l : list status_t) (s : status_t) :
  Counter (l ++ [s]) = counter_add s (Counter l).
Proof. unfold Counter. rewrite fold_left_app. reflexivity. Qed.

Lemma Counter_get (l : list status_t) (k : status_t) :
  counter_get (Counter l) k = py_count k l.
Proof.
  induction l as [|s l IH] using rev_ind; [reflexivity|].
  rewrite Counter_snoc, counter_get_add, py_count_snoc, IH. reflexivity.
Qed.

Lemma Counter_keys (l : list status_t) (k : status_t) :
  In k (map fst (Counter l)) <-> In k l.
Proof.
  induction l as [|s l IH] using rev_ind; [reflexivity|].
  rewrite Counter_snoc, counter_keys_add, IH, in_app_iff. simpl.
  intuition congruence.
Qed.

Lemma Counter_keys_nodup (l : list status_t) : NoDup (map fst (Counter l)).
Proof.
  induction l as [|s l IH] using rev_ind; [constructor|].
  rewrite Counter_snoc. apply counter_keys_nodup_add. exact IH.
Qed.

Lemma counter_get_in (c : list (status_t * nat)) (k : status_t) (n : nat) :
  NoDup (map fst c) -> In (k, n) c -> counter_get c k = n.
Proof.
  induction c as [|[k' n'] c IH]; simpl; intros Hnd Hin; [contradiction|].
  inversion Hnd as [|? ? Hn Hc]; subst.
  destruct Hin as [E|Hin].
  - inversion E; subst. rewrite status_eqb_refl. reflexivity.
  - destruct (status_eqb k' k) eqn:Ekk.
    + apply status_eqb_eq in Ekk. subst k'. exfalso. apply Hn.
      change k with (fst (k, n)). apply in_map. exact Hin.
    + apply IH; assumption.
Qed.

Lemma counter_in_get (c : list (status_t * nat)) (k : status_t) :
  In k (map fst c) -> In (k, counter_get c k) c.
Proof.
  induction c as [|[k' n'] c IH]; simpl; intros Hin; [contradiction|].
  destruct (status_eqb k' k) eqn:Ekk.
  - apply status_eqb_eq in Ekk. subst k'. left. reflexivity.
  - right. apply IH. destruct Hin as [E|Hin]; [|exact Hin].
    apply status_eqb_neq in Ekk. congruence.
Qed.

Lemma first_max_in (c : list (status_t * nat)) (best : status_t * nat) :
  In (first_max best c) (best :: c).
Proof.
  revert best. induction c as [|x c IH]; intros best; simpl; [auto|].
  destruct (Nat.ltb (snd best) (snd x)).
  - destruct (IH x) as [E|H]; [right; left; exact E|right; right; exact H].
  - destruct (IH best) as [E|H]; [left; exact E|right; right; exact H].
Qed.

Lemma first_max_ge_best (c : list (status_t * nat)) (best : status_t * nat) :
  (snd best <= snd (first_max best c))%nat.
Proof.
  revert best. induction c as [|y c IH]; intros best; simpl; [lia|].
  destruct (Nat.ltb_spec (snd best) (snd y)) as [Hlt|Hge].
  - specialize (IH y). lia.
  - apply IH.
Qed.

Lemma first_max_ge (c : list (status_t * nat)) (best x : status_t * nat) :
  In x (best :: c) -> (snd x <= snd (first_max best c))%nat.
Proof.
  revert best. induction c as [|y c IH]; intros best Hin; simpl.
  - destruct Hin as [E|[]]. subst. lia.
  - destruct (Nat.ltb_spec (snd best) (snd y)) as [Hlt|Hge].
    + destruct Hin as [E|Hin].
      * subst x. pose proof (first_max_ge_best c y). lia.
      * apply IH. exact Hin.
    + destruct Hin as [E|[E|Hin]].
      * apply IH. left. exact E.
      * subst x. pose proof (first_max_ge_best c best). lia.
      * apply IH. right. exact Hin.
Qed.

(** [most_common(1)] of the counter of a non-empty list is one entry, whose
    count is the count of a most frequent status. *)
Lemma most_common_modal (l : list status_t) :
  l <> [] ->
  exists s m, most_common_1 (Counter l) = [(s, m)] /\ is_modal_count l m.
Proof.
  intros Hne.
  destruct (Counter l) as [|x c] eqn:Ec.
  - exfalso. destruct l as [|s l]; [congruence|].
    assert (H : In s (map fst (Counter (s :: l))))
      by (apply Counter_keys; left; reflexivity).
    rewrite Ec in H. exact H.
  - simpl. destruct (first_max x c) as [s m] eqn:Em.
    exists s, m. split; [reflexivity|].
    pose proof (first_max_in c x) as Hin. rewrite Em, <- Ec in Hin.
    assert (Hget : counter_get (Counter l) s = m)
      by (apply counter_get_in; [apply Counter_keys_nodup|exact Hin]).
    rewrite Counter_get in Hget.
    split.
    + exists s. split; [|exact Hget].
      apply Counter_keys. change s with (fst (s, m)). apply in_map. exact Hin.
    + intros s'. destruct (in_dec status_eq_dec s' l) as [Hs|Hs].
      * apply Counter_keys in Hs. apply counter_in_get in Hs.
        rewrite Counter_get, Ec in Hs.
        pose proof (first_max_ge c x _ Hs) as Hle. rewrite Em in Hle.
        exact Hle.
      * unfold py_count. rewrite (proj1 (count_occ_not_In _ _ _) Hs). lia.
Qed.

Lemma py_count_le_length (s : status_t) (l : list status_t) :
  (py_count s l <= List.length l)%nat.
Proof. apply count_occ_bound. Qed.

Lemma modal_count_bounds (l : list status_t) (m : nat) :
  is_modal_count l m -> (1 <= m <= List.length l)%nat.
Proof.
  intros [[s [Hin Hc]] _]. subst m. split.
  - apply (count_occ_In status_eq_dec) in Hin. unfold py_count. lia.
  - apply py_count_le_length.
Qed.

End CounterFacts.

(* ================================================================== *)
(** ** Facts about [_determine_verdict] *)

Section VerdictFacts.
Local Open Scope Z_scope.

Lemma determine_verdict_empty (rs : list RunResult) (cross : CrossValidation) :
  valid_statuses rs = [] ->
  determine_verdict rs cross =
  {| result := "INCONCLUSIVE"; confidence := 0;
     reason := "No valid runs completed";
     pass_count := None; fail_count := None; total_runs := None |}.
Proof. intros H. unfold determine_verdict. rewrite H. reflexivity. Qed.

Lemma determine_verdict_nonempty (rs : list RunResult)
    (cross : CrossValidation) :
  valid_statuses rs <> [] ->
  determine_verdict rs cross =
  let '(res, conf, rsn) :=
    adjust_for_cross (cross_agrees cross) (base_verdict rs) in
  {| result := res; confidence := conf; reason := rsn;
     pass_count := Some (py_count (Some "passed") (valid_statuses rs));
     fail_count := Some (py_count (Some "failed") (valid_statuses rs));
     total_runs := Some (List.length (valid_statuses rs)) |}.
Proof.
  intros H. unfold determine_verdict, base_verdict.
  destruct (valid_statuses rs); [congruence|reflexivity].
Qed.

Lemma determine_result_confidence_range (passed failed total : nat) :
  (passed <= total)%nat -> (failed <= total)%nat -> (0 < total)%nat ->
  0 <= snd (fst (determine_result passed failed total)) <= 100.
Proof.
  intros Hp Hf Ht. unfold determine_result.
  destruct (Nat.eqb passed total); [simpl; lia|].
  destruct (Nat.eqb failed total); [simpl; lia|].
  destruct (Nat.ltb failed passed); cbn [fst snd];
    apply py_percent_bounds; lia.
Qed.

Lemma adjust_confidence_range (agrees : bool) (base : string * Z * string) :
  0 <= snd (fst base) <= 100 ->
  0 <= snd (fst (adjust_for_cross agrees base)) <= 100.
Proof.
  destruct base as [[res conf] rsn]. cbn [fst snd]. intros H.
  unfold adjust_for_cross. destruct agrees; cbn [fst snd]; [lia|].
  destruct (String.eqb res "PASS"); cbn [fst snd]; lia.
Qed.

Lemma valid_statuses_all_none (rs : list RunResult) :
  (forall r, In r rs -> status r = None) -> valid_statuses rs = [].
Proof.
  unfold valid_statuses. induction rs as [|r rs IH]; intros H; [reflexivity|].
  simpl. rewrite (H r (or_introl eq_refl)). simpl.
  apply IH. intros r' Hr'. apply H. right. exact Hr'.
Qed.

End VerdictFacts.

(* ================================================================== *)
(** ** The claims *)

(** C4.  For every run set and every cross-validation input, the confidence
    of the verdict returned by [determine_verdict] lies between 0 and 100. *)
Theorem confidence_in_range (rs : list RunResult) (cross : CrossValidation) :
  0 <= confidence (determine_verdict rs cross) <= 100.
Proof.
  destruct (valid_statuses rs) as [|s l] eqn:E.
  - rewrite determine_verdict_empty by exact E. simpl. lia.
  - rewrite determine_verdict_nonempty by (rewrite E; discriminate).
    pose proof (adjust_confidence_range (cross_agrees cross) (base_verdict rs))
      as H.
    destruct (adjust_for_cross (cross_agrees cross) (base_verdict rs))
      as [[res conf] rsn].
    cbn [fst snd confidence] in *. apply H.
    unfold base_verdict. apply determine_result_confidence_range.
    + apply py_count_le_length.
    + apply py_count_le_length.
    + rewrite E. simpl. lia.
Qed.

(** C7.  A run set in which no run carries a status (the empty run set
    included) yields exactly the verdict INCONCLUSIVE with confidence 0 and
    reason "No valid runs completed", whatever the cross-validation input. *)
Theorem no_status_inconclusive (rs : list RunResult) (cross : CrossValidation) :
  (forall r, In r rs -> status r = None) ->
  determine_verdict rs cross =
  {| result := "INCONCLUSIVE"; confidence := 0;
     reason := "No valid runs completed";
     pass_count := None; fail_count := None; total_runs := None |}.
Proof.
  intros H. apply determine_verdict_empty, valid_statuses_all_none, H.
Qed.

Lemma no_status_inconclusive_witness :
  (forall r, In r [blank_run; blank_run] -> status r = None) /\
  determine_verdict [blank_run; blank_run] (cross_with true) =
  {| result := "INCONCLUSIVE"; confidence := 0;
     reason := "No valid runs completed";
     pass_count := None; fail_count := None; total_runs := None |} /\
  determine_verdict [] (cross_with false) =
  {| result := "INCONCLUSIVE"; confidence := 0;
     reason := "No valid runs completed";
     pass_count := None; fail_count := None; total_runs := None |}.
Proof.
  assert (H : forall r, In r [blank_run; blank_run] -> status r = None).
  { intros r [E|[E|[]]]; subst r; reflexivity. }
  split; [exact H|]. split.
  - apply (no_status_inconclusive [blank_run; blank_run] (cross_with true) H).
  - apply (no_status_inconclusive [] (cross_with false)). intros r [].
Defined.

Section VerdictCases.
Local Open Scope Z_scope.

Lemma verdict_fields (rs : list RunResult) (cross : CrossValidation) :
  valid_statuses rs <> [] ->
  (result (determine_verdict rs cross),
   confidence (determine_verdict rs cross),
   reason (determine_verdict rs cross)) =
  adjust_for_cross (cross_agrees cross) (base_verdict rs).
Proof.
  intros H. rewrite determine_verdict_nonempty by exact H.
  destruct (adjust_for_cross (cross_agrees cross) (base_verdict rs))
    as [[res conf] rsn]. reflexivity.
Qed.

Lemma base_verdict_eta (rs : list RunResult) :
  base_verdict rs = (base_result rs, base_confidence rs, base_reason rs).
Proof.
  unfold base_result, base_confidence, base_reason.
  destruct (base_verdict rs) as [[a b] c]. reflexivity.
Qed.

Lemma valid_statuses_all_error (rs : list RunResult) :
  (forall r, In r rs -> status r = Some "error") ->
  valid_statuses rs = repeat (Some "error") (List.length rs).
Proof.
  unfold valid_statuses. induction rs as [|r rs IH]; intros H; [reflexivity|].
  simpl. rewrite (H r (or_introl eq_refl)). simpl. f_equal.
  apply IH. intros r' Hr'. apply H. right. exact Hr'.
Qed.

Lemma py_count_repeat_other (x y : status_t) (n : nat) :
  x <> y -> py_count x (repeat y n) = 0%nat.
Proof.
  intros H. unfold py_count. apply count_occ_not_In.
  intros Hin. apply repeat_spec in Hin. congruence.
Qed.

Lemma py_truediv_zero (t : Z) : py_truediv 0 t = 0%Q.
Proof.
  unfold py_truediv, round_b64.
  assert (E : Qeq_bool (inject_Z 0 / inject_Z t) 0 = true).
  { apply Qeq_bool_iff. unfold Qdiv. apply Qmult_0_l. }
  rewrite E. reflexivity.
Qed.

End VerdictCases.

(** C3.  The cross-validation adjustment of [determine_verdict], read off
    the field [agrees_with_primary] of the cross-validation record.  When the
    field is [True] the confidence becomes [min(100, confidence + 10)] and
    result and reason are those of the base classification.  When it is
    [False] or absent the confidence becomes [max(0, confidence - 20)]; a
    base result PASS becomes FLAKY with " (cross-validation disagreement)"
    appended to the reason, and any other base result (FAIL, FLAKY) keeps its
    kind and its reason. *)
Theorem cross_validation_adjustment (rs : list RunResult)
    (cross : CrossValidation) :
  valid_statuses rs <> [] ->
  let v := determine_verdict rs cross in
  (agrees_with_primary cross = Some true ->
     result v = base_result rs /\
     confidence v = Z.min 100 (base_confidence rs + 10) /\
     reason v = base_reason rs) /\
  (agrees_with_primary cross <> Some true ->
     confidence v = Z.max 0 (base_confidence rs - 20) /\
     (base_result rs = "PASS" ->
        result v = "FLAKY" /\
        reason v = base_reason rs ++ " (cross-validation disagreement)") /\
     (base_result rs <> "PASS" ->
        result v = base_result rs /\ reason v = base_reason rs)).
Proof.
  intros Hne v. pose proof (verdict_fields rs cross Hne) as H.
  fold v in H. rewrite base_verdict_eta in H. unfold adjust_for_cross in H.
  split; intros Hc.
  - unfold cross_agrees in H. rewrite Hc in H.
    injection H as Hr Hf Hs. auto.
  - assert (Hd : cross_agrees cross = false).
    { unfold cross_agrees.
      destruct (agrees_with_primary cross) as [[|]|]; congruence. }
    rewrite Hd in H.
    destruct (String.eqb_spec (base_result rs) "PASS") as [E|E];
      injection H as Hr Hf Hs.
    + split; [exact Hf|]. split; [intros _; split; assumption|].
      intros E'. congruence.
    + split; [exact Hf|]. split; [intros E'; congruence|].
      intros _. split; assumption.
Qed.

Lemma cross_validation_adjustment_witness :
  let rs := [passed_run; passed_run; passed_run] in
  let mixed := [passed_run; passed_run; failed_run] in
  let disagreeing := cross_validation_record (Returns failed_run) rs in
  let agreeing := cross_validation_record (Returns passed_run) rs in
  valid_statuses rs <> [] /\ valid_statuses mixed <> [] /\
  (agrees_with_primary disagreeing = Some false /\
   base_result rs = "PASS" /\ base_confidence rs = 100 /\
   result (determine_verdict rs disagreeing) = "FLAKY" /\
   confidence (determine_verdict rs disagreeing) = 80 /\
   reason (determine_verdict rs disagreeing) =
     "All 3 runs passed (cross-validation disagreement)") /\
  (agrees_with_primary agreeing = Some true /\
   result (determine_verdict rs agreeing) = "PASS" /\
   confidence (determine_verdict rs agreeing) = 100 /\
   reason (determine_verdict rs agreeing) = "All 3 runs passed") /\
  (agrees_with_primary (cross_with true) = Some true /\
   base_result mixed = "FLAKY" /\ base_confidence mixed = 66 /\
   result (determine_verdict mixed (cross_with true)) = "FLAKY" /\
   confidence (determine_verdict mixed (cross_with true)) = 76) /\
  (agrees_with_primary (cross_with false) = Some false /\
   result (determine_verdict mixed (cross_with false)) = "FLAKY" /\
   confidence (determine_verdict mixed (cross_with false)) = 46 /\
   reason (determine_verdict mixed (cross_with false)) =
     "Inconsistent: 2/3 passed").
Proof.
  intros rs mixed disagreeing agreeing.
  assert (Hne : valid_statuses rs <> []) by discriminate.
  assert (Hnm : valid_statuses mixed <> []) by discriminate.
  assert (Hf : Some false <> Some true) by discriminate.
  assert (Hbr : base_result rs = "PASS") by reflexivity.
  assert (Hbc : base_confidence rs = 100) by reflexivity.
  assert (Hmr : base_result mixed = "FLAKY") by reflexivity.
  assert (Hmc : base_confidence mixed = 66) by (vm_compute; reflexivity).
  assert (Hmn : base_result mixed <> "PASS") by (rewrite Hmr; discriminate).
  destruct (cross_validation_adjustment rs disagreeing Hne) as [_ Hdis].
  destruct (Hdis Hf) as [Hconf [Hpass _]].
  destruct (Hpass Hbr) as [Hres Hrsn].
  destruct (cross_validation_adjustment rs agreeing Hne) as [Hagr _].
  destruct (Hagr eq_refl) as [Hres' [Hconf' Hrsn']].
  destruct (cross_validation_adjustment mixed (cross_with true) Hnm)
    as [Hagm _].
  destruct (Hagm eq_refl) as [Hresm [Hconfm _]].
  destruct (cross_validation_adjustment mixed (cross_with false) Hnm)
    as [_ Hdim].
  destruct (Hdim Hf) as [Hconfd [_ Hkeep]].
  destruct (Hkeep Hmn) as [Hresd Hrsnd].
  split; [exact Hne|]. split; [exact Hnm|].
  split; [|split; [|split]].
  - split; [reflexivity|]. split; [exact Hbr|]. split; [exact Hbc|].
    split; [exact Hres|]. split.
    + rewrite Hconf, Hbc. reflexivity.
    + rewrite Hrsn. reflexivity.
  - split; [reflexivity|]. split; [rewrite Hres'; exact Hbr|]. split.
    + rewrite Hconf', Hbc. reflexivity.
    + rewrite Hrsn'. reflexivity.
  - split; [reflexivity|]. split; [exact Hmr|]. split; [exact Hmc|].
    split; [rewrite Hresm; exact Hmr|].
    rewrite Hconfm, Hmc. reflexivity.
  - split; [reflexivity|]. split; [rewrite Hresd; exact Hmr|]. split.
    + rewrite Hconfd, Hmc. reflexivity.
    + rewrite Hrsnd. reflexivity.
Defined.

(** C1, as the program has it.  For every run set with more passed than
    failed statuses in which not every status is "passed", the verdict is
    FLAKY with reason "Inconsistent: passed/total passed"; the base
    confidence is [int((passed / total) * 100)], the float product truncated
    towards zero, and the verdict's confidence is that value after the
    cross-validation adjustment. *)
Theorem flaky_confidence_truncated (rs : list RunResult)
    (cross : CrossValidation) :
  let statuses := valid_statuses rs in
  let passed := py_count (Some "passed") statuses in
  let failed := py_count (Some "failed") statuses in
  let total := List.length statuses in
  (failed < passed)%nat -> passed <> total ->
  let v := determine_verdict rs cross in
  base_confidence rs =
    py_int (py_mul (py_truediv (Z.of_nat passed) (Z.of_nat total)) 100) /\
  result v = "FLAKY" /\
  confidence v =
    (if cross_agrees cross then Z.min 100 (base_confidence rs + 10)
     else Z.max 0 (base_confidence rs - 20)) /\
  reason v =
    "Inconsistent: " ++ py_str passed ++ "/" ++ py_str total ++ " passed".
Proof.
  intros statuses passed failed total Hlt Hnp v.
  assert (Hne : valid_statuses rs <> []).
  { fold statuses. intros E. subst passed failed. rewrite E in Hlt.
    simpl in Hlt. lia. }
  assert (Hft : failed <> total).
  { pose proof (py_count_le_length (Some "passed") statuses).
    fold passed total in H. lia. }
  assert (Hb : base_verdict rs =
    ("FLAKY",
     py_int (py_mul (py_truediv (Z.of_nat passed) (Z.of_nat total)) 100),
     "Inconsistent: " ++ py_str passed ++ "/" ++ py_str total ++ " passed")).
  { unfold base_verdict, determine_result.
    fold statuses. fold passed failed total.
    rewrite (proj2 (Nat.eqb_neq passed total) Hnp).
    rewrite (proj2 (Nat.eqb_neq failed total) Hft).
    rewrite (proj2 (Nat.ltb_lt failed passed) Hlt). reflexivity. }
  pose proof (verdict_fields rs cross Hne) as H. fold v in H.
  unfold base_confidence. rewrite Hb in *. cbn [fst snd].
  unfold adjust_for_cross in H.
  destruct (cross_agrees cross); simpl in H; inversion H; auto.
Qed.

Lemma flaky_confidence_truncated_witness :
  let rs := [passed_run; passed_run; failed_run] in
  let cross := cross_validation_record (Returns passed_run) rs in
  (py_count (Some "failed") (valid_statuses rs)
     < py_count (Some "passed") (valid_statuses rs))%nat /\
  py_count (Some "passed") (valid_statuses rs)
    <> List.length (valid_statuses rs) /\
  cross_agrees cross = false /\
  base_confidence rs = 66 /\
  result (determine_verdict rs cross) = "FLAKY" /\
  confidence (determine_verdict rs cross) = 46 /\
  reason (determine_verdict rs cross) = "Inconsistent: 2/3 passed".
Proof.
  intros rs cross.
  assert (H1 : (py_count (Some "failed") (valid_statuses rs)
                < py_count (Some "passed") (valid_statuses rs))%nat)
    by (vm_compute; lia).
  assert (H2 : py_count (Some "passed") (valid_statuses rs)
               <> List.length (valid_statuses rs))
    by (vm_compute; discriminate).
  destruct (flaky_confidence_truncated rs cross H1 H2) as [Hb [Hr [Hc Hs]]].
  assert (Hb66 : base_confidence rs = 66) by (vm_compute; reflexivity).
  repeat split; try assumption; try reflexivity.
Defined.

(** C1 fails as stated: for the runs passed, passed, failed the base
    confidence is 66, not [round(100 * 2 / 3) = 67], and after a disagreeing
    cross-validation the confidence is 46, not 47. *)
Lemma flaky_confidence_not_rounded :
  let rs := [passed_run; passed_run; failed_run] in
  let cross := cross_validation_record (Returns passed_run) rs in
  cross_agrees cross = false /\
  spec_confidence 2 3 = 67 /\
  base_confidence rs <> spec_confidence 2 3 /\
  confidence (determine_verdict rs cross) <> 47.
Proof. vm_compute. repeat split; discriminate. Qed.

(** C2, evaluated on the program.  A non-empty run set whose every status
    is "error" is classified FAIL with reason "Majority failed: 0/total",
    never INCONCLUSIVE. *)
Theorem all_error_runs_yield_fail (rs : list RunResult)
    (cross : CrossValidation) :
  rs <> [] -> (forall r, In r rs -> status r = Some "error") ->
  result (determine_verdict rs cross) = "FAIL" /\
  result (determine_verdict rs cross) <> "INCONCLUSIVE" /\
  reason (determine_verdict rs cross) =
    "Majority failed: 0/" ++ py_str (List.length rs) /\
  pass_count (determine_verdict rs cross) = Some 0%nat /\
  fail_count (determine_verdict rs cross) = Some 0%nat /\
  total_runs (determine_verdict rs cross) = Some (List.length rs).
Proof.
  intros Hne Herr.
  pose proof (valid_statuses_all_error rs Herr) as Hv.
  destruct rs as [|r0 rs0]; [congruence|].
  set (rs := r0 :: rs0) in *.
  assert (Hne' : valid_statuses rs <> []) by (rewrite Hv; discriminate).
  assert (Hb : base_verdict rs =
    ("FAIL", 0, "Majority failed: 0/" ++ py_str (List.length rs))).
  { unfold base_verdict. rewrite Hv, repeat_length.
    rewrite !py_count_repeat_other by discriminate.
    unfold determine_result. simpl Nat.eqb. simpl Nat.ltb. cbv iota.
    rewrite py_truediv_zero. reflexivity. }
  pose proof (verdict_fields rs cross Hne') as H.
  rewrite Hb in H. unfold adjust_for_cross in H.
  rewrite determine_verdict_nonempty in * by exact Hne'.
  rewrite Hb in *. unfold adjust_for_cross in *.
  rewrite Hv, repeat_length, !py_count_repeat_other by discriminate.
  destruct (cross_agrees cross); simpl; repeat split; try reflexivity;
    discriminate.
Qed.

Lemma all_error_runs_yield_fail_witness :
  let attempts := [(Raises "browser failed to start", Returns tt);
                   (Raises "browser failed to start", Returns tt);
                   (Raises "browser failed to start", Returns tt)] in
  let rs := [error_run 0 "browser failed to start";
             error_run 1 "browser failed to start";
             error_run 2 "browser failed to start"] in
  let cross := cross_validation_record (Raises "browser failed to start") rs in
  repeat_runs 0 attempts = Returns rs /\
  cross_agent_validate (Raises "browser failed to start") (Returns tt) rs
  = Returns cross /\
  rs <> [] /\ (forall r, In r rs -> status r = Some "error") /\
  result (determine_verdict rs cross) = "FAIL" /\
  confidence (determine_verdict rs cross) = 0 /\
  reason (determine_verdict rs cross) = "Majority failed: 0/3".
Proof.
  intros attempts rs cross.
  assert (H1 : rs <> []) by discriminate.
  assert (H2 : forall r, In r rs -> status r = Some "error").
  { intros r [E|[E|[E|[]]]]; subst r; reflexivity. }
  destruct (all_error_runs_yield_fail rs cross H1 H2) as [Hr [_ [Hs _]]].
  repeat split; try assumption; try reflexivity.
Defined.

Section ScoreFacts.

Lemma Q_eqb_eq (a b : Q) : Q_eqb a b = true -> a = b.
Proof.
  destruct a as [n d], b as [n' d']. unfold Q_eqb. simpl.
  intros H. apply andb_prop in H. destruct H as [Hn Hd].
  apply Z.eqb_eq in Hn. apply Pos.eqb_eq in Hd. congruence.
Qed.

Lemma scores_agree_upto_sound (N m n : nat) :
  scores_agree_upto N = true ->
  (1 <= m <= n)%nat -> (n <= N)%nat -> code_score m n = spec_score m n.
Proof.
  unfold scores_agree_upto. intros H Hm Hn. apply Q_eqb_eq.
  rewrite forallb_forall in H.
  specialize (H n ltac:(apply in_seq; lia)). cbv beta in H.
  rewrite forallb_forall in H. apply H. apply in_seq. lia.
Qed.

Lemma scores_agree_159 : scores_agree_upto 159 = true.
Proof. vm_cast_no_check (eq_refl true). Qed.

Lemma scores_agree_below_160 (m n : nat) :
  (1 <= m <= n)%nat -> (n < 160)%nat -> code_score m n = spec_score m n.
Proof.
  intros Hm Hn.
  apply (scores_agree_upto_sound 159 m n scores_agree_159 Hm). lia.
Qed.

(** The binary64 model agrees with the Standard Library's specification of
    IEEE-754 arithmetic on every percentage of at most 160 runs. *)
Lemma percents_agree_160 : percents_agree_upto 160 = true.
Proof. vm_cast_no_check (eq_refl true). Qed.

Lemma calculate_reproducibility_modal (rs : list RunResult) :
  rs <> [] ->
  exists m, is_modal_count (map status rs) m /\
            calculate_reproducibility rs = code_score m (List.length rs).
Proof.
  intros Hne.
  assert (Hs : map status rs <> []) by (destruct rs; [congruence|discriminate]).
  destruct (most_common_modal (map status rs) Hs) as [s [m [Hmc Hmod]]].
  exists m. split; [exact Hmod|].
  unfold calculate_reproducibility. destruct rs as [|r rs']; [congruence|].
  cbv zeta. destruct (map status (r :: rs')) as [|s0 l0] eqn:El; [congruence|].
  unfold most_common_count. rewrite Hmc. unfold code_score.
  rewrite <- El, length_map. reflexivity.
Qed.

End ScoreFacts.

(** C5, as the program has it.  The scorer returns
    [round((m / len(runs)) * 100, 2)], where [m] is the count of the most
    frequent status: the quotient is rounded to a float before it is scaled.
    For fewer than 160 runs this is [round(100 * m / len(runs), 2)].  The
    score is 0.0 for the empty run set, 66.67 for passed, passed, failed and
    100.0 for five failed runs. *)
Theorem reproducibility_formula :
  (forall rs : list RunResult, rs <> [] ->
     exists m, is_modal_count (map status rs) m /\
       calculate_reproducibility rs =
         py_round2 (py_mul (py_truediv (Z.of_nat m)
                                       (Z.of_nat (List.length rs))) 100) /\
       ((List.length rs < 160)%nat ->
          calculate_reproducibility rs = spec_score m (List.length rs))) /\
  calculate_reproducibility [] = 0%Q /\
  calculate_reproducibility [passed_run; passed_run; failed_run]
    = literal 6667 100 /\
  calculate_reproducibility (repeat failed_run 5) = inject_Z 100.
Proof.
  split; [|split; [|split]; vm_compute; reflexivity].
  intros rs Hne.
  destruct (calculate_reproducibility_modal rs Hne) as [m [Hmod Hc]].
  exists m. split; [exact Hmod|]. split; [exact Hc|].
  intros Hlen. rewrite Hc. apply scores_agree_below_160; [|exact Hlen].
  pose proof (modal_count_bounds _ _ Hmod) as Hb.
  rewrite length_map in Hb. exact Hb.
Qed.

Lemma reproducibility_formula_witness :
  let rs := [passed_run; passed_run; failed_run] in
  rs <> [] /\ (List.length rs < 160)%nat /\
  (exists m, is_modal_count (map status rs) m /\
             calculate_reproducibility rs = spec_score m 3) /\
  calculate_reproducibility rs = spec_score 2 3 /\
  calculate_reproducibility rs = literal 6667 100.
Proof.
  intros rs.
  assert (Hne : rs <> []) by discriminate.
  assert (Hlen : (List.length rs < 160)%nat) by (simpl; lia).
  destruct (proj1 reproducibility_formula rs Hne) as [m [Hmod [Hc Hs]]].
  split; [exact Hne|]. split; [exact Hlen|].
  split; [exists m; split; [exact Hmod|exact (Hs Hlen)]|].
  split; vm_compute; reflexivity.
Defined.

(** C5 fails as stated: for 87 passed and 73 failed runs the modal count is
    87 and the program returns 54.37, whereas [round(100 * 87 / 160, 2)] is
    54.38 (the exact percentage is 54.375). *)
Lemma reproducibility_not_spec_formula :
  is_modal_count (map status runs_87_73) 87 /\
  List.length runs_87_73 = 160%nat /\
  calculate_reproducibility runs_87_73 = literal 5437 100 /\
  spec_score 87 160 = literal 5438 100 /\
  hundredths (inject_Z (100 * 87) / inject_Z 160) = 5438 /\
  calculate_reproducibility runs_87_73 <> spec_score 87 160.
Proof.
  split.
  { assert (Hne : map status runs_87_73 <> []) by discriminate.
    destruct (most_common_modal _ Hne) as [s [m [Hmc Hmod]]].
    assert (E : most_common_1 (Counter (map status runs_87_73))
                = [(Some "passed", 87%nat)]) by (vm_compute; reflexivity).
    rewrite E in Hmc. injection Hmc as Es Em. subst m. exact Hmod. }
  split; [reflexivity|].
  split; [vm_compute; reflexivity|].
  split; [vm_compute; reflexivity|].
  split; [vm_compute; reflexivity|].
  vm_compute. discriminate.
Qed.



Section ExecutorFacts.

Lemma execute_step_status (env : Env) (step : string) (i : nat) :
  sr_status (execute_step env step i) =
  match env_step env i step with
  | Returns _ => "passed"
  | Raises _ => "failed"
  end.
Proof. unfold execute_step. destruct (env_step env i step); reflexivity. Qed.

Lemma execute_steps_status (env : Env) (todo : list string) :
  forall (i : nat) (r : RunResult),
    status r = Some "running" ->
    status (execute_steps env i todo r) =
    Some (if all_steps_pass env i todo then "running" else "failed").
Proof.
  induction todo as [|step rest IH]; intros i r Hr; simpl; [exact Hr|].
  rewrite execute_step_status.
  destruct (env_step env i step) as [a|e]; simpl.
  - apply IH. simpl. exact Hr.
  - reflexivity.
Qed.

End ExecutorFacts.

(** C8, as the program has it.  The final artifact capture runs inside the
    [try] block of [execute_test]: when it raises, the attempt's status is
    "error" and its error is the message of the exception, whatever the
    steps did.  When it returns, the status is "passed" if every step
    executed without failure and "failed" otherwise. *)
Theorem attempt_status_after_capture (env : Env) (agent : string)
    (test_case : TestCase) :
  status (execute_test env agent test_case) =
    Some match env_final env with
         | Raises _ => "error"
         | Returns _ =>
             if all_steps_pass env 0 (tc_steps test_case)
             then "passed" else "failed"
         end /\
  (forall e, env_final env = Raises e ->
     error (execute_test env agent test_case) = Some e).
Proof.
  unfold execute_test.
  set (r0 := {| test_id := Some (tc_id test_case);
                test_name := Some (tc_name test_case);
                agent_id := Some agent; steps := [];
                status := Some "running"; artifacts := [];
                error := None; run_index := None |}).
  pose proof (execute_steps_status env (tc_steps test_case) 0 r0 eq_refl) as H.
  set (r1 := execute_steps env 0 (tc_steps test_case) r0) in *.
  split.
  - destruct (env_final env) as [a|e]; [|reflexivity].
    assert (Ha : forall r, status (append_artifacts r a) = status r)
      by reflexivity.
    rewrite Ha, H.
    destruct (all_steps_pass env 0 (tc_steps test_case)); simpl;
      [reflexivity|exact H].
  - intros e He. rewrite He. reflexivity.
Qed.

Lemma attempt_status_after_capture_witness :
  env_final env_capture_fails = Raises "disk full" /\
  status (execute_test env_capture_fails "exec_0" sample_test)
    = Some "error" /\
  error (execute_test env_capture_fails "exec_0" sample_test)
    = Some "disk full".
Proof.
  destruct (attempt_status_after_capture env_capture_fails "exec_0"
              sample_test) as [Hs He].
  split; [reflexivity|]. split; [exact Hs|]. apply He. reflexivity.
Defined.

(** C8 fails as stated: with every step executing without failure and the
    final capture raising, the attempt's status is "error", not "passed". *)
Lemma capture_failure_changes_status :
  all_steps_pass env_capture_fails 0 (tc_steps sample_test) = true /\
  env_final env_capture_fails = Raises "disk full" /\
  status (execute_test env_capture_fails "exec_0" sample_test) = Some "error" /\
  error (execute_test env_capture_fails "exec_0" sample_test)
    = Some "disk full" /\
  status (execute_test env_capture_fails "exec_0" sample_test)
    <> Some "passed" /\
  status (execute_test env_all_good "exec_0" sample_test) = Some "passed".
Proof. repeat split; try reflexivity. discriminate. Qed.

Section LearningFacts.

Lemma confident_pass_iff (results : ValidatedResult) :
  confident_pass results <->
  (String.eqb match verdict results with
              | Some v => result v
              | None => "UNKNOWN"
              end "PASS"
   && Qle_bool 80 match reproducibility results with
                  | Some x => x
                  | None => 0%Q
                  end)%bool = true.
Proof.
  unfold confident_pass. rewrite andb_true_iff, String.eqb_eq, Qle_bool_iff.
  split.
  - intros [v [x [Hv [Hr [Hx Hle]]]]]. rewrite Hv, Hx. auto.
  - intros [Hr Hle].
    destruct (verdict results) as [v|]; [|discriminate].
    destruct (reproducibility results) as [x|].
    + exists v, x. auto.
    + exfalso. revert Hle. unfold Qle. simpl. lia.
Qed.

Lemma snoc_neq {A : Type} (l : list A) (x : A) : (l ++ [x])%list <> l.
Proof.
  intros H. apply (f_equal (@List.length A)) in H.
  rewrite length_app in H. simpl in H. lia.
Qed.

End LearningFacts.

(** C9.  [_record_for_learning] invokes the knowledge base's
    [add_test_result] exactly when the verdict's result is "PASS" and the
    reproducibility is at least 80; in every other case the knowledge base
    receives no write. *)
Theorem learning_gate (kb : KnowledgeBase) (url : string) (test : TestCase)
    (results : ValidatedResult) :
  (confident_pass results <->
   record_for_learning kb url test results =
     (kb ++ [ {| game_url := url; kb_test_case := test; kb_result := "PASS";
                 execution_time := 0; kb_artifacts := None |} ])%list) /\
  (~ confident_pass results <->
   record_for_learning kb url test results = kb).
Proof.
  pose proof (confident_pass_iff results) as Hc.
  unfold record_for_learning.
  destruct (String.eqb _ "PASS" && Qle_bool 80 _)%bool eqn:E.
  - assert (Hp : confident_pass results) by (apply Hc; reflexivity).
    destruct Hp as [v [x [Hv [Hr [Hx Hle]]]]].
    assert (Hp : confident_pass results) by (apply Hc; reflexivity).
    rewrite Hv, Hr. split; split; intros H; try reflexivity; try exact Hp.
    + contradiction.
    + exfalso. exact (snoc_neq _ _ H).
  - assert (Hn : ~ confident_pass results).
    { intros Hp. apply Hc in Hp. congruence. }
    split; split; intros H; try reflexivity; try exact Hn.
    + contradiction.
    + exfalso. symmetry in H. exact (snoc_neq _ _ H).
Qed.

Lemma learning_gate_witness :
  let passing := (Returns passed_run, Returns tt) in
  let failing := (Returns failed_run, Returns tt) in
  let good_runs := [recorded_run 0 (Returns passed_run);
                    recorded_run 1 (Returns passed_run);
                    recorded_run 2 (Returns passed_run)] in
  let flaky_runs := [recorded_run 0 (Returns passed_run);
                     recorded_run 1 (Returns passed_run);
                     recorded_run 2 (Returns failed_run)] in
  let good := validated_result sample_test good_runs
                (cross_validation_record (Returns passed_run) good_runs) in
  let flaky := validated_result sample_test flaky_runs
                 (cross_validation_record (Returns passed_run) flaky_runs) in
  execute_with_validation sample_test [passing; passing; passing]
    (Returns passed_run) (Returns tt) = Returns good /\
  execute_with_validation sample_test [passing; passing; failing]
    (Returns passed_run) (Returns tt) = Returns flaky /\
  confident_pass good /\
  List.length (record_for_learning [] "http://game" sample_test good) = 1%nat /\
  ~ confident_pass flaky /\
  record_for_learning [] "http://game" sample_test flaky = [].
Proof.
  intros passing failing good_runs flaky_runs good flaky.
  assert (Hg : confident_pass good).
  { apply confident_pass_iff. vm_compute. reflexivity. }
  assert (Hf : ~ confident_pass flaky).
  { intros H. apply confident_pass_iff in H. vm_compute in H. discriminate. }
  split; [reflexivity|]. split; [reflexivity|].
  split; [exact Hg|]. split.
  - rewrite (proj1 (proj1 (learning_gate [] "http://game" sample_test good)) Hg).
    reflexivity.
  - split; [exact Hf|].
    exact (proj1 (proj2 (learning_gate [] "http://game" sample_test flaky)) Hf).
Defined.

Section DiagonalFacts.
Local Open Scope Z_scope.

Lemma rne_scaled_diag (p : positive) :
  rne ((Zpos p # p) * Qpower 2 52) = 2 ^ 52.
Proof.
  change (Qpower 2 52) with (4503599627370496 # 1)%Q.
  unfold rne, Qmult. cbn [Qnum Qden].
  rewrite Pos.mul_1_r, (Z.mul_comm (Zpos p)).
  rewrite Z_div_mult_full by discriminate.
  rewrite Z_mod_mult. reflexivity.
Qed.

Lemma ulp_exp_diag (p : positive) : ulp_exp (Zpos p # p) = -52.
Proof.
  unfold ulp_exp, ilog2Q. cbn [Qnum Qden]. rewrite Z.abs_eq by lia.
  rewrite Z.sub_diag, Z.pow_0_r, Z.mul_1_l, !Z.leb_refl. reflexivity.
Qed.

(** [n / n] is exactly [1.0]. *)
Lemma py_truediv_diag (n : Z) : 0 < n -> py_truediv n n = 1%Q.
Proof.
  destruct n as [|p|p]; try lia. intros _.
  unfold py_truediv.
  assert (E : (inject_Z (Zpos p) / inject_Z (Zpos p))%Q = (Zpos p # p)).
  { unfold Qdiv, Qinv, Qmult, inject_Z. cbn [Qnum Qden].
    rewrite Z.mul_1_r. reflexivity. }
  rewrite E. unfold round_b64.
  assert (Ez : Qeq_bool (Zpos p # p) 0 = false) by reflexivity.
  rewrite Ez, ulp_exp_diag. change (- -52) with 52.
  rewrite rne_scaled_diag. vm_compute. reflexivity.
Qed.

Lemma code_score_diag (n : nat) : (0 < n)%nat -> code_score n n = inject_Z 100.
Proof.
  intros H. unfold code_score. rewrite py_truediv_diag by lia.
  vm_compute. reflexivity.
Qed.

Lemma py_count_all_same (x : status_t) (l : list status_t) :
  (forall s, In s l -> s = x) -> py_count x l = List.length l.
Proof.
  intros H. unfold py_count. induction l as [|s l IH]; [reflexivity|].
  rewrite (H s (or_introl eq_refl)). rewrite count_occ_cons_eq by reflexivity.
  simpl. f_equal. apply IH. intros s' Hs'. apply H. right. exact Hs'.
Qed.

(** A non-empty run set without any status is INCONCLUSIVE for the verdict
    and fully reproducible for the scorer. *)
Lemma blank_runs_inconclusive_and_reproducible (rs : list RunResult)
    (cross : CrossValidation) :
  rs <> [] -> (forall r, In r rs -> status r = None) ->
  result (determine_verdict rs cross) = "INCONCLUSIVE" /\
  calculate_reproducibility rs = inject_Z 100.
Proof.
  intros Hne Hnone. split.
  - rewrite determine_verdict_empty
      by (apply valid_statuses_all_none; exact Hnone).
    reflexivity.
  - destruct (calculate_reproducibility_modal rs Hne) as [m [Hmod Hc]].
    assert (Hall : forall s, In s (map status rs) -> s = None).
    { intros s Hs. apply in_map_iff in Hs. destruct Hs as [r [E Hr]].
      subst s. apply Hnone. exact Hr. }
    destruct Hmod as [[s [Hin Hm]] _].
    rewrite (Hall s Hin) in Hm.
    rewrite py_count_all_same in Hm by exact Hall.
    rewrite length_map in Hm. subst m. rewrite Hc.
    apply code_score_diag. destruct rs; [congruence|simpl; lia].
Qed.

End DiagonalFacts.

(** C10.  There is a non-empty run set, one in which no run carries a
    status, for which the verdict engine returns INCONCLUSIVE (statuses that
    are [None] are filtered out) while the reproducibility scorer returns
    100.0 (it counts the missing statuses both in the modal count and in the
    denominator). *)
Theorem inconclusive_yet_fully_reproducible :
  exists rs : list RunResult,
    rs <> [] /\
    (forall r, In r rs -> status r = None) /\
    (forall cross, result (determine_verdict rs cross) = "INCONCLUSIVE") /\
    calculate_reproducibility rs = inject_Z 100.
Proof.
  exists [blank_run; blank_run; blank_run].
  assert (Hne : [blank_run; blank_run; blank_run] <> []) by discriminate.
  assert (Hnone : forall r, In r [blank_run; blank_run; blank_run] ->
                            status r = None).
  { intros r [E|[E|[E|[]]]]; subst r; reflexivity. }
  split; [exact Hne|]. split; [exact Hnone|]. split.
  - intros cross.
    exact (proj1 (blank_runs_inconclusive_and_reproducible _ cross Hne Hnone)).
  - exact (proj2 (blank_runs_inconclusive_and_reproducible
                    _ (cross_with true) Hne Hnone)).
Qed.

(* ================================================================== *)
(** ** Further facts about the verdict engine *)

Section VerdictShape.
Local Open Scope Z_scope.

Lemma py_count_disjoint (x y : status_t) (l : list status_t) :
  x <> y -> (py_count x l + py_count y l <= List.length l)%nat.
Proof.
  intros Hxy. unfold py_count. induction l as [|s l IH]; simpl; [lia|].
  destruct (status_eq_dec s x) as [Ex|Ex], (status_eq_dec s y) as [Ey|Ey];
    try lia. congruence.
Qed.

Lemma py_count_full (x : status_t) (l : list status_t) :
  py_count x l = List.length l <-> (forall s, In s l -> s = x).
Proof.
  split; [|apply py_count_all_same].
  unfold py_count. induction l as [|s l IH]; simpl; [intros _ s []|].
  pose proof (count_occ_bound status_eq_dec x l) as Hb.
  destruct (status_eq_dec s x) as [E|E]; intros H; [|lia].
  intros s' [Hs|Hs]; [congruence|]. apply IH; [lia|exact Hs].
Qed.

Lemma valid_statuses_length (rs : list RunResult) :
  (List.length (valid_statuses rs) <= List.length rs)%nat.
Proof.
  unfold valid_statuses.
  pose proof (filter_length_le truthy (map status rs)) as H.
  rewrite length_map in H. exact H.
Qed.

(** The result of a verdict over at least one valid status, in closed
    form. *)
Lemma verdict_result_cases (rs : list RunResult) (cross : CrossValidation) :
  valid_statuses rs <> [] ->
  result (determine_verdict rs cross) =
  let p := py_count (Some "passed") (valid_statuses rs) in
  let f := py_count (Some "failed") (valid_statuses rs) in
  let t := List.length (valid_statuses rs) in
  if Nat.eqb p t then (if cross_agrees cross then "PASS" else "FLAKY")
  else if Nat.eqb f t then "FAIL"
  else if Nat.ltb f p then "FLAKY" else "FAIL".
Proof.
  intros Hne. pose proof (verdict_fields rs cross Hne) as H.
  unfold base_verdict, determine_result, adjust_for_cross in H. cbv zeta.
  destruct (Nat.eqb _ _).
  - destruct (cross_agrees cross); simpl in H; injection H as Hr _ _;
      exact Hr.
  - destruct (Nat.eqb _ _).
    + destruct (cross_agrees cross); simpl in H; injection H as Hr _ _;
        exact Hr.
    + destruct (Nat.ltb _ _); destruct (cross_agrees cross); simpl in H;
        injection H as Hr _ _; exact Hr.
Qed.

Lemma verdict_result_empty (rs : list RunResult) (cross : CrossValidation) :
  valid_statuses rs = [] ->
  result (determine_verdict rs cross) = "INCONCLUSIVE".
Proof. intros H. rewrite determine_verdict_empty by exact H. reflexivity. Qed.

Lemma counts_of_nonempty (l : list status_t) :
  l <> [] ->
  let p := py_count (Some "passed") l in
  let f := py_count (Some "failed") l in
  let t := List.length l in
  (0 < t /\ p + f <= t)%nat.
Proof.
  intros Hne p f t. split.
  - subst t. destruct l; [congruence|simpl; lia].
  - apply py_count_disjoint. discriminate.
Qed.

End VerdictShape.

(** X1.  The counters of a verdict are consistent: runs counted as passed
    and as failed never exceed the runs counted in total, which are at least
    one and at most the number of runs given; the INCONCLUSIVE verdict alone
    carries no counters. *)
Theorem verdict_counters_consistent (rs : list RunResult)
    (cross : CrossValidation) :
  match pass_count (determine_verdict rs cross),
        fail_count (determine_verdict rs cross),
        total_runs (determine_verdict rs cross) with
  | Some p, Some f, Some t =>
      (p + f <= t /\ 0 < t /\ t <= List.length rs)%nat /\
      result (determine_verdict rs cross) <> "INCONCLUSIVE"
  | None, None, None =>
      result (determine_verdict rs cross) = "INCONCLUSIVE"
  | _, _, _ => False
  end.
Proof.
  destruct (valid_statuses rs) as [|s l] eqn:E.
  - rewrite determine_verdict_empty by exact E. reflexivity.
  - assert (Hne : valid_statuses rs <> []) by (rewrite E; discriminate).
    pose proof (verdict_result_cases rs cross Hne) as Hr.
    rewrite determine_verdict_nonempty in * by exact Hne.
    destruct (adjust_for_cross (cross_agrees cross) (base_verdict rs))
      as [[res conf] rsn].
    cbn [pass_count fail_count total_runs result] in *.
    destruct (counts_of_nonempty (valid_statuses rs) Hne) as [Ht Hpf].
    pose proof (valid_statuses_length rs) as Hl.
    split; [lia|]. rewrite Hr. cbv zeta.
    repeat match goal with
           | |- context [if ?c then _ else _] => destruct c
           end; discriminate.
Qed.

Lemma verdict_pass_char (rs : list RunResult) (cross : CrossValidation) :
  result (determine_verdict rs cross) = "PASS" <->
  valid_statuses rs <> [] /\
  (forall s, In s (valid_statuses rs) -> s = Some "passed") /\
  cross_agrees cross = true.
Proof.
  destruct (valid_statuses rs) as [|s0 l0] eqn:E.
  - rewrite determine_verdict_empty by exact E. simpl.
    split; [discriminate|intros [H _]; congruence].
  - assert (Hne : valid_statuses rs <> []) by (rewrite E; discriminate).
    pose proof (verdict_result_cases rs cross Hne) as Hr. cbv zeta in Hr.
    rewrite <- E in *.
    pose proof (py_count_full (Some "passed") (valid_statuses rs)) as Hfull.
    rewrite Hr.
    destruct (Nat.eqb_spec (py_count (Some "passed") (valid_statuses rs))
                           (List.length (valid_statuses rs))) as [Ep|Ep].
    + destruct (cross_agrees cross) eqn:Ec.
      * split; [intros _|reflexivity].
        split; [exact Hne|]. split; [apply Hfull; exact Ep|reflexivity].
      * split; [discriminate|]. intros [_ [_ H]]. discriminate.
    + split.
      * repeat match goal with
               | |- context [if ?c then _ else _] => destruct c
               end; discriminate.
      * intros [_ [Hall _]]. exfalso. apply Ep. apply Hfull. exact Hall.
Qed.

(** X2.  A verdict is PASS exactly when at least one run has a valid
    status, every valid status is "passed" and the cross-validation agrees;
    its confidence is then 100.  Cross-validation alone never produces a
    PASS. *)
Theorem verdict_pass_iff (rs : list RunResult) (cross : CrossValidation) :
  (result (determine_verdict rs cross) = "PASS" <->
   valid_statuses rs <> [] /\
   (forall s, In s (valid_statuses rs) -> s = Some "passed") /\
   cross_agrees cross = true) /\
  (result (determine_verdict rs cross) = "PASS" ->
   confidence (determine_verdict rs cross) = 100).
Proof.
  split; [apply verdict_pass_char|].
  intros H. apply verdict_pass_char in H. destruct H as [Hne [Hall Hc]].
  pose proof (verdict_fields rs cross Hne) as Hf.
  unfold base_verdict, determine_result in Hf.
  rewrite (proj2 (py_count_full _ _) Hall), Nat.eqb_refl, Hc in Hf.
  simpl in Hf. injection Hf as _ Hconf _. exact Hconf.
Qed.

Lemma verdict_fail_char (rs : list RunResult) (cross : CrossValidation) :
  result (determine_verdict rs cross) = "FAIL" <->
  valid_statuses rs <> [] /\
  (py_count (Some "passed") (valid_statuses rs)
   <= py_count (Some "failed") (valid_statuses rs))%nat.
Proof.
  destruct (valid_statuses rs) as [|s0 l0] eqn:E.
  - rewrite determine_verdict_empty by exact E. simpl.
    split; [discriminate|intros [H _]; congruence].
  - assert (Hne : valid_statuses rs <> []) by (rewrite E; discriminate).
    pose proof (verdict_result_cases rs cross Hne) as Hr. cbv zeta in Hr.
    rewrite <- E in *.
    destruct (counts_of_nonempty (valid_statuses rs) Hne) as [Ht Hpf].
    cbv zeta in Ht, Hpf. rewrite Hr.
    destruct (Nat.eqb_spec (py_count (Some "passed") (valid_statuses rs))
                           (List.length (valid_statuses rs))) as [Ep|Ep].
    + split; [destruct (cross_agrees cross); discriminate|].
      intros [_ H]. lia.
    + destruct (Nat.eqb_spec (py_count (Some "failed") (valid_statuses rs))
                             (List.length (valid_statuses rs))) as [Ef|Ef].
      * split; [intros _; split; [exact Hne|lia]|reflexivity].
      * destruct (Nat.ltb_spec (py_count (Some "failed") (valid_statuses rs))
                               (py_count (Some "passed") (valid_statuses rs)))
          as [Hlt|Hge].
        -- split; [discriminate|intros [_ H]; lia].
        -- split; [intros _; split; [exact Hne|lia]|reflexivity].
Qed.

(** X3.  A verdict is FAIL exactly when at least one run has a valid status
    and the passed runs do not outnumber the failed ones: a tie, and a run
    set in which neither passes nor failures occur, are FAIL.  No
    cross-validation result changes a FAIL: runs that are FAIL under one
    cross-validation are FAIL under every other. *)
Theorem verdict_fail_iff (rs : list RunResult) (cross : CrossValidation) :
  (result (determine_verdict rs cross) = "FAIL" <->
   valid_statuses rs <> [] /\
   (py_count (Some "passed") (valid_statuses rs)
    <= py_count (Some "failed") (valid_statuses rs))%nat) /\
  (forall cross',
     result (determine_verdict rs cross) = "FAIL" ->
     result (determine_verdict rs cross') = "FAIL").
Proof.
  split; [apply verdict_fail_char|].
  intros cross' H. apply verdict_fail_char.
  apply (proj1 (verdict_fail_char rs cross)). exact H.
Qed.

(** X4.  A verdict is FLAKY exactly when the passed runs outnumber the
    failed ones and either some valid status is not "passed" or the
    cross-validation disagrees. *)
Theorem verdict_flaky_iff (rs : list RunResult) (cross : CrossValidation) :
  result (determine_verdict rs cross) = "FLAKY" <->
  (py_count (Some "failed") (valid_statuses rs)
   < py_count (Some "passed") (valid_statuses rs))%nat /\
  (py_count (Some "passed") (valid_statuses rs)
     <> List.length (valid_statuses rs) \/
   cross_agrees cross = false).
Proof.
  destruct (valid_statuses rs) as [|s0 l0] eqn:E.
  - rewrite determine_verdict_empty by exact E. simpl.
    split; [discriminate|intros [H _]; lia].
  - assert (Hne : valid_statuses rs <> []) by (rewrite E; discriminate).
    pose proof (verdict_result_cases rs cross Hne) as Hr. cbv zeta in Hr.
    rewrite <- E in *.
    destruct (counts_of_nonempty (valid_statuses rs) Hne) as [Ht Hpf].
    cbv zeta in Ht, Hpf. rewrite Hr.
    destruct (Nat.eqb_spec (py_count (Some "passed") (valid_statuses rs))
                           (List.length (valid_statuses rs))) as [Ep|Ep].
    + destruct (cross_agrees cross).
      * split; [discriminate|]. intros [_ [H|H]]; [contradiction|discriminate].
      * split; [intros _|reflexivity]. split; [lia|right; reflexivity].
    + destruct (Nat.eqb_spec (py_count (Some "failed") (valid_statuses rs))
                             (List.length (valid_statuses rs))) as [Ef|Ef].
      * split; [discriminate|intros [H _]; lia].
      * destruct (Nat.ltb_spec (py_count (Some "failed") (valid_statuses rs))
                               (py_count (Some "passed") (valid_statuses rs)))
          as [Hlt|Hge].
        -- split; [intros _; split; [exact Hlt|left; exact Ep]|reflexivity].
        -- split; [discriminate|intros [H _]; lia].
Qed.

(** X5.  A verdict is INCONCLUSIVE exactly when no run has a valid status,
    that is when every run's status is missing, [None] or empty. *)
Theorem verdict_inconclusive_iff (rs : list RunResult)
    (cross : CrossValidation) :
  result (determine_verdict rs cross) = "INCONCLUSIVE" <->
  (forall r, In r rs -> truthy (status r) = false).
Proof.
  assert (Hv : valid_statuses rs = [] <->
               forall r, In r rs -> truthy (status r) = false).
  { unfold valid_statuses. induction rs as [|r rs IH]; simpl.
    - split; [intros _ r []|reflexivity].
    - destruct (truthy (status r)) eqn:Et.
      + split; [discriminate|]. intros H.
        specialize (H r (or_introl eq_refl)). congruence.
      + rewrite IH. split.
        * intros H r' [Hr|Hr]; [subst; exact Et|apply H; exact Hr].
        * intros H r' Hr. apply H. right. exact Hr. }
  rewrite <- Hv. split.
  - intros H. destruct (valid_statuses rs) as [|s0 l0] eqn:E; [reflexivity|].
    exfalso.
    assert (Hne : valid_statuses rs <> []) by (rewrite E; discriminate).
    pose proof (verdict_result_cases rs cross Hne) as Hr. cbv zeta in Hr.
    rewrite H in Hr. revert Hr.
    repeat match goal with
           | |- context [if ?c then _ else _] => destruct c
           end; discriminate.
  - apply verdict_result_empty.
Qed.

Section OrderFacts.
Local Open Scope Z_scope.

Lemma Permutation_filter_status (f : status_t -> bool) (l l' : list status_t) :
  Permutation l l' -> Permutation (filter f l) (filter f l').
Proof.
  induction 1 as [|x l l' _ IH|x y l|l l' l'' _ IH1 _ IH2]; simpl.
  - constructor.
  - destruct (f x); [constructor|]; exact IH.
  - destruct (f x), (f y); try apply Permutation_refl. constructor.
  - eapply Permutation_trans; eassumption.
Qed.

Lemma valid_statuses_perm (rs rs' : list RunResult) :
  Permutation rs rs' -> Permutation (valid_statuses rs) (valid_statuses rs').
Proof.
  intros H. unfold valid_statuses.
  apply Permutation_filter_status, Permutation_map, H.
Qed.

Lemma py_count_perm (x : status_t) (l l' : list status_t) :
  Permutation l l' -> py_count x l = py_count x l'.
Proof.
  intros H. unfold py_count.
  apply (proj1 (Permutation_count_occ status_eq_dec l l') H).
Qed.

Lemma is_modal_count_perm (l l' : list status_t) (m : nat) :
  Permutation l l' -> is_modal_count l m -> is_modal_count l' m.
Proof.
  intros Hp [[s [Hin Hc]] Hmax]. split.
  - exists s. split; [eapply Permutation_in; eassumption|].
    rewrite <- (py_count_perm s l l' Hp). exact Hc.
  - intros s'. rewrite <- (py_count_perm s' l l' Hp). apply Hmax.
Qed.

Lemma is_modal_count_unique (l : list status_t) (m m' : nat) :
  is_modal_count l m -> is_modal_count l m' -> m = m'.
Proof.
  intros [[s [_ Hc]] Hmax] [[s' [_ Hc']] Hmax'].
  pose proof (Hmax s'). pose proof (Hmax' s). lia.
Qed.

Lemma adjust_gap (c : Z) :
  0 <= c <= 100 -> Z.max 0 (c - 20) + 10 <= Z.min 100 (c + 10).
Proof. lia. Qed.

Lemma base_confidence_range (rs : list RunResult) :
  valid_statuses rs <> [] -> 0 <= base_confidence rs <= 100.
Proof.
  intros Hne. unfold base_confidence, base_verdict.
  destruct (counts_of_nonempty (valid_statuses rs) Hne) as [Ht _].
  apply determine_result_confidence_range;
    [apply py_count_le_length|apply py_count_le_length|exact Ht].
Qed.

Lemma verdict_confidence_cases (rs : list RunResult)
    (cross : CrossValidation) :
  valid_statuses rs <> [] ->
  confidence (determine_verdict rs cross) =
  if cross_agrees cross then Z.min 100 (base_confidence rs + 10)
  else Z.max 0 (base_confidence rs - 20).
Proof.
  intros Hne. pose proof (verdict_fields rs cross Hne) as H.
  rewrite base_verdict_eta in H. unfold adjust_for_cross in H.
  destruct (cross_agrees cross).
  - injection H as _ Hc _. exact Hc.
  - destruct (String.eqb (base_result rs) "PASS");
      injection H as _ Hc _; exact Hc.
Qed.

End OrderFacts.

(** X6.  On the same runs an agreeing cross-validation never yields a lower
    confidence than a disagreeing one; when some run has a valid status the
    agreeing confidence is at least 10 points higher. *)
Theorem agreement_never_lowers_confidence (rs : list RunResult)
    (agree disagree : CrossValidation) :
  cross_agrees agree = true -> cross_agrees disagree = false ->
  confidence (determine_verdict rs disagree)
    <= confidence (determine_verdict rs agree) /\
  (valid_statuses rs <> [] ->
   confidence (determine_verdict rs disagree) + 10
     <= confidence (determine_verdict rs agree)).
Proof.
  intros Ha Hd.
  destruct (valid_statuses rs) as [|s0 l0] eqn:E.
  - rewrite !determine_verdict_empty by exact E. simpl.
    split; [lia|intros H; congruence].
  - assert (Hne : valid_statuses rs <> []) by (rewrite E; discriminate).
    rewrite !verdict_confidence_cases by exact Hne. rewrite Ha, Hd.
    pose proof (adjust_gap _ (base_confidence_range rs Hne)) as Hg.
    split; [lia|intros _; exact Hg].
Qed.

Lemma agreement_never_lowers_confidence_witness :
  let rs := [passed_run; failed_run; passed_run] in
  cross_agrees (cross_with true) = true /\
  cross_agrees (cross_with false) = false /\
  confidence (determine_verdict rs (cross_with false)) + 10
    <= confidence (determine_verdict rs (cross_with true)).
Proof.
  intros rs. split; [reflexivity|]. split; [reflexivity|].
  apply (agreement_never_lowers_confidence rs (cross_with true)
           (cross_with false) eq_refl eq_refl).
  discriminate.
Defined.

(** X7.  The verdict does not depend on the order of the runs: run sets
    that are permutations of each other get the same verdict. *)
Theorem verdict_order_independent (rs rs' : list RunResult)
    (cross : CrossValidation) :
  Permutation rs rs' ->
  determine_verdict rs cross = determine_verdict rs' cross.
Proof.
  intros Hp. pose proof (valid_statuses_perm rs rs' Hp) as Hv.
  pose proof (Permutation_length Hv) as Hl.
  destruct (valid_statuses rs) as [|s0 l0] eqn:E.
  - destruct (valid_statuses rs') as [|s1 l1] eqn:E'; [|discriminate].
    rewrite !determine_verdict_empty by assumption. reflexivity.
  - destruct (valid_statuses rs') as [|s1 l1] eqn:E'; [discriminate|].
    assert (Hne : valid_statuses rs <> []) by (rewrite E; discriminate).
    assert (Hne' : valid_statuses rs' <> []) by (rewrite E'; discriminate).
    rewrite <- E in Hv, Hl. rewrite <- E' in Hv, Hl.
    rewrite (determine_verdict_nonempty rs cross Hne).
    rewrite (determine_verdict_nonempty rs' cross Hne').
    unfold base_verdict.
    rewrite (py_count_perm (Some "passed") _ _ Hv).
    rewrite (py_count_perm (Some "failed") _ _ Hv).
    rewrite Hl. reflexivity.
Qed.

Lemma verdict_order_independent_witness :
  Permutation [passed_run; failed_run; passed_run]
              [failed_run; passed_run; passed_run] /\
  determine_verdict [passed_run; failed_run; passed_run] (cross_with false)
  = determine_verdict [failed_run; passed_run; passed_run] (cross_with false).
Proof.
  assert (H : Permutation [passed_run; failed_run; passed_run]
                          [failed_run; passed_run; passed_run])
    by apply perm_swap.
  split; [exact H|]. apply verdict_order_independent. exact H.
Defined.

(** X8.  When at least one run has a valid status and every valid status is
    "failed", the verdict is FAIL with reason "All n runs failed", whatever
    the cross-validation says; its confidence is 100 with agreement and 80
    with disagreement. *)
Theorem unanimous_failure (rs : list RunResult) (cross : CrossValidation) :
  valid_statuses rs <> [] ->
  (forall s, In s (valid_statuses rs) -> s = Some "failed") ->
  result (determine_verdict rs cross) = "FAIL" /\
  confidence (determine_verdict rs cross)
    = (if cross_agrees cross then 100 else 80) /\
  reason (determine_verdict rs cross)
    = "All " ++ py_str (List.length (valid_statuses rs)) ++ " runs failed".
Proof.
  intros Hne Hall.
  pose proof (proj2 (py_count_full (Some "failed") (valid_statuses rs)) Hall)
    as Hf.
  destruct (counts_of_nonempty (valid_statuses rs) Hne) as [Ht Hpf].
  cbv zeta in Ht, Hpf.
  assert (Hp : py_count (Some "passed") (valid_statuses rs)
               <> List.length (valid_statuses rs)) by lia.
  pose proof (verdict_fields rs cross Hne) as H.
  unfold base_verdict, determine_result in H.
  rewrite (proj2 (Nat.eqb_neq _ _) Hp), Hf, Nat.eqb_refl in H.
  unfold adjust_for_cross in H.
  destruct (cross_agrees cross); simpl in H; injection H as Hr Hc Hs;
    repeat split; assumption.
Qed.

Lemma unanimous_failure_witness :
  let rs := [failed_run; blank_run; failed_run] in
  valid_statuses rs <> [] /\
  (forall s, In s (valid_statuses rs) -> s = Some "failed") /\
  result (determine_verdict rs (cross_with false)) = "FAIL" /\
  confidence (determine_verdict rs (cross_with false)) = 80 /\
  reason (determine_verdict rs (cross_with false)) = "All 2 runs failed".
Proof.
  intros rs.
  assert (H1 : valid_statuses rs <> []) by discriminate.
  assert (H2 : forall s, In s (valid_statuses rs) -> s = Some "failed").
  { intros s [E|[E|[]]]; subst s; reflexivity. }
  split; [exact H1|]. split; [exact H2|].
  exact (unanimous_failure rs (cross_with false) H1 H2).
Defined.

(* ================================================================== *)
(** ** Further facts about the reproducibility score *)

Section ScoreRange.
Local Open Scope Z_scope.

Lemma py_percent_range (p t : Z) :
  0 <= p <= t -> 0 < t ->
  (0 <= py_mul (py_truediv p t) 100)%Q /\
  (py_mul (py_truediv p t) 100 <= inject_Z 100)%Q.
Proof.
  intros Hp Ht. destruct (py_truediv_unit p t Hp Ht) as [Hx0 Hx1].
  set (x := py_truediv p t) in *.
  assert (H0 : (0 <= x * 100)%Q)
    by (apply Qmult_le_0_compat; [exact Hx0|discriminate]).
  assert (H1 : (x * 100 <= inject_Z 100)%Q).
  { change (inject_Z 100) with (inject_Z 1 * 100)%Q.
    apply Qmult_le_compat_r; [exact Hx1|discriminate]. }
  split; [apply round_b64_nonneg; exact H0|].
  apply round_b64_le_int; [exact H0|exact H1|reflexivity].
Qed.

Lemma py_round2_range (y : Q) :
  (0 <= y)%Q -> (y <= inject_Z 100)%Q ->
  (0 <= py_round2 y)%Q /\ (py_round2 y <= inject_Z 100)%Q.
Proof.
  intros H0 H1. unfold py_round2, hundredths.
  assert (Hh0 : 0 <= rne (y * 100)).
  { apply rne_ge. apply Qmult_le_0_compat; [exact H0|discriminate]. }
  assert (Hh1 : rne (y * 100) <= 10000).
  { apply rne_le. change (inject_Z 10000) with (inject_Z 100 * 100)%Q.
    apply Qmult_le_compat_r; [exact H1|discriminate]. }
  set (h := rne (y * 100)) in *.
  assert (Hq0 : (0 <= inject_Z h / 100)%Q).
  { apply Qle_shift_div_l; [reflexivity|]. rewrite Qmult_0_l.
    change 0%Q with (inject_Z 0). rewrite <- Zle_Qle. exact Hh0. }
  assert (Hq1 : (inject_Z h / 100 <= inject_Z 100)%Q).
  { apply Qle_shift_div_r; [reflexivity|].
    change (inject_Z 100 * 100)%Q with (inject_Z 10000).
    rewrite <- Zle_Qle. exact Hh1. }
  split; [apply round_b64_nonneg; exact Hq0|].
  apply round_b64_le_int; [exact Hq0|exact Hq1|reflexivity].
Qed.

Lemma code_score_range (m n : nat) :
  (m <= n)%nat -> (0 < n)%nat ->
  (0 <= code_score m n)%Q /\ (code_score m n <= inject_Z 100)%Q.
Proof.
  intros Hm Hn. unfold code_score.
  destruct (py_percent_range (Z.of_nat m) (Z.of_nat n)) as [H0 H1];
    [lia|lia|].
  apply py_round2_range; assumption.
Qed.

End ScoreRange.

(** X9.  The reproducibility score of every run set lies between 0 and
    100. *)
Theorem reproducibility_in_range (rs : list RunResult) :
  (0 <= calculate_reproducibility rs)%Q /\
  (calculate_reproducibility rs <= inject_Z 100)%Q.
Proof.
  destruct rs as [|r rs'].
  - simpl. split; discriminate.
  - assert (Hne : r :: rs' <> []) by discriminate.
    destruct (calculate_reproducibility_modal _ Hne) as [m [Hmod Hc]].
    rewrite Hc. pose proof (modal_count_bounds _ _ Hmod) as Hb.
    rewrite length_map in Hb. apply code_score_range; lia.
Qed.

Lemma unanimous_modal_count (l : list status_t) (st : status_t) (m : nat) :
  (forall s, In s l -> s = st) -> is_modal_count l m -> m = List.length l.
Proof.
  intros Hs [[s [Hin Hm]] _].
  rewrite (Hs s Hin) in Hm. rewrite py_count_all_same in Hm by exact Hs.
  congruence.
Qed.

Lemma statuses_of_unanimous (rs : list RunResult) (st : status_t) :
  (forall r, In r rs -> status r = st) ->
  forall s, In s (map status rs) -> s = st.
Proof.
  intros Hall s Hs. apply in_map_iff in Hs. destruct Hs as [r [E Hr]].
  subst s. apply Hall. exact Hr.
Qed.

(** X10.  A non-empty run set whose runs all carry the same status, whatever
    that status is, has reproducibility 100.0. *)
Theorem unanimous_runs_fully_reproducible (rs : list RunResult)
    (st : status_t) :
  rs <> [] -> (forall r, In r rs -> status r = st) ->
  calculate_reproducibility rs = inject_Z 100.
Proof.
  intros Hne Hall.
  destruct (calculate_reproducibility_modal rs Hne) as [m [Hmod Hc]].
  pose proof (unanimous_modal_count _ st m
                (statuses_of_unanimous rs st Hall) Hmod) as Hm.
  rewrite length_map in Hm. subst m. rewrite Hc.
  apply code_score_diag. destruct rs; [congruence|simpl; lia].
Qed.

Lemma unanimous_runs_fully_reproducible_witness :
  let rs := [errored_run; errored_run; errored_run; errored_run] in
  rs <> [] /\ (forall r, In r rs -> status r = Some "error") /\
  calculate_reproducibility rs = inject_Z 100.
Proof.
  intros rs.
  assert (H1 : rs <> []) by discriminate.
  assert (H2 : forall r, In r rs -> status r = Some "error").
  { intros r [E|[E|[E|[E|[]]]]]; subst r; reflexivity. }
  split; [exact H1|]. split; [exact H2|].
  exact (unanimous_runs_fully_reproducible rs (Some "error") H1 H2).
Defined.

(** X11.  The reproducibility score does not depend on the order of the
    runs. *)
Theorem reproducibility_order_independent (rs rs' : list RunResult) :
  Permutation rs rs' ->
  calculate_reproducibility rs = calculate_reproducibility rs'.
Proof.
  intros Hp. destruct rs as [|r0 l0].
  - apply Permutation_nil in Hp. subst rs'. reflexivity.
  - assert (Hne : r0 :: l0 <> []) by discriminate.
    assert (Hne' : rs' <> []).
    { intros E. subst rs'. apply Permutation_sym, Permutation_nil in Hp.
      discriminate. }
    destruct (calculate_reproducibility_modal _ Hne) as [m [Hmod Hc]].
    destruct (calculate_reproducibility_modal _ Hne') as [m' [Hmod' Hc']].
    assert (Hpm : Permutation (map status (r0 :: l0)) (map status rs'))
      by (apply Permutation_map; exact Hp).
    pose proof (is_modal_count_perm _ _ _ Hpm Hmod) as Hmod2.
    rewrite (is_modal_count_unique _ _ _ Hmod' Hmod2) in Hc'.
    rewrite Hc, Hc', (Permutation_length Hp). reflexivity.
Qed.

Lemma reproducibility_order_independent_witness :
  Permutation [passed_run; failed_run; passed_run]
              [failed_run; passed_run; passed_run] /\
  calculate_reproducibility [passed_run; failed_run; passed_run]
  = calculate_reproducibility [failed_run; passed_run; passed_run].
Proof.
  assert (H : Permutation [passed_run; failed_run; passed_run]
                          [failed_run; passed_run; passed_run])
    by apply perm_swap.
  split; [exact H|]. apply reproducibility_order_independent. exact H.
Defined.

(* ================================================================== *)
(** ** Further facts about the executor *)

Section StepFacts.

Variable env : Env.

Lemma execute_steps_steps (todo : list string) :
  forall (i : nat) (r : RunResult),
    steps (execute_steps env i todo r)
    = (steps r ++ executed_steps env i todo)%list.
Proof.
  induction todo as [|step rest IH]; intros i r; simpl.
  - rewrite app_nil_r. reflexivity.
  - destruct (String.eqb (sr_status (execute_step env step i)) "failed").
    + reflexivity.
    + rewrite IH. simpl. rewrite <- app_assoc. reflexivity.
Qed.

Lemma execute_steps_artifacts (todo : list string) :
  forall (i : nat) (r : RunResult),
    artifacts (execute_steps env i todo r) = artifacts r.
Proof.
  induction todo as [|step rest IH]; intros i r; simpl; [reflexivity|].
  destruct (String.eqb (sr_status (execute_step env step i)) "failed");
    [reflexivity|]. rewrite IH. reflexivity.
Qed.

Lemma execute_steps_error (todo : list string) :
  forall (i : nat) (r : RunResult),
    error (execute_steps env i todo r)
    = match first_failure env i todo with
      | Some e => Some e
      | None => error r
      end.
Proof.
  induction todo as [|step rest IH]; intros i r; simpl; [reflexivity|].
  unfold execute_step.
  destruct (env_step env i step) as [a|e]; simpl; [|reflexivity].
  rewrite IH. reflexivity.
Qed.

Lemma all_steps_pass_first_failure (todo : list string) :
  forall i, all_steps_pass env i todo = true <-> first_failure env i todo = None.
Proof.
  induction todo as [|step rest IH]; intros i; simpl; [tauto|].
  destruct (env_step env i step) as [a|e]; [apply IH|].
  split; discriminate.
Qed.

Lemma executed_steps_nth (todo : list string) :
  forall (i j : nat) (sr : StepResult),
    nth_error (executed_steps env i todo) j = Some sr ->
    exists step, nth_error todo j = Some step /\
                 sr = execute_step env step (i + j).
Proof.
  induction todo as [|step rest IH]; intros i j sr H; simpl in H.
  - destruct j; discriminate.
  - destruct (String.eqb (sr_status (execute_step env step i)) "failed").
    + destruct j as [|j]; simpl in H.
      * injection H as H. exists step. rewrite Nat.add_0_r. auto.
      * destruct j; discriminate.
    + destruct j as [|j]; simpl in H.
      * injection H as H. exists step. rewrite Nat.add_0_r. auto.
      * destruct (IH (S i) j sr H) as [s [Hs E]]. exists s.
        rewrite Nat.add_succ_r. auto.
Qed.

Lemma executed_steps_inner_passed (todo : list string) :
  forall (i j : nat) (sr : StepResult),
    nth_error (executed_steps env i todo) j = Some sr ->
    (S j < List.length (executed_steps env i todo))%nat ->
    sr_status sr = "passed".
Proof.
  induction todo as [|step rest IH]; intros i j sr H Hj; simpl in *.
  - destruct j; discriminate.
  - destruct (String.eqb (sr_status (execute_step env step i)) "failed")
      eqn:Ef.
    + simpl in Hj. lia.
    + destruct j as [|j]; simpl in H.
      * injection H as H. subst sr. rewrite execute_step_status in *.
        destruct (env_step env i step); [reflexivity|discriminate].
      * simpl in Hj. apply (IH (S i) j sr H). lia.
Qed.

Lemma executed_steps_short (todo : list string) :
  forall i,
    (List.length (executed_steps env i todo) < List.length todo)%nat ->
    exists sr,
      nth_error (executed_steps env i todo)
                (List.length (executed_steps env i todo) - 1) = Some sr /\
      sr_status sr = "failed".
Proof.
  induction todo as [|step rest IH]; intros i H; simpl in *; [lia|].
  destruct (String.eqb (sr_status (execute_step env step i)) "failed") eqn:Ef.
  - exists (execute_step env step i). split; [reflexivity|].
    apply String.eqb_eq. exact Ef.
  - simpl in H. destruct (IH (S i) ltac:(lia)) as [sr [Hn Hs]].
    exists sr. split; [|exact Hs]. simpl.
    destruct (List.length (executed_steps env (S i) rest)) as [|n] eqn:El.
    + destruct (executed_steps env (S i) rest); [discriminate|discriminate].
    + simpl in *. rewrite Nat.sub_0_r in *. exact Hn.
Qed.

Lemma executed_steps_length (todo : list string) :
  forall i, (List.length (executed_steps env i todo) <= List.length todo)%nat.
Proof.
  induction todo as [|step rest IH]; intros i; simpl; [lia|].
  destruct (String.eqb (sr_status (execute_step env step i)) "failed");
    simpl; [lia|]. specialize (IH (S i)). lia.
Qed.

Lemma executed_steps_all_pass (todo : list string) :
  forall i, all_steps_pass env i todo = true ->
    List.length (executed_steps env i todo) = List.length todo /\
    Forall (fun sr => sr_status sr = "passed") (executed_steps env i todo).
Proof.
  induction todo as [|step rest IH]; intros i H; simpl in *;
    [split; [reflexivity|constructor]|].
  rewrite execute_step_status.
  destruct (env_step env i step) as [a|e] eqn:Es; [|discriminate].
  simpl. destruct (IH (S i) H) as [Hl Hf]. split; [lia|].
  constructor; [|exact Hf]. rewrite execute_step_status, Es. reflexivity.
Qed.

Lemma executed_steps_first_failure (todo : list string) :
  forall (i k : nat) (step e : string),
    nth_error todo k = Some step ->
    env_step env (i + k) step = Raises e ->
    (forall j s, (j < k)%nat -> nth_error todo j = Some s ->
                 exists a, env_step env (i + j) s = Returns a) ->
    List.length (executed_steps env i todo) = S k /\
    nth_error (executed_steps env i todo) k
      = Some (execute_step env step (i + k)) /\
    first_failure env i todo = Some e.
Proof.
  induction todo as [|s0 rest IH]; intros i k step e Hn He Hb.
  - destruct k; discriminate.
  - simpl. rewrite execute_step_status. destruct k as [|k].
    + simpl in Hn. injection Hn as Hn. subst s0.
      rewrite Nat.add_0_r in He. rewrite He. simpl.
      rewrite Nat.add_0_r. auto.
    + destruct (Hb 0%nat s0 ltac:(lia) eq_refl) as [a Ha].
      rewrite Nat.add_0_r in Ha. rewrite Ha. simpl.
      simpl in Hn. rewrite Nat.add_succ_r in He.
      destruct (IH (S i) k step e Hn He) as [Hl [Hk Hf]].
      * intros j s Hj Hs. specialize (Hb (S j) s ltac:(lia) Hs).
        rewrite Nat.add_succ_r in Hb. exact Hb.
      * rewrite Nat.add_succ_r. split; [lia|]. split; assumption.
Qed.

End StepFacts.

Section AttemptFacts.

Lemma execute_test_steps (env : Env) (agent : string) (tc : TestCase) :
  steps (execute_test env agent tc) = executed_steps env 0 (tc_steps tc).
Proof.
  unfold execute_test.
  set (r0 := {| test_id := Some (tc_id tc); test_name := Some (tc_name tc);
                agent_id := Some agent; steps := [];
                status := Some "running"; artifacts := [];
                error := None; run_index := None |}).
  assert (H : steps (execute_steps env 0 (tc_steps tc) r0)
              = executed_steps env 0 (tc_steps tc))
    by (rewrite execute_steps_steps; reflexivity).
  destruct (env_final env);
    destruct (status_eqb (status (execute_steps env 0 (tc_steps tc) r0))
                         (Some "running")); exact H.
Qed.

Lemma execute_test_artifacts (env : Env) (agent : string) (tc : TestCase) :
  artifacts (execute_test env agent tc)
  = match env_final env with
    | Returns a => [a]
    | Raises _ => []
    end.
Proof.
  unfold execute_test.
  set (r0 := {| test_id := Some (tc_id tc); test_name := Some (tc_name tc);
                agent_id := Some agent; steps := [];
                status := Some "running"; artifacts := [];
                error := None; run_index := None |}).
  assert (H : artifacts (execute_steps env 0 (tc_steps tc) r0) = [])
    by (rewrite execute_steps_artifacts; reflexivity).
  destruct (env_final env);
    destruct (status_eqb (status (execute_steps env 0 (tc_steps tc) r0))
                         (Some "running")); simpl; rewrite H; reflexivity.
Qed.

Lemma execute_test_status (env : Env) (agent : string) (tc : TestCase) :
  status (execute_test env agent tc) =
  Some match env_final env with
       | Raises _ => "error"
       | Returns _ =>
           if all_steps_pass env 0 (tc_steps tc) then "passed" else "failed"
       end.
Proof.
  unfold execute_test.
  set (r0 := {| test_id := Some (tc_id tc); test_name := Some (tc_name tc);
                agent_id := Some agent; steps := [];
                status := Some "running"; artifacts := [];
                error := None; run_index := None |}).
  pose proof (execute_steps_status env (tc_steps tc) 0 r0 eq_refl) as H.
  destruct (env_final env) as [a|e]; [|reflexivity].
  assert (Ha : forall r, status (append_artifacts r a) = status r)
    by reflexivity.
  rewrite Ha, H.
  destruct (all_steps_pass env 0 (tc_steps tc)); simpl; [reflexivity|exact H].
Qed.

Lemma execute_test_error (env : Env) (agent : string) (tc : TestCase) :
  error (execute_test env agent tc) =
  match env_final env with
  | Raises e => Some e
  | Returns _ => first_failure env 0 (tc_steps tc)
  end.
Proof.
  unfold execute_test.
  set (r0 := {| test_id := Some (tc_id tc); test_name := Some (tc_name tc);
                agent_id := Some agent; steps := [];
                status := Some "running"; artifacts := [];
                error := None; run_index := None |}).
  pose proof (execute_steps_error env (tc_steps tc) 0 r0) as H.
  assert (H' : error (execute_steps env 0 (tc_steps tc) r0)
               = first_failure env 0 (tc_steps tc)).
  { rewrite H. destruct (first_failure env 0 (tc_steps tc)); reflexivity. }
  destruct (env_final env) as [a|e]; [|reflexivity].
  destruct (status_eqb (status (execute_steps env 0 (tc_steps tc) r0))
                       (Some "running")); simpl; exact H'.
Qed.

End AttemptFacts.

(** X12.  [execute_test] records step results in order for an initial
    segment of the steps: the [j]th result is that of the [j]th step, every
    recorded result but the last is "passed", and when fewer results than
    steps are recorded the last recorded result is "failed": execution
    stops at the first failing step. *)
Theorem recorded_steps_form_prefix (env : Env) (agent : string)
    (tc : TestCase) :
  (List.length (steps (execute_test env agent tc))
     <= List.length (tc_steps tc))%nat /\
  (forall j sr, nth_error (steps (execute_test env agent tc)) j = Some sr ->
     exists step, nth_error (tc_steps tc) j = Some step /\
                  sr_description sr = step /\ sr_index sr = j /\
                  ((S j < List.length (steps (execute_test env agent tc)))%nat
                   -> sr_status sr = "passed")) /\
  ((List.length (steps (execute_test env agent tc))
      < List.length (tc_steps tc))%nat ->
   exists sr,
     nth_error (steps (execute_test env agent tc))
       (List.length (steps (execute_test env agent tc)) - 1) = Some sr /\
     sr_status sr = "failed").
Proof.
  rewrite execute_test_steps. split; [apply executed_steps_length|]. split.
  - intros j sr H.
    destruct (executed_steps_nth env _ _ _ _ H) as [step [Hs E]].
    exists step. split; [exact Hs|].
    assert (Hd : sr_description sr = step /\ sr_index sr = j).
    { subst sr. unfold execute_step. simpl.
      destruct (env_step env j step); simpl; auto. }
    destruct Hd as [Hd Hi]. split; [exact Hd|]. split; [exact Hi|].
    intros Hj. exact (executed_steps_inner_passed env _ _ _ _ H Hj).
  - apply executed_steps_short.
Qed.

(** X13.  If step [k] is the first step that raises, say with message [e],
    then exactly [k + 1] step results are recorded, the last one is "failed"
    with error [e], and, unless the final capture raises too, the attempt
    is "failed" with error [e]. *)
Theorem first_failing_step_decides (env : Env) (agent : string)
    (tc : TestCase) (k : nat) (step e : string) :
  nth_error (tc_steps tc) k = Some step ->
  env_step env k step = Raises e ->
  (forall j s, (j < k)%nat -> nth_error (tc_steps tc) j = Some s ->
               exists a, env_step env j s = Returns a) ->
  List.length (steps (execute_test env agent tc)) = S k /\
  (exists sr, nth_error (steps (execute_test env agent tc)) k = Some sr /\
              sr_status sr = "failed" /\ sr_error sr = Some e) /\
  (forall a, env_final env = Returns a ->
     status (execute_test env agent tc) = Some "failed" /\
     error (execute_test env agent tc) = Some e).
Proof.
  intros Hn He Hb.
  destruct (executed_steps_first_failure env (tc_steps tc) 0 k step e Hn He Hb)
    as [Hl [Hk Hf]].
  rewrite execute_test_steps. split; [exact Hl|]. split.
  - exists (execute_step env step k). split; [exact Hk|].
    unfold execute_step. rewrite He. simpl. auto.
  - intros a Ha. rewrite execute_test_status, execute_test_error, Ha.
    assert (Hp : all_steps_pass env 0 (tc_steps tc) = false).
    { destruct (all_steps_pass env 0 (tc_steps tc)) eqn:E; [|reflexivity].
      apply all_steps_pass_first_failure in E. congruence. }
    rewrite Hp, Hf. auto.
Qed.

Lemma first_failing_step_decides_witness :
  nth_error (tc_steps sample_test) 1 = Some "Verify the board is shown" /\
  env_step env_second_step_fails 1 "Verify the board is shown"
    = Raises "element not found" /\
  List.length (steps (execute_test env_second_step_fails "exec_0" sample_test))
    = 2%nat /\
  status (execute_test env_second_step_fails "exec_0" sample_test)
    = Some "failed" /\
  error (execute_test env_second_step_fails "exec_0" sample_test)
    = Some "element not found".
Proof.
  assert (Hb : forall j s, (j < 1)%nat ->
                 nth_error (tc_steps sample_test) j = Some s ->
                 exists a, env_step env_second_step_fails j s = Returns a).
  { intros j s Hj _. exists some_artifacts.
    destruct j as [|j]; [reflexivity|lia]. }
  destruct (first_failing_step_decides env_second_step_fails "exec_0"
              sample_test 1 "Verify the board is shown" "element not found"
              eq_refl eq_refl Hb) as [Hl [_ Hf]].
  destruct (Hf some_artifacts eq_refl) as [Hs He].
  split; [reflexivity|]. split; [reflexivity|].
  split; [exact Hl|]. split; [exact Hs|exact He].
Defined.

(** X14.  An attempt that ends "passed" has recorded one "passed" result
    for every step of the test case, carries no error, and holds exactly one
    set of final artifacts. *)
Theorem passed_attempt_is_complete (env : Env) (agent : string)
    (tc : TestCase) :
  status (execute_test env agent tc) = Some "passed" ->
  List.length (steps (execute_test env agent tc))
    = List.length (tc_steps tc) /\
  Forall (fun sr => sr_status sr = "passed")
         (steps (execute_test env agent tc)) /\
  error (execute_test env agent tc) = None /\
  exists a, artifacts (execute_test env agent tc) = [a].
Proof.
  rewrite execute_test_status, execute_test_steps, execute_test_error,
    execute_test_artifacts.
  destruct (env_final env) as [a|e]; [|discriminate].
  destruct (all_steps_pass env 0 (tc_steps tc)) eqn:Ep; [|discriminate].
  intros _. destruct (executed_steps_all_pass env _ _ Ep) as [Hl Hf].
  split; [exact Hl|]. split; [exact Hf|]. split.
  - apply all_steps_pass_first_failure. exact Ep.
  - exists a. reflexivity.
Qed.

Lemma passed_attempt_is_complete_witness :
  status (execute_test env_all_good "exec_0" sample_test) = Some "passed" /\
  List.length (steps (execute_test env_all_good "exec_0" sample_test))
    = 2%nat /\
  error (execute_test env_all_good "exec_0" sample_test) = None.
Proof.
  destruct (passed_attempt_is_complete env_all_good "exec_0" sample_test
              eq_refl) as [Hl [_ [He _]]].
  split; [reflexivity|]. split; [exact Hl|exact He].
Defined.

(** X15.  The artifacts of an attempt are the one set returned by the final
    capture, or none when that capture raises; the artifacts captured during
    the steps are never added to the attempt. *)
Theorem attempt_artifacts_are_final_capture (env : Env) (agent : string)
    (tc : TestCase) :
  artifacts (execute_test env agent tc)
  = match env_final env with
    | Returns a => [a]
    | Raises _ => []
    end /\
  (List.length (artifacts (execute_test env agent tc)) <= 1)%nat.
Proof.
  rewrite execute_test_artifacts. split; [reflexivity|].
  destruct (env_final env); simpl; lia.
Qed.

(* ================================================================== *)
(** ** The repeat loop and the validation of a test case *)

Section PipelineFacts.

Lemma recorded_runs_length (bodies : list (outcome RunResult)) :
  forall i, List.length (recorded_runs i bodies) = List.length bodies.
Proof.
  induction bodies as [|b rest IH]; intros i; simpl;
    [reflexivity|rewrite IH; reflexivity].
Qed.

Lemma recorded_runs_nth (bodies : list (outcome RunResult)) :
  forall (i j : nat) (b : outcome RunResult),
    nth_error bodies j = Some b ->
    nth_error (recorded_runs i bodies) j = Some (recorded_run (i + j) b).
Proof.
  induction bodies as [|b0 rest IH]; intros i j b H.
  - destruct j; discriminate.
  - destruct j as [|j]; simpl in H.
    + injection H as H. subst b0. rewrite Nat.add_0_r. reflexivity.
    + rewrite Nat.add_succ_r. simpl. apply (IH (S i) j b H).
Qed.

Lemma recorded_runs_statuses (bodies : list (outcome RunResult)) :
  forall i, map status (recorded_runs i bodies) = map recorded_status bodies.
Proof.
  induction bodies as [|[r|e] rest IH]; intros i; simpl;
    [reflexivity|rewrite IH; reflexivity|rewrite IH; reflexivity].
Qed.

Lemma first_stop_failure_none {A : Type} (attempts : list (A * outcome unit)) :
  first_stop_failure attempts = None <->
  forall a, In a attempts -> snd a = Returns tt.
Proof.
  induction attempts as [|[b [[]|e]] rest IH]; simpl.
  - split; [intros _ a []|reflexivity].
  - rewrite IH. split.
    + intros H a [E|Hin]; [subst a; reflexivity|apply H; exact Hin].
    + intros H a Hin. apply H. right. exact Hin.
  - split; [discriminate|]. intros H.
    specialize (H (b, Raises e) (or_introl eq_refl)). discriminate.
Qed.

Lemma first_stop_failure_some {A : Type} (before after : list (A * outcome unit))
    (body : A) (e : string) :
  (forall a, In a before -> snd a = Returns tt) ->
  first_stop_failure (before ++ (body, Raises e) :: after) = Some e.
Proof.
  induction before as [|[b s] rest IH]; intros H; simpl; [reflexivity|].
  pose proof (H (b, s) (or_introl eq_refl)) as Hs. simpl in Hs. subst s.
  apply IH. intros a Ha. apply H. right. exact Ha.
Qed.

Lemma repeat_runs_char (attempts : list (outcome RunResult * outcome unit)) :
  forall i,
    repeat_runs i attempts
    = match first_stop_failure attempts with
      | Some e => Raises e
      | None => Returns (recorded_runs i (map fst attempts))
      end.
Proof.
  induction attempts as [|[body [[]|e]] rest IH]; intros i; simpl;
    [reflexivity| |reflexivity].
  rewrite IH. destruct (first_stop_failure rest); reflexivity.
Qed.

Lemma execute_with_validation_char (test : TestCase)
    (attempts : list (outcome RunResult * outcome unit))
    (cross_attempt : outcome RunResult) (cross_stop : outcome unit) :
  execute_with_validation test attempts cross_attempt cross_stop
  = match first_stop_failure attempts, cross_stop with
    | Some e, _ => Raises e
    | None, Raises e => Raises e
    | None, Returns _ =>
        Returns (validated_result test (recorded_runs 0 (map fst attempts))
                   (cross_validation_record cross_attempt
                      (recorded_runs 0 (map fst attempts))))
    end.
Proof.
  unfold execute_with_validation. rewrite repeat_runs_char.
  destruct (first_stop_failure attempts); [reflexivity|].
  destruct cross_stop; reflexivity.
Qed.

Lemma run_attempts_stops (test : TestCase)
    (sessions : list (outcome Env * outcome unit)) :
  forall i, first_stop_failure (run_attempts i test sessions)
            = first_stop_failure sessions.
Proof.
  induction sessions as [|[setup [[]|e]] rest IH]; intros i; simpl;
    [reflexivity|apply IH|reflexivity].
Qed.

Lemma run_attempts_statuses (test : TestCase)
    (sessions : list (outcome Env * outcome unit)) :
  forall i, map recorded_status (map fst (run_attempts i test sessions))
            = map (fun s => Some (attempt_status test (fst s))) sessions.
Proof.
  induction sessions as [|[[env|e] stop] rest IH]; intros i; simpl.
  - reflexivity.
  - rewrite execute_test_status, IH. reflexivity.
  - rewrite IH. reflexivity.
Qed.

Lemma attempt_status_values (test : TestCase) (setup : outcome Env) :
  attempt_status test setup = "passed" \/
  attempt_status test setup = "failed" \/
  attempt_status test setup = "error".
Proof.
  unfold attempt_status. destruct setup as [env|e]; [|auto].
  destruct (env_final env); [|auto].
  destruct (all_steps_pass env 0 (tc_steps test)); auto.
Qed.

Lemma attempt_status_truthy (test : TestCase) (setup : outcome Env) :
  truthy (Some (attempt_status test setup)) = true.
Proof.
  destruct (attempt_status_values test setup) as [E|[E|E]]; rewrite E;
    reflexivity.
Qed.

Lemma filter_truthy_statuses (test : TestCase)
    (sessions : list (outcome Env * outcome unit)) :
  filter truthy (map (fun s => Some (attempt_status test (fst s))) sessions)
  = map (fun s => Some (attempt_status test (fst s))) sessions.
Proof.
  induction sessions as [|s rest IH]; [reflexivity|]. cbn [filter map].
  rewrite attempt_status_truthy, IH. reflexivity.
Qed.

Lemma session_runs_statuses (test : TestCase)
    (sessions : list (outcome Env * outcome unit)) :
  map status (session_runs test sessions)
  = map (fun s => Some (attempt_status test (fst s))) sessions.
Proof.
  unfold session_runs. rewrite recorded_runs_statuses.
  apply run_attempts_statuses.
Qed.

Lemma session_runs_valid_statuses (test : TestCase)
    (sessions : list (outcome Env * outcome unit)) :
  valid_statuses (session_runs test sessions)
  = map (fun s => Some (attempt_status test (fst s))) sessions.
Proof.
  unfold valid_statuses. rewrite session_runs_statuses.
  apply filter_truthy_statuses.
Qed.

Lemma validate_test_char (test : TestCase)
    (sessions : list (outcome Env * outcome unit))
    (cross_setup : outcome Env) (cross_stop : outcome unit) :
  validate_test test sessions cross_setup cross_stop
  = match first_stop_failure sessions, cross_stop with
    | Some e, _ => Raises e
    | None, Raises e => Raises e
    | None, Returns _ =>
        Returns (validated_result test (session_runs test sessions)
                   (cross_validation_record
                      (run_attempt "cross_validator" test cross_setup)
                      (session_runs test sessions)))
    end.
Proof.
  unfold validate_test. rewrite execute_with_validation_char.
  rewrite run_attempts_stops. reflexivity.
Qed.

Lemma validate_test_returns (test : TestCase)
    (sessions : list (outcome Env * outcome unit))
    (cross_setup : outcome Env) (cross_stop : outcome unit)
    (vr : ValidatedResult) :
  validate_test test sessions cross_setup cross_stop = Returns vr <->
  (forall s, In s sessions -> snd s = Returns tt) /\
  cross_stop = Returns tt /\
  vr = validated_result test (session_runs test sessions)
         (cross_validation_record
            (run_attempt "cross_validator" test cross_setup)
            (session_runs test sessions)).
Proof.
  rewrite validate_test_char. rewrite <- first_stop_failure_none.
  destruct (first_stop_failure sessions) as [e|].
  - split; [discriminate|]. intros [H _]. discriminate.
  - destruct cross_stop as [[]|e].
    + split.
      * intros H. injection H as H. auto.
      * intros [_ [_ H]]. rewrite H. reflexivity.
    + split; [discriminate|]. intros [_ [H _]]. discriminate.
Qed.

Lemma cross_agrees_record (attempt : outcome RunResult)
    (rs : list RunResult) :
  cross_agrees (cross_validation_record attempt rs) = true <->
  exists r, attempt = Returns r /\
            forall s, In s (map status rs) -> s = status r.
Proof.
  destruct attempt as [r|e]; simpl.
  - unfold cross_agrees. simpl. rewrite forallb_forall. split.
    + intros H. exists r. split; [reflexivity|].
      intros s Hs. apply status_eqb_eq. apply H. exact Hs.
    + intros [r' [E H]]. injection E as E. subst r'.
      intros s Hs. apply status_eqb_eq. apply H. exact Hs.
  - split; [discriminate|]. intros [r [E _]]. discriminate.
Qed.

End PipelineFacts.

(** X16.  When every [browser.stop()] returns, the repeat loop records one
    run per attempt, in order: run [i] carries [run_index = i]; an attempt
    whose set-up raises is recorded as a run with status "error" and the
    exception's message, and the loop goes on with the next attempt.  When a
    [browser.stop()] raises, the loop is left with that exception and no
    runs are returned, whatever the attempts before and after it did. *)
Theorem repeat_loop_records_every_attempt
    (attempts : list (outcome RunResult * outcome unit)) :
  ((forall a, In a attempts -> snd a = Returns tt) ->
   exists rs,
     repeat_runs 0 attempts = Returns rs /\
     List.length rs = List.length attempts /\
     forall i body stop, nth_error attempts i = Some (body, stop) ->
       exists r, nth_error rs i = Some r /\
                 run_index r = Some i /\
                 match body with
                 | Returns r0 => status r = status r0 /\
                                 error r = error r0 /\ steps r = steps r0
                 | Raises e => status r = Some "error" /\ error r = Some e
                 end) /\
  (forall before body e after,
     attempts = (before ++ (body, Raises e) :: after)%list ->
     (forall a, In a before -> snd a = Returns tt) ->
     repeat_runs 0 attempts = Raises e).
Proof.
  split.
  - intros Hall. apply first_stop_failure_none in Hall.
    exists (recorded_runs 0 (map fst attempts)).
    split; [rewrite repeat_runs_char, Hall; reflexivity|].
    split; [rewrite recorded_runs_length; apply length_map|].
    intros i body stop H.
    assert (Hb : nth_error (map fst attempts) i = Some body).
    { rewrite nth_error_map, H. reflexivity. }
    rewrite (recorded_runs_nth _ 0 i body Hb).
    destruct body as [r0|e]; eexists; (split; [reflexivity|]); simpl; auto.
  - intros before body e after E Hall. subst attempts.
    rewrite repeat_runs_char, (first_stop_failure_some _ _ _ _ Hall).
    reflexivity.
Qed.

Lemma repeat_loop_records_every_attempt_witness :
  let recorded := [(Raises "browser failed to start", Returns tt);
                   (Returns passed_run, Returns tt)] in
  let abandoned := [(Returns passed_run, Returns tt);
                    (Returns passed_run, Raises "browser has been closed");
                    (Returns passed_run, Returns tt)] in
  (forall a, In a recorded -> snd a = Returns tt) /\
  (exists rs, repeat_runs 0 recorded = Returns rs /\
              List.length rs = 2%nat /\
              exists r, nth_error rs 0 = Some r /\
                        status r = Some "error" /\
                        error r = Some "browser failed to start") /\
  repeat_runs 0 abandoned = Raises "browser has been closed".
Proof.
  intros recorded abandoned.
  assert (H : forall a, In a recorded -> snd a = Returns tt).
  { intros a [E|[E|[]]]; subst a; reflexivity. }
  split; [exact H|]. split.
  - destruct (proj1 (repeat_loop_records_every_attempt recorded) H)
      as [rs [Hr [Hl Hn]]].
    exists rs. split; [exact Hr|]. split; [exact Hl|].
    destruct (Hn 0%nat (Raises "browser failed to start") (Returns tt)
                eq_refl) as [r [Hr0 [_ [Hs He]]]].
    exists r. auto.
  - apply (proj2 (repeat_loop_records_every_attempt abandoned)
             [(Returns passed_run, Returns tt)] (Returns passed_run)
             "browser has been closed" [(Returns passed_run, Returns tt)]).
    + reflexivity.
    + intros a [E|[]]; subst a; reflexivity.
Defined.

(** X17.  The validation of a test case returns a result exactly when every
    [browser.stop()] of the repeat runs and of the cross-validation run
    returns.  In a result every recorded run ends with status "passed",
    "failed" or "error", so every run counts as valid: the verdict's
    [total_runs] is the number of repeat runs, and the verdict is
    INCONCLUSIVE only when the repeat count is zero. *)
Theorem validation_counts_every_run (test : TestCase)
    (sessions : list (outcome Env * outcome unit))
    (cross_setup : outcome Env) (cross_stop : outcome unit) :
  ((exists vr,
      validate_test test sessions cross_setup cross_stop = Returns vr) <->
   (forall s, In s sessions -> snd s = Returns tt) /\
   cross_stop = Returns tt) /\
  (forall vr,
     validate_test test sessions cross_setup cross_stop = Returns vr ->
     List.length (runs vr) = List.length sessions /\
     (forall r, In r (runs vr) ->
        status r = Some "passed" \/ status r = Some "failed" \/
        status r = Some "error") /\
     (exists v, verdict vr = Some v /\
        (result v = "INCONCLUSIVE" <-> sessions = []) /\
        (sessions <> [] -> total_runs v = Some (List.length sessions)))).
Proof.
  split.
  { split.
    - intros [vr H]. apply validate_test_returns in H. tauto.
    - intros [H1 H2]. eexists. apply validate_test_returns.
      split; [exact H1|]. split; [exact H2|reflexivity]. }
  intros vr Hvr. apply validate_test_returns in Hvr.
  destruct Hvr as [_ [_ Hvr]]. subst vr. unfold validated_result.
  cbn [runs verdict].
  set (rs := session_runs test sessions).
  set (cross := cross_validation_record _ rs).
  pose proof (session_runs_valid_statuses test sessions) as Hv. fold rs in Hv.
  pose proof (session_runs_statuses test sessions) as Hs. fold rs in Hs.
  split.
  { rewrite <- (length_map status rs), Hs, length_map. reflexivity. }
  split.
  { intros r Hr. apply (in_map status) in Hr. rewrite Hs in Hr.
    apply in_map_iff in Hr. destruct Hr as [s [E _]]. rewrite <- E.
    destruct (attempt_status_values test (fst s)) as [H|[H|H]];
      rewrite H; auto. }
  exists (determine_verdict rs cross). split; [reflexivity|].
  destruct sessions as [|s0 rest].
  - simpl in Hv. rewrite determine_verdict_empty by exact Hv. simpl.
    split; [tauto|congruence].
  - assert (Hne : valid_statuses rs <> []) by (rewrite Hv; discriminate).
    split.
    + split; [|discriminate]. intros H. exfalso.
      pose proof (verdict_result_cases rs cross Hne) as Hr. cbv zeta in Hr.
      rewrite H in Hr. revert Hr.
      repeat match goal with
             | |- context [if ?c then _ else _] => destruct c
             end; discriminate.
    + intros _. rewrite determine_verdict_nonempty by exact Hne.
      destruct (adjust_for_cross _ _) as [[res conf] rsn].
      cbn [total_runs]. rewrite Hv, length_map. reflexivity.
Qed.

Lemma validation_counts_every_run_witness :
  let sessions := [(Returns env_all_good, Returns tt);
                   (Raises "browser failed to start", Returns tt)] in
  (forall vr,
     validate_test sample_test sessions (Returns env_all_good) (Returns tt)
     = Returns vr ->
     List.length (runs vr) = 2%nat) /\
  (exists vr,
     validate_test sample_test sessions (Returns env_all_good) (Returns tt)
     = Returns vr) /\
  ~ (exists vr,
       validate_test sample_test sessions (Returns env_all_good)
         (Raises "browser has been closed") = Returns vr).
Proof.
  intros sessions.
  pose proof (validation_counts_every_run sample_test sessions
                (Returns env_all_good) (Returns tt)) as [Hret Hall].
  pose proof (validation_counts_every_run sample_test sessions
                (Returns env_all_good) (Raises "browser has been closed"))
    as [Hret' _].
  split; [|split].
  - intros vr Hvr. exact (proj1 (Hall vr Hvr)).
  - apply Hret. split; [|reflexivity].
    intros s [E|[E|[]]]; subst s; reflexivity.
  - intros H. apply Hret' in H. destruct H as [_ H]. discriminate.
Defined.

(** X18.  The validation of a test case returns a result with verdict PASS
    exactly when the repeat count is not zero, every repeat run as well as
    the cross-validation run ends "passed" (it sets up, executes every step
    without failure and captures its final artifacts), and every
    [browser.stop()] returns. *)
Theorem validation_pass_iff (test : TestCase)
    (sessions : list (outcome Env * outcome unit))
    (cross_setup : outcome Env) (cross_stop : outcome unit) :
  (exists vr v,
     validate_test test sessions cross_setup cross_stop = Returns vr /\
     verdict vr = Some v /\ result v = "PASS") <->
  sessions <> [] /\
  (forall s, In s sessions ->
     attempt_status test (fst s) = "passed" /\ snd s = Returns tt) /\
  attempt_status test cross_setup = "passed" /\
  cross_stop = Returns tt.
Proof.
  set (rs := session_runs test sessions).
  set (cattempt := run_attempt "cross_validator" test cross_setup).
  pose proof (session_runs_valid_statuses test sessions) as Hv. fold rs in Hv.
  pose proof (session_runs_statuses test sessions) as Hs. fold rs in Hs.
  assert (Hcs : recorded_status cattempt
                = Some (attempt_status test cross_setup)).
  { unfold cattempt. destruct cross_setup as [env|e]; simpl; [|reflexivity].
    apply execute_test_status. }
  split.
  - intros [vr [v [Hvr [Ev Hr]]]]. apply validate_test_returns in Hvr.
    destruct Hvr as [Hstops [Hcstop Hvr]]. subst vr.
    unfold validated_result in Ev. cbn [verdict] in Ev.
    injection Ev as Ev. subst v. fold rs cattempt in Hr.
    apply verdict_pass_char in Hr. destruct Hr as [Hne [Hall Hc]].
    rewrite Hv in Hne, Hall.
    assert (Hall' : forall s, In s sessions ->
                      attempt_status test (fst s) = "passed").
    { intros s Hin.
      assert (H : Some (attempt_status test (fst s)) = Some "passed").
      { apply Hall. apply in_map_iff. exists s. auto. }
      congruence. }
    split; [destruct sessions; [exfalso; apply Hne; reflexivity|discriminate]|].
    split; [intros s Hin; split; [apply Hall'|apply Hstops]; exact Hin|].
    split; [|exact Hcstop].
    apply cross_agrees_record in Hc. destruct Hc as [r [Er Heq]].
    rewrite Er in Hcs. simpl in Hcs.
    destruct sessions as [|s0 rest]; [exfalso; apply Hne; reflexivity|].
    rewrite Hs in Heq.
    specialize (Heq (Some (attempt_status test (fst s0))) (or_introl eq_refl)).
    rewrite (Hall' s0 (or_introl eq_refl)) in Heq. congruence.
  - intros [Hne [Hall [Hc Hcstop]]].
    eexists. eexists. split.
    { apply validate_test_returns. split; [intros s Hin; apply Hall, Hin|].
      split; [exact Hcstop|reflexivity]. }
    split; [reflexivity|]. fold rs cattempt.
    apply verdict_pass_char. rewrite Hv.
    split; [destruct sessions; [congruence|discriminate]|]. split.
    + intros s Hin. apply in_map_iff in Hin. destruct Hin as [s' [E Hin]].
      rewrite <- E, (proj1 (Hall s' Hin)). reflexivity.
    + apply cross_agrees_record.
      destruct cattempt as [r|e] eqn:Ec; simpl in Hcs.
      * exists r. split; [reflexivity|]. rewrite Hs. intros s Hin.
        apply in_map_iff in Hin. destruct Hin as [s' [E Hin]].
        rewrite <- E, (proj1 (Hall s' Hin)), Hcs, Hc. reflexivity.
      * rewrite Hc in Hcs. discriminate.
Qed.

Section LearningPipeline.

Lemma record_for_learning_cases (kb : KnowledgeBase) (url : string)
    (test : TestCase) (results : ValidatedResult) :
  (confident_pass results ->
   record_for_learning kb url test results =
     (kb ++ [ {| game_url := url; kb_test_case := test; kb_result := "PASS";
                 execution_time := 0; kb_artifacts := None |} ])%list) /\
  (~ confident_pass results ->
   record_for_learning kb url test results = kb).
Proof.
  pose proof (confident_pass_iff results) as Hc.
  unfold record_for_learning.
  destruct (String.eqb _ "PASS" && Qle_bool 80 _)%bool eqn:E.
  - assert (Hp : confident_pass results) by (apply Hc; reflexivity).
    destruct Hp as [v [x [Hv [Hr [Hx Hle]]]]].
    rewrite Hv, Hr. split; [reflexivity|].
    intros Hn. exfalso. apply Hn. apply Hc. reflexivity.
  - split; [|reflexivity]. intros Hp. apply Hc in Hp. congruence.
Qed.

Lemma pass_implies_unanimous (rs : list RunResult)
    (cross_attempt : outcome RunResult) :
  result (determine_verdict rs (cross_validation_record cross_attempt rs))
    = "PASS" ->
  rs <> [] /\ forall r, In r rs -> status r = Some "passed".
Proof.
  intros H. apply verdict_pass_char in H. destruct H as [Hne [Hall Hc]].
  apply cross_agrees_record in Hc. destruct Hc as [r [_ Heq]].
  assert (Hr : status r = Some "passed").
  { destruct (valid_statuses rs) as [|s0 l0] eqn:E; [congruence|].
    assert (Hin : In s0 (valid_statuses rs)) by (rewrite E; left; reflexivity).
    rewrite <- E in Hall. pose proof (Hall s0 Hin) as Hs0.
    unfold valid_statuses in Hin. apply filter_In in Hin.
    rewrite <- (Heq s0 (proj1 Hin)). exact Hs0. }
  split.
  - intros E. apply Hne. rewrite E. reflexivity.
  - intros r' Hr'. rewrite <- Hr. apply Heq. apply in_map. exact Hr'.
Qed.

Lemma pass_is_fully_reproducible (rs : list RunResult)
    (cross_attempt : outcome RunResult) :
  result (determine_verdict rs (cross_validation_record cross_attempt rs))
    = "PASS" ->
  calculate_reproducibility rs = inject_Z 100.
Proof.
  intros H. destruct (pass_implies_unanimous rs cross_attempt H)
    as [Hne Hall].
  destruct (calculate_reproducibility_modal _ Hne) as [m [Hmod Hc]].
  pose proof (unanimous_modal_count _ (Some "passed") m
                (statuses_of_unanimous _ _ Hall) Hmod) as Hm.
  rewrite length_map in Hm. subst m. rewrite Hc. apply code_score_diag.
  destruct rs; [congruence|simpl; lia].
Qed.

Lemma pass_is_confident (test : TestCase) (rs : list RunResult)
    (cross_attempt : outcome RunResult) :
  confident_pass (validated_result test rs
                    (cross_validation_record cross_attempt rs)) <->
  result (determine_verdict rs (cross_validation_record cross_attempt rs))
  = "PASS".
Proof.
  unfold confident_pass, validated_result. cbn [verdict reproducibility].
  split.
  - intros [v [x [Ev [Hr _]]]]. injection Ev as Ev. subst v. exact Hr.
  - intros H. eexists. eexists. split; [reflexivity|]. split; [exact H|].
    split; [reflexivity|].
    rewrite (pass_is_fully_reproducible rs cross_attempt H). discriminate.
Qed.

Lemma execute_with_validation_returns (test : TestCase)
    (attempts : list (outcome RunResult * outcome unit))
    (cross_attempt : outcome RunResult) (cross_stop : outcome unit)
    (vr : ValidatedResult) :
  execute_with_validation test attempts cross_attempt cross_stop = Returns vr
  <->
  (forall a, In a attempts -> snd a = Returns tt) /\
  cross_stop = Returns tt /\
  vr = validated_result test (recorded_runs 0 (map fst attempts))
         (cross_validation_record cross_attempt
            (recorded_runs 0 (map fst attempts))).
Proof.
  rewrite execute_with_validation_char. rewrite <- first_stop_failure_none.
  destruct (first_stop_failure attempts) as [e|].
  - split; [discriminate|]. intros [H _]. discriminate.
  - destruct cross_stop as [[]|e].
    + split.
      * intros H. injection H as H. auto.
      * intros [_ [_ H]]. rewrite H. reflexivity.
    + split; [discriminate|]. intros [_ [H _]]. discriminate.
Qed.

End LearningPipeline.

(** X19.  For a result returned by the validation of a test case, the
    reproducibility threshold of [_record_for_learning] never decides: a
    PASS verdict comes with reproducibility 100.0, so the knowledge base
    receives a write exactly when the verdict is PASS. *)
Theorem learning_follows_pass (kb : KnowledgeBase) (url : string)
    (test : TestCase) (attempts : list (outcome RunResult * outcome unit))
    (cross_attempt : outcome RunResult) (cross_stop : outcome unit)
    (vr : ValidatedResult) :
  execute_with_validation test attempts cross_attempt cross_stop
  = Returns vr ->
  let passes :=
    exists v, verdict vr = Some v /\ result v = "PASS" in
  (passes -> reproducibility vr = Some (inject_Z 100)) /\
  (passes ->
   record_for_learning kb url test vr =
     (kb ++ [ {| game_url := url; kb_test_case := test; kb_result := "PASS";
                 execution_time := 0; kb_artifacts := None |} ])%list) /\
  (~ passes -> record_for_learning kb url test vr = kb).
Proof.
  intros Hvr. apply execute_with_validation_returns in Hvr.
  destruct Hvr as [_ [_ Hvr]]. cbv zeta.
  set (rs := recorded_runs 0 (map fst attempts)) in Hvr.
  pose proof (pass_is_confident test rs cross_attempt) as Hpc.
  rewrite <- Hvr in Hpc.
  pose proof (record_for_learning_cases kb url test vr) as [Hyes Hno].
  assert (Hiff : (exists v, verdict vr = Some v /\ result v = "PASS") <->
           result (determine_verdict rs
                     (cross_validation_record cross_attempt rs)) = "PASS").
  { rewrite Hvr. unfold validated_result. cbn [verdict]. split.
    - intros [v [Ev Hr]]. injection Ev as Ev. subst v. exact Hr.
    - intros H. eexists. split; [reflexivity|exact H]. }
  split; [|split].
  - intros Hp. apply Hiff in Hp. rewrite Hvr. unfold validated_result.
    cbn [reproducibility]. f_equal.
    exact (pass_is_fully_reproducible rs cross_attempt Hp).
  - intros Hp. apply Hyes. apply Hpc. apply Hiff. exact Hp.
  - intros Hn. apply Hno. intros Hc. apply Hn. apply Hiff. apply Hpc.
    exact Hc.
Qed.

Lemma learning_follows_pass_witness :
  let attempts := [(Returns passed_run, Returns tt);
                   (Returns passed_run, Returns tt)] in
  exists vr,
    execute_with_validation sample_test attempts (Returns passed_run)
      (Returns tt) = Returns vr /\
    (exists v, verdict vr = Some v /\ result v = "PASS") /\
    reproducibility vr = Some (inject_Z 100) /\
    List.length (record_for_learning [] "http://game" sample_test vr) = 1%nat.
Proof.
  intros attempts. eexists. split; [reflexivity|].
  match goal with
  | |- (exists v, verdict ?x = _ /\ _) /\ _ => set (vr := x)
  end.
  assert (Hp : exists v, verdict vr = Some v /\ result v = "PASS").
  { eexists. split; [reflexivity|]. vm_compute. reflexivity. }
  destruct (learning_follows_pass [] "http://game" sample_test attempts
              (Returns passed_run) (Returns tt) vr eq_refl) as [Hr [Hw _]].
  split; [exact Hp|]. split; [exact (Hr Hp)|].
  rewrite (Hw Hp). reflexivity.
Defined.

Section SessionFacts.

Lemma stops_return_validation (t : TestOracle) :
  stops_return t ->
  validation_of t
  = Returns (validated_result (to_test t)
               (recorded_runs 0 (map fst (to_attempts t)))
               (cross_validation_record (to_cross t)
                  (recorded_runs 0 (map fst (to_attempts t))))).
Proof.
  intros [H1 H2]. apply execute_with_validation_returns.
  split; [exact H1|]. split; [exact H2|reflexivity].
Qed.

Lemma validation_passes_confident (t : TestOracle) (vr : ValidatedResult) :
  validation_of t = Returns vr ->
  (validation_passes t = true <-> confident_pass vr).
Proof.
  intros Hvr. unfold validation_passes. rewrite Hvr.
  apply execute_with_validation_returns in Hvr.
  destruct Hvr as [_ [_ Hvr]]. subst vr. rewrite pass_is_confident.
  unfold validated_result. cbn [verdict]. apply String.eqb_eq.
Qed.

Lemma record_for_learning_grows (kb : KnowledgeBase) (url : string)
    (t : TestOracle) (vr : ValidatedResult) :
  validation_of t = Returns vr ->
  exists w,
    record_for_learning kb url (to_test t) vr = (kb ++ w)%list /\
    map kb_test_case w = map to_test (filter validation_passes [t]) /\
    Forall (fun w => kb_result w = "PASS" /\ game_url w = url) w.
Proof.
  intros Hvr.
  destruct (record_for_learning_cases kb url (to_test t) vr) as [Hyes Hno].
  pose proof (validation_passes_confident t vr Hvr) as Hvp.
  cbn [filter]. destruct (validation_passes t) eqn:Ev.
  - rewrite (Hyes (proj1 Hvp eq_refl)). eexists. split; [reflexivity|].
    split; [reflexivity|]. constructor; [simpl; auto|constructor].
  - rewrite Hno.
    + exists []. rewrite app_nil_r. split; [reflexivity|].
      split; [reflexivity|constructor].
    + intros Hc. apply Hvp in Hc. discriminate.
Qed.

Lemma execute_tests_loop_grows (url : string) (tests : list TestOracle) :
  forall kb, exists added,
    fst (execute_tests_loop kb url tests) = (kb ++ added)%list /\
    Forall (fun w => kb_result w = "PASS" /\ game_url w = url) added.
Proof.
  induction tests as [|t rest IH]; intros kb.
  - exists []. rewrite app_nil_r. split; [reflexivity|constructor].
  - cbn [execute_tests_loop]. destruct (validation_of t) as [vr|e] eqn:Hvr.
    + destruct (record_for_learning_grows kb url t vr Hvr)
        as [w [Hw [_ Hall]]].
      destruct (IH (record_for_learning kb url (to_test t) vr))
        as [added [Hkb Hadded]].
      destruct (execute_tests_loop _ url rest) as [kb' [rs|e]];
        cbn [fst] in *; exists (w ++ added)%list;
        (split; [rewrite Hkb, Hw, app_assoc; reflexivity|]);
        apply Forall_app; auto.
    + exists []. rewrite app_nil_r. split; [reflexivity|constructor].
Qed.

Lemma execute_tests_loop_clean (url : string) (tests : list TestOracle) :
  forall kb, (forall t, In t tests -> stops_return t) ->
  exists results added,
    execute_tests_loop kb url tests = ((kb ++ added)%list, Returns results) /\
    map vr_test_id results = map (fun t => tc_id (to_test t)) tests /\
    map kb_test_case added = map to_test (filter validation_passes tests).
Proof.
  induction tests as [|t rest IH]; intros kb Hall.
  - exists [], []. rewrite app_nil_r. repeat split.
  - cbn [execute_tests_loop].
    pose proof (stops_return_validation t (Hall t (or_introl eq_refl))) as Hvr.
    rewrite Hvr.
    destruct (record_for_learning_grows kb url t _ Hvr) as [w [Hw [Hm _]]].
    destruct (IH (record_for_learning kb url (to_test t)
                    (validated_result (to_test t)
                       (recorded_runs 0 (map fst (to_attempts t)))
                       (cross_validation_record (to_cross t)
                          (recorded_runs 0 (map fst (to_attempts t)))))))
      as [results [added [Hl [Hids Hmap]]]].
    { intros t' Hin. apply Hall. right. exact Hin. }
    rewrite Hl. eexists. exists (w ++ added)%list.
    split; [rewrite Hw, app_assoc; reflexivity|]. split.
    + cbn [map]. rewrite Hids. reflexivity.
    + rewrite map_app, Hm, Hmap. cbn [filter].
      destruct (validation_passes t); reflexivity.
Qed.

Lemma execute_tests_loop_abandoned (url : string) (before : list TestOracle)
    (t : TestOracle) (after : list TestOracle) (e : string) :
  forall kb, (forall t', In t' before -> stops_return t') ->
  validation_of t = Raises e ->
  exists added,
    execute_tests_loop kb url (before ++ t :: after)
    = ((kb ++ added)%list, Raises e) /\
    map kb_test_case added = map to_test (filter validation_passes before).
Proof.
  induction before as [|b rest IH]; intros kb Hall Ht.
  - exists []. cbn [app execute_tests_loop]. rewrite Ht, app_nil_r.
    split; reflexivity.
  - cbn [app execute_tests_loop].
    pose proof (stops_return_validation b (Hall b (or_introl eq_refl))) as Hvr.
    rewrite Hvr.
    destruct (record_for_learning_grows kb url b _ Hvr) as [w [Hw [Hm _]]].
    destruct (IH (record_for_learning kb url (to_test b)
                    (validated_result (to_test b)
                       (recorded_runs 0 (map fst (to_attempts b)))
                       (cross_validation_record (to_cross b)
                          (recorded_runs 0 (map fst (to_attempts b)))))))
      as [added [Hl Hmap]].
    { intros t' Hin. apply Hall. right. exact Hin. }
    { exact Ht. }
    rewrite Hl. exists (w ++ added)%list.
    split; [rewrite Hw, app_assoc; reflexivity|].
    rewrite map_app, Hm, Hmap. cbn [filter].
    destruct (validation_passes b); reflexivity.
Qed.

End SessionFacts.

(** X20.  A session only appends to the knowledge base, entries with result
    "PASS".  When the artifact directory can be created and every
    [browser.stop()] returns, the session returns one result per test, in
    the order of the tests, and the entries added are, in test order, one
    for each test whose verdict is PASS.  When the artifact directory cannot
    be created the session raises before any test runs.  When the validation
    of a test raises, the session raises that exception and returns no
    results, while the entries written for the tests before it stay. *)
Theorem session_results_and_learning (url : string)
    (tests : list TestOracle) (kb : KnowledgeBase) (capture : outcome unit) :
  (exists added,
     fst (execute_tests capture kb url tests) = (kb ++ added)%list /\
     Forall (fun w => kb_result w = "PASS" /\ game_url w = url) added) /\
  (capture = Returns tt -> (forall t, In t tests -> stops_return t) ->
   exists results added,
     execute_tests capture kb url tests
     = ((kb ++ added)%list, Returns results) /\
     map vr_test_id results = map (fun t => tc_id (to_test t)) tests /\
     map kb_test_case added = map to_test (filter validation_passes tests)) /\
  (forall e, capture = Raises e ->
     execute_tests capture kb url tests = (kb, Raises e)) /\
  (forall before t after e,
     capture = Returns tt -> tests = (before ++ t :: after)%list ->
     (forall t', In t' before -> stops_return t') ->
     validation_of t = Raises e ->
     exists added,
       execute_tests capture kb url tests = ((kb ++ added)%list, Raises e) /\
       map kb_test_case added
       = map to_test (filter validation_passes before)).
Proof.
  split; [|split; [|split]].
  - destruct capture as [[]|e]; cbn [execute_tests].
    + apply execute_tests_loop_grows.
    + exists []. rewrite app_nil_r. split; [reflexivity|constructor].
  - intros Hc Hall. subst capture. cbn [execute_tests].
    apply execute_tests_loop_clean. exact Hall.
  - intros e Hc. subst capture. reflexivity.
  - intros before t after e Hc Ht Hall Hv. subst capture tests.
    cbn [execute_tests]. apply execute_tests_loop_abandoned; assumption.
Qed.

Lemma session_results_and_learning_witness :
  let tests := [passing_oracle; stop_raises_oracle; passing_oracle] in
  stops_return passing_oracle /\
  validation_passes passing_oracle = true /\
  validation_of stop_raises_oracle = Raises "browser has been closed" /\
  (exists w,
     execute_tests (Returns tt) [] "http://game" tests
     = ([w], Raises "browser has been closed")) /\
  (exists results added,
     execute_tests (Returns tt) [] "http://game"
       [passing_oracle; passing_oracle]
     = (added, Returns results) /\
     List.length results = 2%nat /\ List.length added = 2%nat) /\
  execute_tests (Raises "permission denied") [] "http://game" tests
  = ([], Raises "permission denied").
Proof.
  intros tests.
  assert (Hs : stops_return passing_oracle).
  { split; [|reflexivity]. intros a [E|[E|[]]]; subst a; reflexivity. }
  assert (Hp : validation_passes passing_oracle = true)
    by (vm_compute; reflexivity).
  assert (Hr : validation_of stop_raises_oracle
               = Raises "browser has been closed") by reflexivity.
  split; [exact Hs|]. split; [exact Hp|]. split; [exact Hr|].
  split; [|split].
  - destruct (session_results_and_learning "http://game" tests []
                (Returns tt)) as [_ [_ [_ Hab]]].
    destruct (Hab [passing_oracle] stop_raises_oracle [passing_oracle]
                "browser has been closed" eq_refl eq_refl) as [added [He Hm]].
    + intros t' [E|[]]; subst t'; exact Hs.
    + exact Hr.
    + cbn [filter] in Hm. rewrite Hp in Hm.
      destruct added as [|w [|w' added]]; try discriminate Hm.
      exists w. exact He.
  - destruct (session_results_and_learning "http://game"
                [passing_oracle; passing_oracle] [] (Returns tt))
      as [_ [Hclean _]].
    destruct (Hclean eq_refl) as [results [added [He [Hids Hm]]]].
    + intros t' [E|[E|[]]]; subst t'; exact Hs.
    + exists results, added. split; [exact He|]. split.
      * rewrite <- (length_map vr_test_id), Hids. reflexivity.
      * rewrite <- (length_map kb_test_case), Hm. cbn [filter].
        rewrite Hp. reflexivity.
  - destruct (session_results_and_learning "http://game" tests []
                (Raises "permission denied")) as [_ [_ [Hcap _]]].
    exact (Hcap "permission denied" eq_refl).
Defined.

(* ================================================================== *)
(** ** The analyzer *)

Section SummaryFacts.
Local Open Scope Z_scope.

Lemma has_result_exclusive (k1 k2 : string) (r : ValidatedResult) :
  k1 <> k2 -> has_result k1 r = true -> has_result k2 r = false.
Proof.
  unfold has_result. destruct (verdict_result_of r) as [s|]; [|discriminate].
  intros Hk H1. apply String.eqb_eq in H1. subst s.
  apply String.eqb_neq. exact Hk.
Qed.

(** The three counted kinds and the remaining results partition the list. *)
Lemma count_results_partition (results : list ValidatedResult) :
  (count_results "PASS" results + count_results "FAIL" results
   + count_results "FLAKY" results
   + List.length
       (filter (fun r => negb (has_result "PASS" r || has_result "FAIL" r
                               || has_result "FLAKY" r)) results)
   = List.length results)%nat.
Proof.
  unfold count_results. induction results as [|r rs IH]; [reflexivity|].
  cbn [filter].
  destruct (has_result "PASS" r) eqn:Ep.
  - rewrite (has_result_exclusive "PASS" "FAIL" r ltac:(discriminate) Ep).
    rewrite (has_result_exclusive "PASS" "FLAKY" r ltac:(discriminate) Ep).
    simpl. lia.
  - destruct (has_result "FAIL" r) eqn:Ef.
    + rewrite (has_result_exclusive "FAIL" "FLAKY" r ltac:(discriminate) Ef).
      simpl. lia.
    + destruct (has_result "FLAKY" r) eqn:Ek; simpl; lia.
Qed.

Lemma count_results_all (kind : string) (results : list ValidatedResult) :
  (forall r, In r results -> has_result kind r = true) ->
  count_results kind results = List.length results.
Proof.
  intros H. unfold count_results. induction results as [|r rs IH];
    [reflexivity|].
  cbn [filter]. rewrite (H r (or_introl eq_refl)). simpl. f_equal.
  apply IH. intros r' Hr'. apply H. right. exact Hr'.
Qed.

Lemma count_results_none (kind : string) (results : list ValidatedResult) :
  (forall r, In r results -> has_result kind r = false) ->
  count_results kind results = 0%nat.
Proof.
  intros H. unfold count_results. induction results as [|r rs IH];
    [reflexivity|].
  cbn [filter]. rewrite (H r (or_introl eq_refl)).
  apply IH. intros r' Hr'. apply H. right. exact Hr'.
Qed.

Lemma count_results_le (kind : string) (results : list ValidatedResult) :
  (count_results kind results <= List.length results)%nat.
Proof. unfold count_results. apply filter_length_le. Qed.

Lemma code_score_zero (n : nat) : code_score 0 n = 0%Q.
Proof. unfold code_score. simpl Z.of_nat. rewrite py_truediv_zero. reflexivity. Qed.

End SummaryFacts.

(** X21.  In the summary the four counters add up to the number of tests:
    [inconclusive] is never negative and counts exactly the results whose
    verdict is none of PASS, FAIL and FLAKY (a missing verdict included). *)
Theorem summary_counts_partition (results : list ValidatedResult) :
  let s := generate_summary results in
  sm_total_tests s = List.length results /\
  sm_inconclusive s
  = Z.of_nat (List.length
       (filter (fun r => negb (has_result "PASS" r || has_result "FAIL" r
                               || has_result "FLAKY" r)) results)) /\
  Z.of_nat (sm_passed s) + Z.of_nat (sm_failed s) + Z.of_nat (sm_flaky s)
  + sm_inconclusive s = Z.of_nat (sm_total_tests s).
Proof.
  cbv zeta. unfold generate_summary.
  pose proof (count_results_partition results) as Hp.
  destruct results as [|r rs]; [simpl; auto|].
  cbn [List.length Nat.eqb]. cbv zeta.
  cbn [sm_total_tests sm_passed sm_failed sm_flaky sm_inconclusive].
  cbn [List.length] in Hp. split; [reflexivity|]. split; lia.
Qed.

(** X22.  The summary of no results is NO_TESTS with every number zero.
    For at least one result the pass rate lies between 0 and 100; when every
    verdict is PASS it is 100.0 and the status is HEALTHY; when no verdict
    is PASS it is 0.0 and the status is CRITICAL. *)
Theorem summary_status_extremes (results : list ValidatedResult) :
  let s := generate_summary results in
  (results = [] ->
     sm_overall_status s = "NO_TESTS" /\ sm_pass_rate s = 0%Q /\
     sm_total_tests s = 0%nat /\ sm_inconclusive s = 0) /\
  (results <> [] ->
     sm_overall_status s <> "NO_TESTS" /\
     (0 <= sm_pass_rate s)%Q /\ (sm_pass_rate s <= inject_Z 100)%Q /\
     ((forall r, In r results -> has_result "PASS" r = true) ->
        sm_pass_rate s = inject_Z 100 /\ sm_overall_status s = "HEALTHY") /\
     ((forall r, In r results -> has_result "PASS" r = false) ->
        sm_pass_rate s = 0%Q /\ sm_overall_status s = "CRITICAL")).
Proof.
  cbv zeta. split.
  - intros E. subst results. simpl. auto.
  - intros Hne. unfold generate_summary.
    assert (Hlen : (0 < List.length results)%nat)
      by (destruct results; [congruence|simpl; lia]).
    assert (Hz : Nat.eqb (List.length results) 0 = false)
      by (apply Nat.eqb_neq; lia).
    rewrite Hz, (proj2 (Nat.ltb_lt 0 _) Hlen). cbv zeta.
    cbn [sm_overall_status sm_pass_rate].
    fold (code_score (count_results "PASS" results) (List.length results)).
    destruct (code_score_range (count_results "PASS" results)
                (List.length results) (count_results_le _ _) Hlen)
      as [H0 H1].
    split.
    { repeat match goal with
             | |- context [if ?c then _ else _] => destruct c
             end; discriminate. }
    split; [exact H0|]. split; [exact H1|]. split.
    + intros Hall. rewrite (count_results_all _ _ Hall).
      rewrite (code_score_diag _ Hlen). split; reflexivity.
    + intros Hnone. rewrite (count_results_none _ _ Hnone).
      rewrite code_score_zero. split; reflexivity.
Qed.

Section TriageFacts.

Context {A : Type} (key : A -> nat).
Hypothesis key_binary : forall x, (key x <= 1)%nat.

Lemma insert_by_key_low (x : A) (lo hi : list A) :
  key x = 0%nat ->
  Forall (fun y => key y = 0%nat) lo -> Forall (fun y => key y = 1%nat) hi ->
  insert_by_key key x (lo ++ hi) = (lo ++ [x] ++ hi)%list.
Proof.
  intros Hx Hlo Hhi. induction Hlo as [|y lo Hy Hlo IH]; simpl.
  - destruct hi as [|z hi]; [reflexivity|]. simpl.
    inversion Hhi as [|? ? Hz _]; subst. rewrite Hx, Hz. reflexivity.
  - rewrite Hx, Hy. simpl. rewrite IH. reflexivity.
Qed.

Lemma insert_by_key_high (x : A) (l : list A) :
  key x = 1%nat -> insert_by_key key x l = (l ++ [x])%list.
Proof.
  intros Hx. induction l as [|y l IH]; simpl; [reflexivity|].
  pose proof (key_binary y) as Hy. rewrite Hx.
  destruct (Nat.ltb_spec 1 (key y)); [lia|]. rewrite IH. reflexivity.
Qed.

Lemma sort_by_key_acc (l lo hi : list A) :
  Forall (fun y => key y = 0%nat) lo -> Forall (fun y => key y = 1%nat) hi ->
  fold_left (fun sorted x => insert_by_key key x sorted) l (lo ++ hi)%list
  = ((lo ++ filter (key_is_zero key) l)
     ++ (hi ++ filter (fun x => negb (key_is_zero key x)) l))%list.
Proof.
  revert lo hi. induction l as [|x l IH]; intros lo hi Hlo Hhi.
  - simpl. rewrite !app_nil_r. reflexivity.
  - cbn [fold_left filter]. pose proof (key_binary x) as Hx.
    destruct (key_is_zero key x) eqn:Ek; cbn [negb];
      unfold key_is_zero in Ek;
      [apply Nat.eqb_eq in Ek; rename Ek into E
      |apply Nat.eqb_neq in Ek; rename Ek into E].
    + rewrite insert_by_key_low by assumption.
      rewrite (app_assoc lo [x] hi).
      rewrite (IH (lo ++ [x])%list hi).
      * rewrite <- !app_assoc. reflexivity.
      * apply Forall_app. split; [exact Hlo|]. repeat constructor. exact E.
      * exact Hhi.
    + assert (E1 : key x = 1%nat) by lia.
      rewrite insert_by_key_high by exact E1.
      rewrite <- (app_assoc lo hi [x]).
      rewrite (IH lo (hi ++ [x])%list).
      * rewrite <- !app_assoc. reflexivity.
      * exact Hlo.
      * apply Forall_app. split; [exact Hhi|]. repeat constructor. exact E1.
Qed.

Lemma sort_by_key_binary (l : list A) :
  sort_by_key key l
  = (filter (key_is_zero key) l ++ filter (fun x => negb (key_is_zero key x)) l)%list.
Proof.
  unfold sort_by_key.
  apply (sort_by_key_acc l [] [] (Forall_nil _) (Forall_nil _)).
Qed.

End TriageFacts.

Section TriageNotes.

Lemma severity_key_binary (n : TriageNote) : (severity_key n <= 1)%nat.
Proof. unfold severity_key. destruct (String.eqb _ _); lia. Qed.

Lemma severity_key_note (r : ValidatedResult) :
  key_is_zero severity_key (triage_note r) = has_result "FAIL" r.
Proof.
  unfold key_is_zero, severity_key, triage_note. cbn [tn_severity].
  destruct (has_result "FAIL" r); reflexivity.
Qed.

Lemma filter_map_note (f : TriageNote -> bool) (g : ValidatedResult -> bool)
    (l : list ValidatedResult) :
  (forall r, f (triage_note r) = g r) ->
  filter f (map triage_note l) = map triage_note (filter g l).
Proof.
  intros H. induction l as [|r l IH]; [reflexivity|].
  cbn [map filter]. rewrite H. destruct (g r); simpl; rewrite IH; reflexivity.
Qed.

Lemma filter_filter {B : Type} (f g : B -> bool) (l : list B) :
  filter f (filter g l) = filter (fun x => g x && f x) l.
Proof.
  induction l as [|x l IH]; [reflexivity|]. cbn [filter].
  destruct (g x); simpl; [destruct (f x)|]; rewrite IH; reflexivity.
Qed.

Lemma filter_ext_bool {B : Type} (f g : B -> bool) (l : list B) :
  (forall x, f x = g x) -> filter f l = filter g l.
Proof.
  intros H. induction l as [|x l IH]; [reflexivity|]. cbn [filter].
  rewrite H, IH. reflexivity.
Qed.

Lemma generate_triage_notes_split (results : list ValidatedResult) :
  generate_triage_notes results
  = (map triage_note (filter (has_result "FAIL") results)
     ++ map triage_note (filter (has_result "FLAKY") results))%list.
Proof.
  unfold generate_triage_notes.
  rewrite (sort_by_key_binary severity_key severity_key_binary).
  rewrite (filter_map_note _ (has_result "FAIL"))
    by (intros r; apply severity_key_note).
  rewrite (filter_map_note _ (fun r => negb (has_result "FAIL" r)))
    by (intros r; rewrite severity_key_note; reflexivity).
  rewrite !filter_filter. f_equal; f_equal; apply filter_ext_bool; intros r.
  - destruct (has_result "FAIL" r), (has_result "FLAKY" r); reflexivity.
  - destruct (has_result "FAIL" r) eqn:Ef; simpl.
    + rewrite (has_result_exclusive "FAIL" "FLAKY" r ltac:(discriminate) Ef).
      reflexivity.
    + destruct (has_result "FLAKY" r); reflexivity.
Qed.

End TriageNotes.

(** X23.  The triage notes are one note per result whose verdict is FAIL or
    FLAKY and none for the others; the notes of the FAIL results (severity
    HIGH) come first and those of the FLAKY results (severity MEDIUM) after
    them, each group in the order of the results. *)
Theorem triage_notes_ordered (results : list ValidatedResult) :
  generate_triage_notes results
  = (map triage_note (filter (has_result "FAIL") results)
     ++ map triage_note (filter (has_result "FLAKY") results))%list /\
  Forall (fun n => tn_severity n = "HIGH")
         (map triage_note (filter (has_result "FAIL") results)) /\
  Forall (fun n => tn_severity n = "MEDIUM")
         (map triage_note (filter (has_result "FLAKY") results)) /\
  List.length (generate_triage_notes results)
  = (count_results "FAIL" results + count_results "FLAKY" results)%nat.
Proof.
  split; [apply generate_triage_notes_split|]. split; [|split].
  - apply Forall_forall. intros n Hn. apply in_map_iff in Hn.
    destruct Hn as [r [E Hr]]. apply filter_In in Hr. subst n.
    unfold triage_note. cbn [tn_severity]. rewrite (proj2 Hr). reflexivity.
  - apply Forall_forall. intros n Hn. apply in_map_iff in Hn.
    destruct Hn as [r [E Hr]]. apply filter_In in Hr. subst n.
    unfold triage_note. cbn [tn_severity].
    rewrite (has_result_exclusive "FLAKY" "FAIL" r ltac:(discriminate)
               (proj2 Hr)). reflexivity.
  - rewrite generate_triage_notes_split, length_app, !length_map.
    reflexivity.
Qed.

Section ConsistentFailure.

Lemma py_count_map_const (x st : status_t) (A : Type) (l : list A) :
  x <> st -> py_count x (map (fun _ => st) l) = 0%nat.
Proof.
  intros H. unfold py_count. apply count_occ_not_In. intros Hin.
  apply in_map_iff in Hin. destruct Hin as [_ [E _]]. congruence.
Qed.

End ConsistentFailure.

(** X24.  When the validation of a test returns a result and the repeat
    runs all end with the same status other than "passed" (every run failed,
    or every run errored, for instance because the browser cannot start),
    the verdict is FAIL, the reproducibility is 100.0, and triage rates the
    test HIGH with the action
    "Consistent failure - investigate root cause immediately". *)
Theorem unanimous_non_pass_is_consistent_failure (test : TestCase)
    (sessions : list (outcome Env * outcome unit))
    (cross_setup : outcome Env) (cross_stop : outcome unit) (st : string)
    (vr : ValidatedResult) :
  validate_test test sessions cross_setup cross_stop = Returns vr ->
  sessions <> [] -> st <> "passed" ->
  (forall s, In s sessions -> attempt_status test (fst s) = st) ->
  has_result "FAIL" vr = true /\
  reproducibility vr = Some (inject_Z 100) /\
  tn_severity (triage_note vr) = "HIGH" /\
  get_recommended_action vr
  = "Consistent failure - investigate root cause immediately".
Proof.
  intros Hvr Hne Hst Hall. apply validate_test_returns in Hvr.
  destruct Hvr as [_ [_ Hvr]].
  set (rs := session_runs test sessions) in Hvr.
  pose proof (session_runs_valid_statuses test sessions) as Hv. fold rs in Hv.
  pose proof (session_runs_statuses test sessions) as Hs. fold rs in Hs.
  assert (Hmap : map (fun s => Some (attempt_status test (fst s))) sessions
                 = map (fun _ => Some st) sessions).
  { apply map_ext_in. intros s Hin. rewrite (Hall s Hin). reflexivity. }
  rewrite Hmap in Hv, Hs.
  assert (Hrs : rs <> []).
  { intros E. rewrite E in Hs. destruct sessions; [congruence|discriminate]. }
  assert (Hfail : has_result "FAIL" vr = true).
  { rewrite Hvr. unfold has_result, verdict_result_of, validated_result.
    cbn [verdict].
    apply String.eqb_eq. apply verdict_fail_char. rewrite Hv. split.
    - destruct sessions; [congruence|discriminate].
    - rewrite py_count_map_const by congruence. lia. }
  assert (Hrep : reproducibility vr = Some (inject_Z 100)).
  { rewrite Hvr. unfold validated_result. cbn [reproducibility]. f_equal.
    destruct (calculate_reproducibility_modal rs Hrs) as [m [Hmod Hc]].
    assert (Hu : forall s, In s (map status rs) -> s = Some st).
    { rewrite Hs. intros s Hin. apply in_map_iff in Hin.
      destruct Hin as [_ [E _]]. congruence. }
    pose proof (unanimous_modal_count _ (Some st) m Hu Hmod) as Hm.
    rewrite length_map in Hm. subst m. rewrite Hc. apply code_score_diag.
    destruct rs; [congruence|simpl; lia]. }
  split; [exact Hfail|]. split; [exact Hrep|]. split.
  - unfold triage_note. cbn [tn_severity]. rewrite Hfail. reflexivity.
  - unfold get_recommended_action, reproducibility_of. rewrite Hrep.
    unfold has_result in Hfail.
    destruct (verdict_result_of vr) as [s|]; [|discriminate].
    rewrite Hfail. reflexivity.
Qed.

Lemma unanimous_non_pass_is_consistent_failure_witness :
  let sessions := [(Raises "browser failed to start", Returns tt);
                   (Raises "browser failed to start", Returns tt);
                   (Raises "browser failed to start", Returns tt)] in
  exists vr,
    validate_test sample_test sessions (Raises "browser failed to start")
      (Returns tt) = Returns vr /\
    sessions <> [] /\ "error" <> "passed" /\
    (forall s, In s sessions -> attempt_status sample_test (fst s) = "error") /\
    has_result "FAIL" vr = true /\
    get_recommended_action vr
    = "Consistent failure - investigate root cause immediately".
Proof.
  intros sessions. eexists. split; [reflexivity|].
  assert (H1 : sessions <> []) by discriminate.
  assert (H2 : "error" <> "passed") by discriminate.
  assert (H3 : forall s, In s sessions ->
                 attempt_status sample_test (fst s) = "error").
  { intros s [E|[E|[E|[]]]]; subst s; reflexivity. }
  destruct (unanimous_non_pass_is_consistent_failure sample_test sessions
              (Raises "browser failed to start") (Returns tt) "error" _
              eq_refl H1 H2 H3)
    as [Hf [_ [_ Ha]]].
  split; [exact H1|]. split; [exact H2|]. split; [exact H3|].
  split; [exact Hf|exact Ha].
Defined.

Section StatsFacts.

Lemma Qlt_bool_iff (x y : Q) : Qlt_bool x y = true <-> (x < y)%Q.
Proof.
  unfold Qlt_bool. rewrite negb_true_iff. split.
  - intros H. apply Qnot_le_lt. intros Hle.
    apply Qle_bool_iff in Hle. congruence.
  - intros H. destruct (Qle_bool y x) eqn:E; [|reflexivity].
    apply Qle_bool_iff in E. exfalso. exact (Qlt_not_le _ _ H E).
Qed.

Lemma py_min_spec (l : list Q) :
  forall x, In (py_min x l) (x :: l) /\
            (py_min x l <= x)%Q /\
            forall y, In y l -> (py_min x l <= y)%Q.
Proof.
  unfold py_min. induction l as [|z l IH]; intros x; simpl.
  - split; [auto|]. split; [apply Qle_refl|intros y []].
  - destruct (Qlt_bool z x) eqn:E.
    + apply Qlt_bool_iff in E. destruct (IH z) as [Hin [Hz Hall]].
      split; [destruct Hin as [Hin|Hin]; auto|].
      split; [eapply Qle_trans; [exact Hz|apply Qlt_le_weak; exact E]|].
      intros y [Hy|Hy]; [subst y; exact Hz|apply Hall; exact Hy].
    + assert (Hle : (x <= z)%Q).
      { apply Qnot_lt_le. intros H. apply Qlt_bool_iff in H. congruence. }
      destruct (IH x) as [Hin [Hx Hall]].
      split; [destruct Hin as [Hin|Hin]; auto|].
      split; [exact Hx|].
      intros y [Hy|Hy]; [subst y; eapply Qle_trans; eassumption
                        |apply Hall; exact Hy].
Qed.

Lemma py_max_spec (l : list Q) :
  forall x, In (py_max x l) (x :: l) /\
            (x <= py_max x l)%Q /\
            forall y, In y l -> (y <= py_max x l)%Q.
Proof.
  unfold py_max. induction l as [|z l IH]; intros x; simpl.
  - split; [auto|]. split; [apply Qle_refl|intros y []].
  - destruct (Qlt_bool x z) eqn:E.
    + apply Qlt_bool_iff in E. destruct (IH z) as [Hin [Hz Hall]].
      split; [destruct Hin as [Hin|Hin]; auto|].
      split; [eapply Qle_trans; [apply Qlt_le_weak; exact E|exact Hz]|].
      intros y [Hy|Hy]; [subst y; exact Hz|apply Hall; exact Hy].
    + assert (Hle : (z <= x)%Q).
      { apply Qnot_lt_le. intros H. apply Qlt_bool_iff in H. congruence. }
      destruct (IH x) as [Hin [Hx Hall]].
      split; [destruct Hin as [Hin|Hin]; auto|].
      split; [exact Hx|].
      intros y [Hy|Hy]; [subst y; eapply Qle_trans; eassumption
                        |apply Hall; exact Hy].
Qed.

Lemma high_low_disjoint (l : list Q) :
  (List.length (filter (fun r => Qle_bool 90 r) l)
   + List.length (filter (fun r => Qlt_bool r 70) l)
   <= List.length l)%nat.
Proof.
  induction l as [|r l IH]; [simpl; lia|]. cbn [filter].
  destruct (Qle_bool 90 r) eqn:Eh; destruct (Qlt_bool r 70) eqn:El;
    simpl; try lia.
  exfalso. apply Qle_bool_iff in Eh. apply Qlt_bool_iff in El.
  apply (Qlt_irrefl 70). eapply Qlt_trans; [|exact El].
  eapply Qlt_le_trans; [|exact Eh]. reflexivity.
Qed.

End StatsFacts.

(** X25.  For at least one result, the statistics report as minimum and
    maximum two of the results' reproducibilities, which bound all the
    others; a result is counted as highly reproducible (at least 90) or as
    flaky (below 70), never as both.  For no results every number is
    zero. *)
Theorem reproducibility_stats_sound (py_sum : list Q -> Q)
    (results : list ValidatedResult) :
  let st := calculate_reproducibility_stats py_sum results in
  (results = [] ->
     min_reproducibility st = 0%Q /\ max_reproducibility st = 0%Q /\
     average_reproducibility st = 0%Q /\
     highly_reproducible st = 0%nat /\ flaky_tests st = 0%nat) /\
  (results <> [] ->
     In (min_reproducibility st) (map reproducibility_of results) /\
     In (max_reproducibility st) (map reproducibility_of results) /\
     (forall r, In r results ->
        (min_reproducibility st <= reproducibility_of r)%Q /\
        (reproducibility_of r <= max_reproducibility st)%Q)) /\
  (highly_reproducible st + flaky_tests st <= List.length results)%nat.
Proof.
  cbv zeta. unfold calculate_reproducibility_stats.
  destruct results as [|r0 rs].
  - simpl. split; [auto|]. split; [congruence|lia].
  - cbn [map]. cbv zeta.
    cbn [min_reproducibility max_reproducibility highly_reproducible
         flaky_tests].
    set (x := reproducibility_of r0). set (l := map reproducibility_of rs).
    destruct (py_min_spec l x) as [Hmin [Hminx Hminall]].
    destruct (py_max_spec l x) as [Hmax [Hmaxx Hmaxall]].
    split; [intros E; discriminate|]. split.
    + intros _. split; [exact Hmin|]. split; [exact Hmax|].
      intros r [Hr|Hr].
      * subst r. fold x. auto.
      * assert (Hin : In (reproducibility_of r) l)
          by (apply in_map; exact Hr).
        auto.
    + pose proof (high_low_disjoint (x :: l)) as H.
      cbn [List.length] in *. unfold l in H. rewrite length_map in H.
      exact H.
Qed.

Section RecommendationFacts.

Lemma string_length_append (a b : string) :
  String.length (a ++ b) = (String.length a + String.length b)%nat.
Proof. induction a as [|c a IH]; simpl; [reflexivity|rewrite IH; reflexivity]. Qed.

Lemma nonempty_or_default (l d : list string) :
  d <> [] -> match l with [] => d | _ :: _ => l end <> [].
Proof. intros Hd. destruct l; [exact Hd|discriminate]. Qed.

End RecommendationFacts.

Lemma recommendations_cases (py_sum : list Q -> Q)
    (results : list ValidatedResult) :
  let recs := generate_recommendations py_sum results in
  let healthy := "Test suite is healthy! Consider expanding test coverage." in
  let sm := generate_summary results in
  let st := calculate_reproducibility_stats py_sum results in
  recs <> [] /\
  (recs = [healthy] <->
   Qlt_bool (sm_pass_rate sm) 80 = false /\ flaky_tests st = 0%nat /\
   Qlt_bool (average_reproducibility st) 80 = false /\
   sm_inconclusive sm <= 0) /\
  (results = [] ->
   recs = ["Critical: Pass rate is below 50%. Prioritize fixing core functionality tests.";
           "Average reproducibility is low. Tests may be affected by timing issues or external factors."]).
Proof.
  cbv zeta. split; [|split].
  - unfold generate_recommendations. cbv zeta.
    apply nonempty_or_default. discriminate.
  - unfold generate_recommendations. cbv zeta.
    set (sm := generate_summary results).
    set (st := calculate_reproducibility_stats py_sum results).
    assert (H5080 : Qlt_bool (sm_pass_rate sm) 80 = false ->
                    Qlt_bool (sm_pass_rate sm) 50 = false).
    { intros H. destruct (Qlt_bool (sm_pass_rate sm) 50) eqn:E;
        [|reflexivity].
      apply Qlt_bool_iff in E.
      assert (H' : Qlt_bool (sm_pass_rate sm) 80 = true).
      { apply Qlt_bool_iff. eapply Qlt_trans; [exact E|reflexivity]. }
      congruence. }
    destruct (Qlt_bool (sm_pass_rate sm) 50) eqn:E50.
    + split; [simpl; discriminate|]. intros [H _]. apply H5080 in H.
      congruence.
    + destruct (Qlt_bool (sm_pass_rate sm) 80) eqn:E80.
      * split; [simpl; discriminate|]. intros [H _]. discriminate.
      * cbn [app].
        destruct (Nat.ltb_spec 0 (flaky_tests st)) as [Hf|Hf].
        -- split.
           ++ cbn [app]. intros H. simpl in H. discriminate H.
           ++ intros [_ [H _]]. lia.
        -- cbn [app].
           destruct (Qlt_bool (average_reproducibility st) 80) eqn:Ea.
           ++ split; [simpl; discriminate|]. intros [_ [_ [H _]]].
              discriminate.
           ++ cbn [app].
              destruct (Z.ltb_spec 0 (sm_inconclusive sm)) as [Hi|Hi].
              ** split; [|intros [_ [_ [_ H]]]; lia].
                 intros H. injection H as H.
                 apply (f_equal String.length) in H.
                 rewrite string_length_append in H. simpl in H. lia.
              ** split; [intros _|reflexivity].
                 repeat split; [lia|exact Hi].
  - intros E. subst results. reflexivity.
Qed.

(** X26.  The recommendations are never empty.  The message "Test suite is
    healthy! ..." is given exactly when the pass rate is at least 80, no
    result has reproducibility below 70, the average reproducibility is at
    least 80 and no test is inconclusive, and it is then the only
    recommendation.  For no results at all the recommendations are the
    critical pass-rate message and the low-reproducibility message. *)
Theorem recommendations_shape (py_sum : list Q -> Q)
    (results : list ValidatedResult) :
  let recs := generate_recommendations py_sum results in
  let healthy := "Test suite is healthy! Consider expanding test coverage." in
  let sm := generate_summary results in
  let st := calculate_reproducibility_stats py_sum results in
  recs <> [] /\
  (recs = [healthy] <->
   (80 <= sm_pass_rate sm)%Q /\ flaky_tests st = 0%nat /\
   (80 <= average_reproducibility st)%Q /\ sm_inconclusive sm = 0) /\
  (results = [] ->
   recs = ["Critical: Pass rate is below 50%. Prioritize fixing core functionality tests.";
           "Average reproducibility is low. Tests may be affected by timing issues or external factors."]).
Proof.
  cbv zeta.
  destruct (recommendations_cases py_sum results) as [Hne [Hiff Hempty]].
  cbv zeta in Hiff.
  assert (Hnn : 0 <= sm_inconclusive (generate_summary results)).
  { unfold generate_summary.
    pose proof (count_results_partition results) as Hp.
    destruct results as [|r rs]; [simpl; lia|].
    cbn [List.length Nat.eqb]. cbv zeta. cbn [sm_inconclusive].
    cbn [List.length] in Hp. lia. }
  assert (Hq : forall x y, Qlt_bool x y = false <-> (y <= x)%Q).
  { intros x y. unfold Qlt_bool. rewrite negb_false_iff.
    apply Qle_bool_iff. }
  split; [exact Hne|]. split; [|exact Hempty].
  rewrite Hiff, !Hq. split.
  - intros [H1 [H2 [H3 H4]]]. repeat split; try assumption. lia.
  - intros [H1 [H2 [H3 H4]]]. repeat split; try assumption. lia.
Qed.

(* ================================================================== *)
(** ** Step interpretation and browser actions *)

Section InterpreterFacts.

Variable lower : string -> string.

Lemma generic_click_kind (step_lower : string) (elements : list Element) :
  forall key, generic_click step_lower elements <> ActPressKey key.
Proof.
  intros key. unfold generic_click, click_on.
  destruct (contains "button" step_lower); [discriminate|].
  destruct elements; discriminate.
Qed.

Lemma restart_click_kind (step_lower : string) (elements : list Element) :
  forall key, restart_click lower step_lower elements
              <> Returns (ActPressKey key).
Proof.
  intros key. unfold restart_click.
  destruct (contains "restart" step_lower || contains "new game" step_lower).
  - destruct (element_mentioning lower _ elements) as [[el|]|e];
      [discriminate| |discriminate].
    intros H. injection H as H. exact (generic_click_kind _ _ _ H).
  - intros H. injection H as H. exact (generic_click_kind _ _ _ H).
Qed.

Lemma interpret_step_kind (step : string) (ga : GameAnalysis) :
  forall key, interpret_step lower step ga <> Returns (ActPressKey key).
Proof.
  intros key. unfold interpret_step. cbv zeta.
  destruct (contains "navigate" (lower step) || contains "go to" (lower step)
            || contains "open" (lower step)); [discriminate|].
  destruct (contains "wait" (lower step)).
  { destruct (find_duration (lower step)) as [[t u]|]; [|discriminate].
    destruct (py_int_of_digits t); discriminate. }
  destruct (contains "click" (lower step)).
  { destruct (contains "start" (lower step) || contains "play" (lower step)).
    - destruct (element_mentioning lower _ (ga_elements ga)) as [[el|]|e];
        [discriminate|apply restart_click_kind|discriminate].
    - apply restart_click_kind. }
  destruct (contains "verify" (lower step) || contains "check" (lower step));
    [discriminate|].
  destruct (contains "type" (lower step) || contains "input" (lower step)
            || contains "enter" (lower step)); discriminate.
Qed.

Lemma element_mentioning_blocked (kws : list string)
    (before after : list Element) (el : Element) :
  Forall (fun b => exists t, el_text b = Some t /\
                             mentions_any kws (lower t) = false) before ->
  el_text el = None ->
  element_mentioning lower kws (before ++ el :: after)
  = Raises none_has_no_lower.
Proof.
  intros Hb He. induction Hb as [|b before [t [Ht Hm]] _ IH]; simpl.
  - rewrite He. reflexivity.
  - rewrite Ht, Hm. exact IH.
Qed.

Lemma element_mentioning_raises (kws : list string) (elements : list Element)
    (e : string) :
  element_mentioning lower kws elements = Raises e ->
  e = none_has_no_lower /\
  exists el, In el elements /\ el_text el = None.
Proof.
  induction elements as [|el rest IH]; simpl; [discriminate|].
  destruct (el_text el) as [t|] eqn:Et.
  - destruct (mentions_any kws (lower t)); [discriminate|].
    intros H. destruct (IH H) as [He [el' [Hin Hn]]].
    split; [exact He|]. exists el'. auto.
  - intros H. injection H as H. split; [auto|]. exists el. auto.
Qed.

Lemma restart_click_raises (step_lower : string) (elements : list Element)
    (e : string) :
  restart_click lower step_lower elements = Raises e ->
  e = none_has_no_lower /\
  exists el, In el elements /\ el_text el = None.
Proof.
  unfold restart_click.
  destruct (contains "restart" step_lower || contains "new game" step_lower);
    [|discriminate].
  destruct (element_mentioning lower _ elements) as [[el|]|e'] eqn:Em;
    [discriminate|discriminate|].
  intros H. injection H as H. subst e'.
  exact (element_mentioning_raises _ _ _ Em).
Qed.

End InterpreterFacts.

Section DurationFacts.

Lemma match_unit_cases (s u : string) :
  match_unit s = Some u -> u = "second" \/ u = "ms" \/ u = "millisecond".
Proof.
  unfold match_unit.
  destruct (String.prefix "second" s); [intros H; injection H; auto|].
  destruct (String.prefix "ms" s); [intros H; injection H; auto|].
  destruct (String.prefix "millisecond" s); [intros H; injection H; auto|].
  discriminate.
Qed.

Lemma find_duration_unit (s digits u : string) :
  find_duration s = Some (digits, u) ->
  u = "second" \/ u = "ms" \/ u = "millisecond".
Proof.
  induction s as [|c s IH]; cbn [find_duration].
  - destruct (match_duration_at "") as [g|] eqn:E; [|discriminate].
    vm_compute in E. discriminate.
  - destruct (match_duration_at (String c s)) as [g|] eqn:E; [|exact IH].
    intros H. injection H as H. subst g. unfold match_duration_at in E.
    destruct (span is_digit (String c s)) as [d rest].
    destruct d as [|c0 d0]; [discriminate|].
    destruct (span is_space rest) as [sp rest'].
    destruct (match_unit rest') as [u'|] eqn:Eu; [|discriminate].
    injection E as _ E. subst u'. exact (match_unit_cases _ _ Eu).
Qed.

End DurationFacts.

(** X27.  [_interpret_step] never produces a ["press_key"] action.  It
    raises in two situations only: for a step that mentions "click", when
    the search through the elements meets an element whose text is [None];
    and for a step that mentions "wait", when the duration found has more
    than 4300 digits.  A step whose lower-cased text mentions "navigate",
    "go to" or "open" is a navigation to the game URL whatever else it
    mentions, and a step that mentions none of the ten keywords is a
    verification of the step text as written. *)
Theorem interpret_step_actions (lower : string -> string)
    (step : string) (ga : GameAnalysis) :
  (forall key, interpret_step lower step ga <> Returns (ActPressKey key)) /\
  (forall e, interpret_step lower step ga = Raises e ->
     (contains "click" (lower step) = true /\ e = none_has_no_lower /\
      exists el, In el (ga_elements ga) /\ el_text el = None) \/
     (contains "wait" (lower step) = true /\
      exists digits unit_name,
        find_duration (lower step) = Some (digits, unit_name) /\
        (4300 < String.length digits)%nat /\
        e = exceeds_limit (String.length digits))) /\
  (contains "navigate" (lower step) = true \/
   contains "go to" (lower step) = true \/
   contains "open" (lower step) = true ->
   interpret_step lower step ga
   = Returns (ActNavigate match ga_url ga with Some u => u | None => "" end))
  /\
  (Forall (fun kw => contains kw (lower step) = false)
     ["navigate"; "go to"; "open"; "wait"; "click"; "verify"; "check";
      "type"; "input"; "enter"] ->
   interpret_step lower step ga = Returns (ActVerify step)).
Proof.
  split; [apply interpret_step_kind|]. split; [|split].
  - intros e. unfold interpret_step. cbv zeta.
    destruct (contains "navigate" (lower step) || contains "go to" (lower step)
              || contains "open" (lower step)); [discriminate|].
    destruct (contains "wait" (lower step)) eqn:Ew.
    { destruct (find_duration (lower step)) as [[digits u]|] eqn:Ef;
        [|discriminate].
      unfold py_int_of_digits, int_max_str_digits.
      destruct (Nat.ltb 4300 (String.length digits)) eqn:El; [|discriminate].
      intros H. injection H as H. right. split; [reflexivity|].
      exists digits, u. split; [reflexivity|].
      split; [apply Nat.ltb_lt; exact El|auto]. }
    destruct (contains "click" (lower step)) eqn:Ec.
    { intros H. left. split; [reflexivity|].
      destruct (contains "start" (lower step) || contains "play" (lower step)).
      - destruct (element_mentioning lower _ (ga_elements ga))
          as [[el|]|e'] eqn:Em; [discriminate| |].
        + exact (restart_click_raises lower _ _ _ H).
        + injection H as H. subst e'.
          exact (element_mentioning_raises lower _ _ _ Em).
      - exact (restart_click_raises lower _ _ _ H). }
    destruct (contains "verify" (lower step) || contains "check" (lower step));
      [discriminate|].
    destruct (contains "type" (lower step) || contains "input" (lower step)
              || contains "enter" (lower step)); discriminate.
  - intros H. unfold interpret_step. cbv zeta.
    destruct H as [H|[H|H]]; rewrite H; rewrite ?orb_true_r; reflexivity.
  - intros H. unfold interpret_step. cbv zeta.
    repeat match goal with
           | H : Forall _ (_ :: _) |- _ =>
               let E := fresh "E" in
               let H' := fresh "H" in
               inversion H as [|? ? E H']; subst; clear H; rewrite E
           end.
    reflexivity.
Qed.

(** X28.  A step that mentions "wait" and no navigation keyword waits 1000
    ms when the pattern [(\d+)\s*(second|ms|millisecond)] finds no duration
    in it.  When it finds the digits [d] and a unit, the unit is "second",
    "ms" or "millisecond"; for at most 4300 digits the step waits [int(d)]
    ms for the unit "ms" and [1000 * int(d)] ms for the other two: the unit
    "millisecond" contains "second" and is scaled like seconds.  For more
    than 4300 digits the conversion [int(d)] raises. *)
Theorem wait_duration (lower : string -> string)
    (step : string) (ga : GameAnalysis) :
  contains "navigate" (lower step) = false ->
  contains "go to" (lower step) = false ->
  contains "open" (lower step) = false ->
  contains "wait" (lower step) = true ->
  (find_duration (lower step) = None ->
   interpret_step lower step ga = Returns (ActWait 1000)) /\
  (forall digits unit_name,
     find_duration (lower step) = Some (digits, unit_name) ->
     (unit_name = "second" \/ unit_name = "ms" \/
      unit_name = "millisecond") /\
     ((String.length digits <= 4300)%nat ->
      interpret_step lower step ga
      = Returns (ActWait (if String.eqb unit_name "ms"
                          then digits_value 0 digits
                          else digits_value 0 digits * 1000))) /\
     ((4300 < String.length digits)%nat ->
      interpret_step lower step ga
      = Raises (exceeds_limit (String.length digits)))).
Proof.
  intros H1 H2 H3 Hw. unfold interpret_step. cbv zeta.
  rewrite H1, H2, H3, Hw. cbn [orb]. split.
  - intros E. rewrite E. reflexivity.
  - intros digits u E. rewrite E.
    pose proof (find_duration_unit _ _ _ E) as Hu.
    split; [exact Hu|].
    unfold py_int_of_digits, int_max_str_digits. split.
    + intros Hl. apply Nat.ltb_ge in Hl. rewrite Hl.
      destruct Hu as [Hu|[Hu|Hu]]; subst u; reflexivity.
    + intros Hl. apply Nat.ltb_lt in Hl. rewrite Hl. reflexivity.
Qed.

Lemma wait_duration_witness :
  let lower := fun s : string => s in
  let ga := {| ga_url := None; ga_elements := [] |} in
  contains "wait" (lower "wait 500 milliseconds") = true /\
  find_duration (lower "wait 500 milliseconds")
  = Some ("500", "millisecond") /\
  interpret_step lower "wait 500 milliseconds" ga
  = Returns (ActWait 500000) /\
  find_duration (lower "wait 250ms then look") = Some ("250", "ms") /\
  interpret_step lower "wait 250ms then look" ga = Returns (ActWait 250) /\
  find_duration (lower "wait for the board") = None /\
  interpret_step lower "wait for the board" ga = Returns (ActWait 1000).
Proof.
  intros lower ga.
  destruct (wait_duration lower "wait 500 milliseconds" ga
              eq_refl eq_refl eq_refl eq_refl) as [_ H].
  destruct (H "500" "millisecond" eq_refl) as [_ [H500 _]].
  destruct (wait_duration lower "wait 250ms then look" ga
              eq_refl eq_refl eq_refl eq_refl) as [_ H'].
  destruct (H' "250" "ms" eq_refl) as [_ [H250 _]].
  destruct (wait_duration lower "wait for the board" ga
              eq_refl eq_refl eq_refl eq_refl) as [Hnone _].
  split; [reflexivity|]. split; [reflexivity|].
  split; [apply H500; simpl; lia|].
  split; [reflexivity|]. split; [apply H250; simpl; lia|].
  split; [reflexivity|]. exact (Hnone eq_refl).
Defined.

(** X29.  A click step that mentions "start" or "play" searches the
    elements in order for one whose text mentions "start", "play" or
    "begin"; when an element without text comes before any such element,
    the interpretation raises, also when a matching element follows. *)
Theorem textless_element_blocks_search (lower : string -> string)
    (step : string) (ga : GameAnalysis)
    (before after : list Element) (el : Element) :
  Forall (fun kw => contains kw (lower step) = false)
         ["navigate"; "go to"; "open"; "wait"] ->
  contains "click" (lower step) = true ->
  contains "start" (lower step) = true \/ contains "play" (lower step) = true ->
  ga_elements ga = (before ++ el :: after)%list ->
  Forall (fun b => exists t, el_text b = Some t /\
            mentions_any ["start"; "play"; "begin"] (lower t) = false)
         before ->
  el_text el = None ->
  interpret_step lower step ga = Raises none_has_no_lower.
Proof.
  intros Hk Hc Hs Hel Hb He. unfold interpret_step. cbv zeta.
  repeat match goal with
         | H : Forall _ (_ :: _) |- _ =>
             let E := fresh "E" in
             let H' := fresh "H" in
             inversion H as [|? ? E H']; subst; clear H; rewrite E
         end.
  cbn [orb]. rewrite Hc.
  assert (Hsp : contains "start" (lower step) || contains "play" (lower step)
                = true).
  { destruct Hs as [H|H]; rewrite H; [reflexivity|apply orb_true_r]. }
  rewrite Hsp, Hel.
  rewrite (element_mentioning_blocked lower _ before after el Hb He).
  reflexivity.
Qed.

Lemma textless_element_blocks_search_witness :
  let lower := fun s : string => s in
  let ga := {| ga_url := None;
               ga_elements := [canvas_element; start_button] |} in
  contains "click" (lower "click the start button") = true /\
  el_text canvas_element = None /\
  mentions_any ["start"; "play"; "begin"] "start game" = true /\
  interpret_step lower "click the start button" ga
  = Raises none_has_no_lower.
Proof.
  intros lower ga.
  split; [reflexivity|]. split; [reflexivity|]. split; [reflexivity|].
  apply (textless_element_blocks_search lower
           "click the start button" ga [] [start_button] canvas_element).
  - repeat constructor.
  - reflexivity.
  - left. reflexivity.
  - reflexivity.
  - constructor.
  - reflexivity.
Defined.

(** X30.  [_perform_action] makes at most two browser calls.  Verifying, a
    click by selector and typing never raise, whatever the browser does; a
    verification, and a click whose target has a missing or zero coordinate,
    make no browser call at all; a navigation that raises is not followed by
    the 2000 ms wait. *)
Theorem perform_action_effects (browser : BrowserCall -> outcome unit)
    (action : Action) :
  (List.length (fst (perform_action browser action)) <= 2)%nat /\
  (match action with
   | ActVerify _ | ActClickSelector _ | ActType _ _ =>
       snd (perform_action browser action) = Returns tt
   | ActClickTarget x y =>
       truthy_coordinate x && truthy_coordinate y = false ->
       perform_action browser action = ([], Returns tt)
   | ActNavigate url =>
       forall e, browser (BNavigate url) = Raises e ->
                 perform_action browser action = ([BNavigate url], Raises e)
   | _ => True
   end) /\
  (forall d, perform_action browser (ActVerify d) = ([], Returns tt)).
Proof.
  split; [|split].
  - destruct action as [url|ms|x y|sel|d|sel text|key]; simpl; try lia.
    + destruct (browser (BNavigate url)); simpl; lia.
    + destruct x as [a|], y as [b|]; simpl; try lia.
      destruct (negb (Qeq_bool a 0) && negb (Qeq_bool b 0))%bool; simpl; lia.
    + destruct sel; simpl; lia.
  - destruct action as [url|ms|x y|sel|d|sel text|key]; simpl; auto.
    + intros e He. rewrite He. reflexivity.
    + destruct x as [a|], y as [b|]; simpl; auto.
      intros H. rewrite H. reflexivity.
    + destruct sel; reflexivity.
  - reflexivity.
Qed.
